(** * GBD: a block device stored as objects of a remote drive

    Shallow embedding of [gbd.py] (classes [GBDWorker] and [GBD]) and the
    properties of its natural-language specification.

    The source is Python 2 code ([xrange], [raw_input], [len] of a [filter]
    result, [sha1] of a [str]): integers are unbounded ([Z]), [/] between two
    integers is floor division, and [str] is a byte string.

    The program is embedded in a state-and-exception monad over a [World]
    that holds the remote drive, the environment of the process and the
    mutable attributes of the one device handle.  Threads are not modelled:
    a worker is the sequential body of its loop. *)

From Stdlib Require Import ZArith Lia.
From stdpp Require Import base gmap strings list pretty.

Local Open Scope Z_scope.

(** ** Python values and exceptions *)

Abbreviation bytes := (list Byte.byte).
Abbreviation file_id := positive.

(** What [json.loads(e.content)['error']['errors'][0]['reason']] evaluates
    to on the body of an HTTP error: a reason string, or one of the
    exceptions of the parser and of the three subscripts. *)
Inductive LookupFailure := BadJson | MissingKey | EmptyList | BadType.

Inductive ErrBody :=
| BodyReason (reason : string)
| BodyMalformed (k : LookupFailure).

Inductive exn :=
| HttpError (status : Z) (content : ErrBody)
| AssertionError (msg : string)
| IndexError (msg : string)
| ValueError (msg : string)
| KeyError (key : string)
| TypeError (msg : string)
| RuntimeError (msg : string)
| ZeroDivisionError
| EOFError
| Blocked.  (* not an exception: the calling thread waits for ever *)

(** An object of the drive. [parent = None] is the root folder. *)
Record File := mkFile {
  title : string;
  mimeType : string;
  parent : option file_id;
  trashed : bool;
  editable : bool;
  content : bytes
}.

Definition set_content (data : bytes) (f : File) : File :=
  mkFile (title f) (mimeType f) (parent f) (trashed f) (editable f) data.

Inductive PyVal :=
| PNone
| PStr (s : bytes)
| PFile (id : file_id) (f : File).  (* the resource dict of insert/update *)

(** ** Completion sinks and work items *)

(** A caller's callback is foreign code: all the device sees of it is
    whether it raises.  [BridgeCb k] is the closure [mycb] of the [k]-th
    call of [sync_io]. *)
Inductive Sink :=
| UserCb (name : nat) (behaviour : option exn → PyVal → option exn)
| BridgeCb (k : nat).

Inductive SinkName := ToUser (name : nat) | ToBridge (k : nat).

Definition sink_name (cb : Sink) : SinkName :=
  match cb with UserCb n _ => ToUser n | BridgeCb k => ToBridge k end.

(** [(idx, data, cb)] *)
Definition Item : Type := Z * option bytes * option Sink.

(** The locals [ret] and [sem] of one [sync_io] call. *)
Record Bridge := mkBridge {
  ret_list : list (option exn * PyVal);
  sem : nat
}.

(** ** The world *)

Inductive Call :=
| CallAuth
| CallFilesList (q_title : string)
| CallChildrenList (folderId : file_id) (q_title : string)
| CallGetMedia (fileId : file_id)
| CallUpdate (fileId : file_id)
| CallInsert (body_title : string).

Record World := mkWorld {
  (* the remote drive *)
  files : gmap file_id File;
  faults : list (option exn);   (* what the next remote calls raise *)
  calls : list Call;            (* remote calls issued, oldest first *)
  (* the process environment *)
  sleeps : list Z;              (* arguments of time.sleep, oldest first *)
  entropy : list Z;             (* source of the random module *)
  stdin : list (option Z);      (* lines for raw_input, None: not an int *)
  (* the device handle *)
  mapping : list (option file_id);
  que : list (Z * Item);
  unfinished : nat;
  bridges : gmap nat Bridge;
  delivered : list (SinkName * option exn * PyVal);
  workers : nat
}.

Definition with_files x w := mkWorld x (faults w) (calls w) (sleeps w) (entropy w) (stdin w) (mapping w) (que w) (unfinished w) (bridges w) (delivered w) (workers w).
Definition with_faults x w := mkWorld (files w) x (calls w) (sleeps w) (entropy w) (stdin w) (mapping w) (que w) (unfinished w) (bridges w) (delivered w) (workers w).
Definition with_calls x w := mkWorld (files w) (faults w) x (sleeps w) (entropy w) (stdin w) (mapping w) (que w) (unfinished w) (bridges w) (delivered w) (workers w).
Definition with_sleeps x w := mkWorld (files w) (faults w) (calls w) x (entropy w) (stdin w) (mapping w) (que w) (unfinished w) (bridges w) (delivered w) (workers w).
Definition with_entropy x w := mkWorld (files w) (faults w) (calls w) (sleeps w) x (stdin w) (mapping w) (que w) (unfinished w) (bridges w) (delivered w) (workers w).
Definition with_stdin x w := mkWorld (files w) (faults w) (calls w) (sleeps w) (entropy w) x (mapping w) (que w) (unfinished w) (bridges w) (delivered w) (workers w).
Definition with_mapping x w := mkWorld (files w) (faults w) (calls w) (sleeps w) (entropy w) (stdin w) x (que w) (unfinished w) (bridges w) (delivered w) (workers w).
Definition with_que x w := mkWorld (files w) (faults w) (calls w) (sleeps w) (entropy w) (stdin w) (mapping w) x (unfinished w) (bridges w) (delivered w) (workers w).
Definition with_unfinished x w := mkWorld (files w) (faults w) (calls w) (sleeps w) (entropy w) (stdin w) (mapping w) (que w) x (bridges w) (delivered w) (workers w).
Definition with_bridges x w := mkWorld (files w) (faults w) (calls w) (sleeps w) (entropy w) (stdin w) (mapping w) (que w) (unfinished w) x (delivered w) (workers w).
Definition with_delivered x w := mkWorld (files w) (faults w) (calls w) (sleeps w) (entropy w) (stdin w) (mapping w) (que w) (unfinished w) (bridges w) x (workers w).
Definition with_workers x w := mkWorld (files w) (faults w) (calls w) (sleeps w) (entropy w) (stdin w) (mapping w) (que w) (unfinished w) (bridges w) (delivered w) x.

(** ** The monad: state of the world, and either a value or an exception *)

Inductive Result (A : Type) :=
| Ret (a : A)
| Raise (e : exn).
Arguments Ret {A} a.
Arguments Raise {A} e.

Definition M (A : Type) : Type := World → Result A * World.

Global Instance M_ret : MRet M := λ A a w, (Ret a, w).
Global Instance M_bind : MBind M := λ A B f m w,
  match m w with
  | (Ret a, w') => f a w'
  | (Raise e, w') => (Raise e, w')
  end.

Definition raise {A} (e : exn) : M A := λ w, (Raise e, w).
Definition gets {A} (f : World → A) : M A := λ w, (Ret (f w), w).
Definition modify (f : World → World) : M unit := λ w, (Ret tt, f w).

(** [try: body / except <those that handler takes>: handler]; a handler
    re-raises what its [except] clause does not match. *)
Definition try_except {A} (body : M A) (handler : exn → M A) : M A := λ w,
  match body w with
  | (Ret a, w') => (Ret a, w')
  | (Raise e, w') => handler e w'
  end.

(** [try: body / finally: final] *)
Definition try_finally {A} (body : M A) (final : M unit) : M A := λ w,
  let '(r, w') := body w in
  match final w' with
  | (Ret _, w'') => (r, w'')
  | (Raise e, w'') => (Raise e, w'')
  end.

(** [assert b] *)
Definition assert (b : bool) (msg : string) : M unit :=
  if b then mret tt else raise (AssertionError msg).

(** [with self.lock: body].  One thread runs at a time in this model, so
    the lock is free when [body] starts and released when it ends. *)
Definition with_lock {A} (body : M A) : M A := body.

(** [time.sleep(secs)] *)
Definition sleep (secs : Z) : M unit :=
  modify (λ w, with_sleeps (sleeps w ++ [secs]) w).

(** [random.randint(a, b)]: the next number of the source, brought into
    [a..b]. *)
Definition randint (a b : Z) : M Z := λ w,
  let r := hd 0 (entropy w) in
  (Ret (a + r `mod` (b - a + 1)), with_entropy (tl (entropy w)) w).

(** [int(raw_input(prompt))] *)
Definition int_raw_input (prompt : string) : M Z := λ w,
  match stdin w with
  | [] => (Raise EOFError, w)
  | None :: rest => (Raise (ValueError "invalid literal for int()"), with_stdin rest w)
  | Some n :: rest => (Ret n, with_stdin rest w)
  end.

(** ** The remote drive *)

Module Drive.

(** [request.execute()]: the call is issued, then fails or takes effect. *)
Definition execute {A} (c : Call) (effect : M A) : M A := λ w,
  let w1 := with_calls (calls w ++ [c]) w in
  match faults w1 with
  | Some e :: rest => (Raise e, with_faults rest w1)
  | None :: rest => effect (with_faults rest w1)
  | [] => effect w1
  end.

Definition titled (t : string) (x : file_id * File) : bool :=
  bool_decide (title x.2 = t).

Definition child_of (folder : file_id) (x : file_id * File) : bool :=
  bool_decide (parent x.2 = Some folder).

(** The objects that a query by title finds, in all the drive and in one
    folder. *)
Definition titled_files (fs : gmap file_id File) (t : string) : list (file_id * File) :=
  List.filter (titled t) (map_to_list fs).

Definition children (fs : gmap file_id File) (folder : file_id) (t : string) : list (file_id * File) :=
  List.filter (λ x, child_of folder x && titled t x) (map_to_list fs).

(** [files().list(q="title='t'")]: [results['items']] *)
Definition files_list (t : string) : M (list (file_id * File)) :=
  execute (CallFilesList t) (gets (λ w, titled_files (files w) t)).

(** [children().list(folderId=folder, q="title='t'")]: [results['items']] *)
Definition children_list (folder : file_id) (t : string) : M (list (file_id * File)) :=
  execute (CallChildrenList folder t) (gets (λ w, children (files w) folder t)).

(** [files().get_media(fileId=id)] *)
Definition get_media (id : file_id) : M bytes :=
  execute (CallGetMedia id)
    (f ← gets (λ w, files w !! id);
     match f with
     | Some f => mret (content f)
     | None => raise (HttpError 404 (BodyReason "notFound"))
     end).

(** [files().update(fileId=id, media_body=data)] *)
Definition update (id : file_id) (data : bytes) : M PyVal :=
  execute (CallUpdate id)
    (f ← gets (λ w, files w !! id);
     match f with
     | Some f =>
         modify (λ w, with_files (<[id := set_content data f]> (files w)) w);;
         mret (PFile id (set_content data f))
     | None => raise (HttpError 404 (BodyReason "notFound"))
     end).

(** [files().insert(body=..., media_body=data)]: the drive picks an id
    that no object has. *)
Definition insert (f : File) : M (file_id * File) :=
  execute (CallInsert (title f))
    (id ← gets (λ w, fresh (dom (files w)));
     modify (λ w, with_files (<[id := f]> (files w)) w);;
     mret (id, f)).

End Drive.

(** ** The device handle *)

(** [self.config]: the defaults of [config.Config] overridden by the
    keyword arguments; [None] is an absent key. *)
Record Config := mkConfig {
  gbd_data_folder : string;
  create : option bool;
  cfg_workers : option Z;
  default_block_size : option Z;
  default_total_size : option Z
}.

(** The attributes of a [GBD] object that do not change once it is built.
    [mapping] and [que] are in the [World]. *)
Record GBD := mkGBD {
  config : Config;
  data_dir : file_id;
  bd_attr : gmap string Z;
  block_size : Z;
  block_count : Z;
  total_size : Z
}.

Definition FOLDER_MIMETYPE : string := "application/vnd.google-apps.folder".
Definition BLOCK_MIMETYPE : string := "application/octet-stream".

(** Modelled from the spec: [util.TimedPriorityQueue] is not among the
    sources.  The spec asks for a queue ordered by priority, first in first
    out within one priority, with a counter of outstanding tasks that [put]
    increments and [task_done] decrements, and a [get] that waits while the
    queue is empty.  Which priority is served first is not said; the
    smaller number is, as in Python's [PriorityQueue]. *)
Module TimedPriorityQueue.

Fixpoint enqueue (pri : Z) (it : Item) (q : list (Z * Item)) : list (Z * Item) :=
  match q with
  | [] => [(pri, it)]
  | (p, x) :: rest =>
      if pri <? p then (pri, it) :: q else (p, x) :: enqueue pri it rest
  end.

Definition put (it : Item) (pri : Z) : M unit :=
  modify (λ w, with_unfinished (S (unfinished w)) (with_que (enqueue pri it (que w)) w)).

Definition get : M Item := λ w,
  match que w with
  | [] => (Raise Blocked, w)
  | (_, it) :: rest => (Ret it, with_que rest w)
  end.

Definition task_done : M unit :=
  modify (λ w, with_unfinished (Nat.pred (unfinished w)) w).

End TimedPriorityQueue.

(** *** Helpers of [GBD] *)

(** ["\0" * n] *)
Definition zeros (n : Z) : bytes := replicate (Z.to_nat n) Byte.x00.

(** [len(s)] *)
Definition len {A} (l : list A) : Z := Z.of_nat (length l).

Definition idx_to_name (idx : Z) : string := "gbd_b" +:+ pretty idx.

(** [self.mapping[idx]], for an [idx] that is not negative *)
Definition mapping_get (idx : Z) : M (option file_id) :=
  m ← gets mapping;
  match m !! Z.to_nat idx with
  | Some v => mret v
  | None => raise (IndexError "list index out of range")
  end.

(** [self.mapping[idx] = v], for an [idx] that is not negative *)
Definition mapping_set (idx : Z) (v : option file_id) : M unit :=
  m ← gets mapping;
  if bool_decide (Z.to_nat idx < length m)%nat
  then modify (with_mapping (<[Z.to_nat idx := v]> m))
  else raise (IndexError "list assignment index out of range").

Definition block_id (self : GBD) (idx : Z) : M (option file_id) :=
  with_lock (
    if (block_count self <=? idx) || (idx <? 0)
    then raise (IndexError "Can't map idx")
    else
      cur ← mapping_get idx;
      match cur with
      | None =>
          items ← Drive.children_list (data_dir self) (idx_to_name idx);
          match items with
          | [item] => mapping_set idx (Some item.1)   (* len(...) == 1 *)
          | _ => assert (len items =? 0) "len(results['items']) == 0"
          end
      | Some _ => mret tt
      end;;
      mapping_get idx).

Definition new_block (self : GBD) (idx : Z) (data : option bytes) : M PyVal :=
  with_lock (
    if (block_count self <=? idx) || (idx <? 0)
    then raise (ValueError "Index out of bound")
    else
      cur ← mapping_get idx;
      match cur with
      | Some _ => raise (ValueError "None empty mapping")
      | None =>
          data ← match data with
                 | Some d => assert (len d =? block_size self) "len(data) == self.block_size";; mret d
                 | None => mret (zeros (block_size self))
                 end;
          result ← Drive.insert
            (mkFile (idx_to_name idx) BLOCK_MIMETYPE (Some (data_dir self)) false true data);
          mapping_set idx (Some result.1);;
          mret (PFile result.1 result.2)
      end).

(** ** [GBDWorker] *)

Module GBDWorker.

Definition read_block (gbd : GBD) (idx : Z) : M PyVal :=
  blkid ← block_id gbd idx;
  match blkid with
  | None => mret (PStr (zeros (block_size gbd)))
  | Some blkid =>
      results ← Drive.get_media blkid;
      assert (len results =? block_size gbd) "len(results) == self.gbd.block_size";;
      mret (PStr results)
  end.

Definition write_block (gbd : GBD) (idx : Z) (data : bytes) : M PyVal :=
  assert (len data =? block_size gbd) "len(data) == self.gbd.block_size";;
  blkid ← block_id gbd idx;
  match blkid with
  | None => new_block gbd idx (Some data)
  | Some blkid => Drive.update blkid data
  end.

(** The body of [try:] in [do_request]. *)
Definition block_op (gbd : GBD) (idx : Z) (data : option bytes) : M PyVal :=
  match data with
  | None => read_block gbd idx
  | Some data => write_block gbd idx data
  end.

(** [json.loads(e.content)['error']['errors'][0]['reason']] *)
Definition error_reason (content : ErrBody) : M string :=
  match content with
  | BodyReason r => mret r
  | BodyMalformed BadJson => raise (ValueError "No JSON object could be decoded")
  | BodyMalformed MissingKey => raise (KeyError "error")
  | BodyMalformed EmptyList => raise (IndexError "list index out of range")
  | BodyMalformed BadType => raise (TypeError "indices must be integers")
  end.

(** The seconds slept after round [rnd] was refused:
    [(2 ** rnd) + random.randint(0, 999) / 1000], with the integer
    division of Python 2. *)
Definition backoff (rnd r : Z) : Z := 2 ^ rnd + r `div` 1000.

(** [for rnd in rnds: ...]; when the rounds are used up the function
    ends without a [return], which gives [None]. *)
Fixpoint do_request_rounds (rnds : list Z) (gbd : GBD) (idx : Z) (data : option bytes) : M PyVal :=
  match rnds with
  | [] => mret PNone
  | rnd :: rest =>
      try_except (block_op gbd idx data)
        (λ e,
          match e with
          | HttpError status content =>
              if status =? 403 then
                reason ← error_reason content;
                if bool_decide (reason ∈ ["rateLimitExceeded"; "userRateLimitExceeded"])
                then
                  r ← randint 0 999;
                  sleep (backoff rnd r);;
                  do_request_rounds rest gbd idx data
                else raise e
              else raise e
          | _ => raise e
          end)
  end.

(** [xrange(5)] *)
Definition xrange5 : list Z := [0; 1; 2; 3; 4].

Definition do_request (gbd : GBD) (idx : Z) (data : option bytes) : M PyVal :=
  do_request_rounds xrange5 gbd idx data.

(** [cb(err, ret)]: the call is recorded; [mycb] of [sync_io] appends the
    pair to its [ret] and releases its semaphore. *)
Definition call_sink (cb : Sink) (err : option exn) (ret : PyVal) : M unit :=
  modify (λ w, with_delivered (delivered w ++ [(sink_name cb, err, ret)]) w);;
  match cb with
  | UserCb _ behaviour =>
      match behaviour err ret with
      | Some e => raise e
      | None => mret tt
      end
  | BridgeCb k =>
      modify (λ w, with_bridges
        (alter (λ b, mkBridge (ret_list b ++ [(err, ret)]) (S (sem b))) k (bridges w)) w)
  end.

(** What one turn of [while True:] does with the item it got. *)
Definition run_item (gbd : GBD) (it : Item) : M unit :=
  let '(idx, data, cb) := it in
  '(err, ret) ← try_except
                  (ret ← do_request gbd idx data; mret (None, ret))
                  (λ e, mret (Some e, PNone));
  try_finally
    (try_except
       (match cb with
        | Some cb => call_sink cb err ret
        | None => mret tt
        end)
       (λ _, mret tt))
    TimedPriorityQueue.task_done.

(** One turn of the loop of [run]. *)
Definition run_turn (gbd : GBD) : M unit :=
  it ← TimedPriorityQueue.get;
  run_item gbd it.

(** [n] turns of [while True:]; the worker waits ([Blocked]) at an empty
    queue. *)
Fixpoint run (n : nat) (gbd : GBD) : M unit :=
  match n with
  | O => mret tt
  | S n => run_turn gbd;; run n gbd
  end.

End GBDWorker.

(** ** [GBD]: reading and writing *)

(** [sem.acquire()]: while the semaphore is zero the caller waits and the
    worker takes the next item of the queue. *)
Fixpoint sem_acquire (fuel : nat) (self : GBD) (k : nat) : M unit :=
  b ← gets (λ w, bridges w !! k);
  match b with
  | Some (mkBridge r (S n)) =>
      modify (λ w, with_bridges (<[k := mkBridge r n]> (bridges w)) w)
  | _ =>
      match fuel with
      | O => raise Blocked
      | S fuel => GBDWorker.run_turn self;; sem_acquire fuel self k
      end
  end.

(** [ret.pop()] *)
Definition ret_pop (k : nat) : M (option exn * PyVal) :=
  b ← gets (λ w, bridges w !! k);
  match b with
  | Some (mkBridge r s) =>
      match last r with
      | Some x =>
          modify (λ w, with_bridges (<[k := mkBridge (removelast r) s]> (bridges w)) w);;
          mret x
      | None => raise (IndexError "pop from empty list")
      end
  | None => raise (IndexError "pop from empty list")
  end.

Definition sync_io (self : GBD) (idx : Z) (data : option bytes) (pri : Z) : M PyVal :=
  (* ret = []; sem = Semaphore(0) *)
  k ← gets (λ w, fresh (dom (bridges w)));
  modify (λ w, with_bridges (<[k := mkBridge [] 0]> (bridges w)) w);;
  TimedPriorityQueue.put (idx, data, Some (BridgeCb k)) pri;;
  n ← gets (λ w, length (que w));
  sem_acquire n self k;;
  '(err, data) ← ret_pop k;
  match err with
  | Some e => raise e
  | None => mret data
  end.

(** [read_block(idx, cb, pri)]; the result of the call with a callback is
    [None]. *)
Definition read_block (self : GBD) (idx : Z) (cb : option Sink) (pri : Z) : M PyVal :=
  assert ((0 <=? idx) && (idx <? block_count self)) "0 <= idx < self.block_count";;
  match cb with
  | Some cb => TimedPriorityQueue.put (idx, None, Some cb) pri;; mret PNone
  | None => sync_io self idx None pri
  end.

(** [write_block(idx, data, cb, pri)]; an empty [data] is false. *)
Definition write_block (self : GBD) (idx : Z) (data : bytes) (cb : option Sink) (pri : Z) : M PyVal :=
  assert ((0 <=? idx) && (idx <? block_count self)) "0 <= idx < self.block_count";;
  assert (negb (len data =? 0) && (len data =? block_size self))
    "data and len(data) == self.block_size";;
  match cb with
  | Some cb => TimedPriorityQueue.put (idx, Some data, Some cb) pri;; mret PNone
  | None => sync_io self idx (Some data) pri
  end.

(** ** [GBD]: opening the device *)

Section Open.

(** [config.Metadata['version']]; [config.py] is not among the sources. *)
Variable Metadata_version : Z.

(** [json.loads] and [json.dumps] on the metadata record, a dict with
    integer values; [None]: not JSON. *)
Variable json_loads : bytes → option (gmap string Z).
Variable json_dumps : gmap string Z → bytes.

(** Getting credentials and a client; it can fail as a remote call can. *)
Definition build_service : M unit := Drive.execute CallAuth (mret tt).

(** [d[key]] *)
Definition getitem (d : gmap string Z) (key : string) : M Z :=
  match d !! key with
  | Some v => mret v
  | None => raise (KeyError key)
  end.

(** [a // b] *)
Definition floordiv (a b : Z) : M Z :=
  if b =? 0 then raise ZeroDivisionError else mret (a `div` b).

Definition create_data_dir (cfg : Config) : M file_id :=
  result ← Drive.insert (mkFile (gbd_data_folder cfg) FOLDER_MIMETYPE None false true []);
  (* [if not result]: a resource dict is never empty *)
  mret result.1.

Definition get_data_dir (cfg : Config) : M file_id :=
  let folder := gbd_data_folder cfg in
  results ← Drive.files_list folder;
  let items := List.filter (λ x : file_id * File, negb (trashed x.2)) results in
  match items with
  | [] =>
      if negb (default false (create cfg))
      then raise (RuntimeError "Can't locate folder")
      else create_data_dir cfg
  | [item] =>
      if negb (bool_decide (mimeType item.2 = FOLDER_MIMETYPE))
      then raise (AssertionError "not a folder")
      else if negb (editable item.2)
      then raise (RuntimeError "folder is readonly")
      else mret item.1
  | _ => raise (AssertionError "don't know which to use")
  end.

(** [int(self.config[key])] if the key is there, else
    [int(raw_input(prompt))]. *)
Definition config_or_input (v : option Z) (prompt : string) : M Z :=
  match v with
  | Some v => mret v
  | None => int_raw_input prompt
  end.

(** Returns the [self.bd_attr] it sets. *)
Definition init_data_dir (cfg : Config) (data_dir : file_id) : M (gmap string Z) :=
  block_size ← config_or_input (default_block_size cfg) "Desired block size: ";
  total_size ← config_or_input (default_total_size cfg) "Total size: ";
  if total_size <? block_size
  then raise (ValueError "block_size should not be bigger than total_size.")
  else
    q ← floordiv total_size block_size;
    let used_size := q * block_size in
    block_count ← floordiv used_size block_size;
    let bd_attr : gmap string Z :=
      <["version" := Metadata_version]>
        (<["block_size" := block_size]> (<["block_count" := block_count]> ∅)) in
    Drive.insert (mkFile "config" "application/json" (Some data_dir) false true
                    (json_dumps bd_attr));;
    mret bd_attr.

(** Returns the [self.bd_attr] it sets. *)
Definition load_data_dir (cfg : Config) (data_dir : file_id) : M (gmap string Z) :=
  items ← Drive.children_list data_dir "config";
  match items with
  | [] => init_data_dir cfg data_dir
  | [item] =>
      results ← Drive.get_media item.1;
      assert (negb (len results =? 0)) "results";;
      match json_loads results with
      | None => raise (ValueError "No JSON object could be decoded")
      | Some bd_attr =>
          version ← getitem bd_attr "version";
          if negb (version =? Metadata_version)
          then raise (AssertionError "Version mismatch: {0} vs {1}")
          else mret bd_attr
      end
  | _ => raise (AssertionError "config file should be unique")
  end.

(** [for i in xrange(n): worker = GBDWorker(self, self.build_service());
    worker.start()] *)
Fixpoint start_workers (n : nat) : M unit :=
  match n with
  | O => mret tt
  | S n =>
      build_service;;
      modify (λ w, with_workers (S (workers w)) w);;
      start_workers n
  end.

Definition __init__ (cfg : Config) : M GBD :=
  build_service;;
  data_dir ← get_data_dir cfg;
  (* self.uuid is never read *)
  bd_attr ← load_data_dir cfg data_dir;
  block_size ← getitem bd_attr "block_size";
  block_count ← getitem bd_attr "block_count";
  modify (with_mapping (replicate (Z.to_nat block_count) None));;
  modify (λ w, with_unfinished 0%nat (with_que [] w));;
  start_workers (Z.to_nat (default 8 (cfg_workers cfg)));;
  mret (mkGBD cfg data_dir bd_attr block_size block_count (block_size * block_count)).

End Open.

(** ** [GBD]: waiting for the queue *)




(** * Properties *)

(** ** Vocabulary *)

(** A valid block index. *)
Definition valid_idx (self : GBD) (idx : Z) : Prop := 0 ≤ idx < block_count self.

(** The world once a remote call has been issued and has not failed. *)
Definition issued (c : Call) (w : World) : World := with_calls (calls w ++ [c]) w.

(** [preserves π m]: running [m] never changes the part [π] of the world,
    whether it returns or raises. *)
Definition preserves {X A} (π : World → X) (m : M A) : Prop :=
  ∀ w, π (m w).2 = π w.

(** The part of the world that a block operation has no business with:
    the process environment and the queue side of the handle. *)
Definition host (w : World) :=
  (sleeps w, entropy w, stdin w, que w, unfinished w, bridges w, delivered w, workers w).

(** The errors that [do_request] takes for a refusal by the rate limit. *)
Definition rate_limited (e : exn) : Prop :=
  ∃ reason, e = HttpError 403 (BodyReason reason) ∧
            reason ∈ ["rateLimitExceeded"; "userRateLimitExceeded"].

(** The world in which the next round starts after a refusal in round
    [rnd]: one number of the random source is used up and the worker has
    slept. *)
Definition backed_off (rnd : Z) (w : World) : World :=
  with_sleeps (sleeps w ++ [2 ^ rnd]) (with_entropy (tl (entropy w)) w).

(** [refused gbd idx data rnds w w']: from [w], the attempt of each round
    of [rnds] ends in a rate-limit error, and [w'] is the world after the
    last back-off. *)
Inductive refused (gbd : GBD) (idx : Z) (data : option bytes) : list Z → World → World → Prop :=
| refused_nil w : refused gbd idx data [] w w
| refused_cons rnd rest w e w1 w' :
    GBDWorker.block_op gbd idx data w = (Raise e, w1) →
    rate_limited e →
    refused gbd idx data rest (backed_off rnd w1) w' →
    refused gbd idx data (rnd :: rest) w w'.

(** An error that the [except] clause of [do_request] lets through as it
    is: not an [HttpError], or one whose status is not 403, or a 403 whose
    reason is not one of the two rate-limit reasons. *)
Definition passed_on (e : exn) : Prop :=
  match e with
  | HttpError status content =>
      status ≠ 403 ∨
      ∃ reason, content = BodyReason reason ∧
                reason ∉ ["rateLimitExceeded"; "userRateLimitExceeded"]
  | _ => True
  end.

Definition err_of {A} (r : Result A) : option exn :=
  match r with Ret _ => None | Raise e => Some e end.

Definition ret_of (r : Result PyVal) : PyVal :=
  match r with Ret v => v | Raise _ => PNone end.

(** The table has one slot per block, and a slot that holds an id holds
    the id of an object of the data folder that bears the block's name. *)
Definition consistent (gbd : GBD) (w : World) : Prop :=
  length (mapping w) = Z.to_nat (block_count gbd) ∧
  ∀ idx id, 0 ≤ idx → mapping w !! Z.to_nat idx = Some (Some id) →
    ∃ f, (id, f) ∈ Drive.children (files w) (data_dir gbd) (idx_to_name idx).

(** What [block_id] and [new_block] can do to the table: nothing, or fill
    the slot of [idx], which held [None]. *)
Definition fills_slot (idx : Z) (w w' : World) : Prop :=
  mapping w' = mapping w ∨
  (mapping w !! Z.to_nat idx = Some None ∧
   ∃ id, mapping w' = <[Z.to_nat idx := Some id]> (mapping w)).

(** A slot that holds an id keeps it. *)
Definition keeps_slots {A} (m : M A) : Prop :=
  ∀ w n id, mapping w !! n = Some (Some id) → mapping (m w).2 !! n = Some (Some id).

(** The steps of [__init__] before the workers are started leave the
    handle's table, queue and workers alone. *)
Definition handle (w : World) := (mapping w, que w, unfinished w, workers w).

(** [consistent] is what [__init__] sets up and what every turn of a
    worker keeps, whatever the drive answers. *)
Definition keeps_consistent (gbd : GBD) {A} (m : M A) : Prop :=
  ∀ w, consistent gbd w → consistent gbd (m w).2.

(** A world in which no remote call is going to fail. *)
Definition quiet (w : World) : Prop := faults w = [].

(** [calm m]: in a quiet world [m] leaves a quiet world, and what it
    raises is an error that [do_request] passes on. *)
Definition calm {A} (m : M A) : Prop :=
  ∀ w, quiet w → quiet (m w).2 ∧ ∀ e, (m w).1 = Raise e → passed_on e.

(** The objects that do not bear the title [t] are the same in both
    drives. *)
Definition same_but (t : string) (fs fs' : gmap file_id File) : Prop :=
  ∀ id f, title f ≠ t → (fs !! id = Some f ↔ fs' !! id = Some f).

(** No two objects of a folder bear the same title. *)
Definition unambiguous_files (folder : file_id) (fs : gmap file_id File) : Prop :=
  ∀ t, (length (Drive.children fs folder t) ≤ 1)%nat.

Definition unambiguous (gbd : GBD) (w : World) : Prop :=
  unambiguous_files (data_dir gbd) (files w).

(** What the write of a block does to the objects of the drive: nothing,
    or new content for an object that bears the block's name in the data
    folder, or a first object under that name. *)
Inductive write_step (gbd : GBD) (idx : Z) (data : bytes)
    (fs fs' : gmap file_id File) : Prop :=
| write_step_none :
    fs' = fs → write_step gbd idx data fs fs'
| write_step_update id f :
    fs !! id = Some f →
    title f = idx_to_name idx →
    parent f = Some (data_dir gbd) →
    fs' = <[id := set_content data f]> fs →
    write_step gbd idx data fs fs'
| write_step_create f :
    Drive.children fs (data_dir gbd) (idx_to_name idx) = [] →
    title f = idx_to_name idx →
    parent f = Some (data_dir gbd) →
    content f = data →
    fs' = <[fresh (dom fs) := f]> fs →
    write_step gbd idx data fs fs'.

(** The handle agrees with the drive, and no block has two objects. *)
Definition sound (gbd : GBD) (w : World) : Prop :=
  consistent gbd w ∧ unambiguous gbd w.

(** [fills idx m]: all that [m] does to the table is to fill the slot of
    [idx]. *)
Definition fills {A} (idx : Z) (m : M A) : Prop :=
  ∀ w, fills_slot idx w (m w).2.

(** The objects that [get_data_dir] chooses among: those with the title
    of the folder that are not in the bin. *)
Definition candidates (cfg : Config) (fs : gmap file_id File) : list (file_id * File) :=
  List.filter (λ x : file_id * File, negb (trashed x.2))
    (Drive.titled_files fs (gbd_data_folder cfg)).

(** The record that [init_data_dir] stores. *)
Definition geometry (version block_size block_count : Z) : gmap string Z :=
  <["version" := version]>
    (<["block_size" := block_size]> (<["block_count" := block_count]> ∅)).

(** ** Concrete worlds *)

(** A device of two blocks of two bytes in folder 7 of an empty drive. *)
Definition g0 : GBD :=
  mkGBD (mkConfig "gbd" None None None None) 7%positive ∅ 2 2 4.

Definition w_new : World := mkWorld ∅ [] [] [] [] [] [None; None] [] 0 ∅ [] 0.

Definition rate_limit_error : exn := HttpError 403 (BodyReason "rateLimitExceeded").

(** The next five, respectively four, remote calls are refused. *)
Definition w_refused5 : World := with_faults (replicate 5 (Some rate_limit_error)) w_new.
Definition w_refused4 : World := with_faults (replicate 4 (Some rate_limit_error)) w_new.

(** A callback that never raises. *)
Definition quiet_cb : Sink := UserCb 0 (λ _ _, None).

Definition block0 (data : bytes) : File :=
  mkFile "gbd_b0" BLOCK_MIMETYPE (Some 7%positive) false true data.

(** Block 0 has an object that the table does not know yet; has one that
    the table knows; has two objects. *)
Definition w_found : World :=
  with_files {[ 1%positive := block0 [Byte.x01; Byte.x02] ]} w_new.
Definition w_cached : World := with_mapping [Some 1%positive; None] w_found.
Definition w_twice : World :=
  with_files {[ 1%positive := block0 [Byte.x01; Byte.x02];
                2%positive := block0 [Byte.x03; Byte.x04] ]} w_new.

(** A stand-in for [json] on the metadata record: three bytes, the
    version, the block size and the block count. *)
Definition meta_encode (d : gmap string Z) : bytes :=
  (λ key, default Byte.x00 (Byte.of_N (Z.to_N (default 0 (d !! key)))))
    <$> ["version"; "block_size"; "block_count"].

Definition meta_decode (b : bytes) : option (gmap string Z) :=
  match b with
  | [v; s; c] =>
      Some (<["version" := Z.of_N (Byte.to_N v)]>
             (<["block_size" := Z.of_N (Byte.to_N s)]>
               (<["block_count" := Z.of_N (Byte.to_N c)]> ∅)))
  | _ => None
  end.

Definition cfg0 : Config := mkConfig "gbd" None (Some 1) None None.

(** Sizes in the configuration, the total smaller than a block. *)
Definition cfg_small : Config := mkConfig "gbd" None (Some 1) (Some 4096) (Some 1024).

Definition folder7 : File := mkFile "gbd" FOLDER_MIMETYPE None false true [].

Definition config_file (version : Byte.byte) : File :=
  mkFile "config" "application/json" (Some 7%positive) false true
    [version; Byte.x02; Byte.x02].

(** A drive with the data folder and a metadata object of version 1,
    respectively 2, before the device is opened. *)
Definition w_closed (version : Byte.byte) : World :=
  mkWorld {[ 7%positive := folder7; 8%positive := config_file version ]}
    [] [] [] [] [] [] [] 0 ∅ [] 0.

(** Nothing is configured and the user types 4096, then 1024. *)
Definition w_typing : World := with_stdin [Some 4096; Some 1024] w_new.

(** The handle and the world that opening gives on the drive of version 1. *)
Definition g1 : GBD :=
  mkGBD cfg0 7%positive
    (<["version" := 1]> (<["block_size" := 2]> (<["block_count" := 2]> ∅))) 2 2 4.

Definition w_opened : World :=
  (__init__ 1 meta_decode meta_encode cfg0 (w_closed Byte.x01)).2.

(** ** More concrete worlds *)

(** Block 0 is mapped to an object of three bytes on a device of blocks of
    two bytes. *)
Definition w_short : World :=
  with_mapping [Some 1%positive; None]
    (with_files {[ 1%positive := block0 [Byte.x01; Byte.x02; Byte.x03] ]} w_new).

(** The next remote call is answered with a server error. *)
Definition server_error : exn := HttpError 500 (BodyReason "backendError").
Definition w_failing : World := with_faults [Some server_error] w_new.

(** A device of two blocks of no bytes. *)
Definition g_empty : GBD :=
  mkGBD (mkConfig "gbd" None None None None) 7%positive ∅ 0 2 0.

Definition block1 (data : bytes) : File :=
  mkFile "gbd_b1" BLOCK_MIMETYPE (Some 7%positive) false true data.

(** The data folder holds the metadata object and one object for each of
    the two blocks; the table knows the object of block 0. *)
Definition w_full : World :=
  with_mapping [Some 1%positive; None]
    (with_files {[ 1%positive := block0 [Byte.x01; Byte.x02];
                   2%positive := block1 [Byte.x03; Byte.x04];
                   8%positive := config_file Byte.x01 ]} w_new).

(** A queue of two items: a write of block 0 and a read of block 1. *)
Definition w_busy : World :=
  with_unfinished 2
    (with_que [(0, (0, Some [Byte.x05; Byte.x06], Some quiet_cb));
               (0, (1, None, Some quiet_cb))] w_full).

(** The drive has no folder for the device, and the configuration allows
    to create one. *)
Definition cfg_create : Config := mkConfig "gbd" (Some true) (Some 1) (Some 2) (Some 5).
Definition w_blank : World := mkWorld ∅ [] [] [] [] [] [] [] 0 ∅ [] 0.

(** A folder that may not be written, and a plain object with the
    folder's title. *)
Definition w_readonly : World :=
  with_files {[ 7%positive := mkFile "gbd" FOLDER_MIMETYPE None false false [] ]} w_blank.
Definition w_not_folder : World :=
  with_files {[ 7%positive := mkFile "gbd" BLOCK_MIMETYPE None false true [] ]} w_blank.
Definition w_two_folders : World :=
  with_files {[ 7%positive := folder7; 9%positive := folder7 ]} w_blank.

(** The data folder is there and holds nothing. *)
Definition w_empty_folder : World :=
  with_files {[ 7%positive := folder7 ]} w_blank.

(** Blocks of no bytes are asked for. *)
Definition cfg_zero : Config := mkConfig "gbd" None (Some 1) (Some 0) (Some 5).

(** The first remote call is refused by the rate limit, the second is
    answered with a server error. *)
Definition w_refused_then_failing : World :=
  with_faults [Some rate_limit_error; Some server_error] w_new.

(** The data folder holds two metadata objects; holds one that
    [meta_decode] cannot read. *)
Definition w_two_configs : World :=
  with_files {[ 7%positive := folder7; 8%positive := config_file Byte.x01;
                9%positive := config_file Byte.x01 ]} w_blank.
Definition bad_config_file : File :=
  mkFile "config" "application/json" (Some 7%positive) false true [Byte.x01].
Definition w_bad_config : World :=
  with_files {[ 7%positive := folder7; 8%positive := bad_config_file ]} w_blank.

(** ** Running the monad *)

Lemma run_bind {A B} (m : M A) (f : A → M B) (w : World) :
  (m ≫= f) w =
  match m w with
  | (Ret a, w') => f a w'
  | (Raise e, w') => (Raise e, w')
  end.
Proof. reflexivity. Qed.

Lemma run_bind_ret {A B} (m : M A) (f : A → M B) w a w' :
  m w = (Ret a, w') → (m ≫= f) w = f a w'.
Proof. intros H. rewrite run_bind, H. reflexivity. Qed.

Lemma valid_idx_guard self idx :
  valid_idx self idx → (block_count self <=? idx) || (idx <? 0) = false.
Proof. unfold valid_idx. lia. Qed.

Lemma invalid_idx_guard self idx :
  ¬ valid_idx self idx → (0 <=? idx) && (idx <? block_count self) = false.
Proof. unfold valid_idx. lia. Qed.

Lemma execute_ok {A} c (effect : M A) w :
  faults w = [] → Drive.execute c effect w = effect (issued c w).
Proof. intros H. unfold Drive.execute. cbn. rewrite H. reflexivity. Qed.

Lemma execute_fault {A} c (effect : M A) w e rest :
  faults w = Some e :: rest →
  Drive.execute c effect w = (Raise e, with_faults rest (issued c w)).
Proof. intros H. unfold Drive.execute. cbn. rewrite H. reflexivity. Qed.

(** A remote call fails, or runs its effect, in a world with the same
    objects and the same table. *)
Lemma execute_runs {A} c (effect : M A) w :
  (∃ e w', Drive.execute c effect w = (Raise e, w') ∧
           files w' = files w ∧ mapping w' = mapping w) ∨
  (∃ w1, Drive.execute c effect w = effect w1 ∧
         files w1 = files w ∧ mapping w1 = mapping w).
Proof.
  unfold Drive.execute. cbn [faults with_calls].
  destruct (faults w) as [|[e|] rest]; [right|left|right]; by eauto.
Qed.

Lemma mapping_get_some idx w v :
  mapping w !! Z.to_nat idx = Some v → mapping_get idx w = (Ret v, w).
Proof. intros H. unfold mapping_get. rewrite run_bind. cbn. rewrite H. reflexivity. Qed.

Lemma mapping_set_some idx v w old :
  mapping w !! Z.to_nat idx = Some old →
  mapping_set idx v w = (Ret tt, with_mapping (<[Z.to_nat idx := v]> (mapping w)) w).
Proof.
  intros H. unfold mapping_set. rewrite run_bind. cbn.
  rewrite bool_decide_eq_true_2 by (eapply lookup_lt_Some; eauto). reflexivity.
Qed.

(** *** [block_id] *)

Lemma block_id_invalid self idx w :
  ¬ valid_idx self idx → block_id self idx w = (Raise (IndexError "Can't map idx"), w).
Proof.
  intros H. unfold block_id, with_lock.
  assert ((block_count self <=? idx) || (idx <? 0) = true) as -> by (unfold valid_idx in H; lia).
  reflexivity.
Qed.

Lemma block_id_cached self idx w id :
  valid_idx self idx →
  mapping w !! Z.to_nat idx = Some (Some id) →
  block_id self idx w = (Ret (Some id), w).
Proof.
  intros Hv Hm. unfold block_id, with_lock. rewrite valid_idx_guard by done.
  rewrite (run_bind_ret _ _ _ _ _ (mapping_get_some _ _ _ Hm)).
  rewrite run_bind. cbn. apply mapping_get_some, Hm.
Qed.

Lemma block_id_lookup self idx w :
  valid_idx self idx →
  mapping w !! Z.to_nat idx = Some None →
  faults w = [] →
  let w1 := issued (CallChildrenList (data_dir self) (idx_to_name idx)) w in
  block_id self idx w =
  match Drive.children (files w) (data_dir self) (idx_to_name idx) with
  | [] => (Ret None, w1)
  | [item] => (Ret (Some item.1), with_mapping (<[Z.to_nat idx := Some item.1]> (mapping w)) w1)
  | _ => (Raise (AssertionError "len(results['items']) == 0"), w1)
  end.
Proof.
  intros Hv Hm Hf w1. unfold block_id, with_lock. rewrite valid_idx_guard by done.
  rewrite (run_bind_ret _ _ _ _ _ (mapping_get_some _ _ _ Hm)).
  rewrite run_bind.
  unfold Drive.children_list. rewrite run_bind, execute_ok by done. cbn.
  fold w1.
  destruct (Drive.children (files w) (data_dir self) (idx_to_name idx)) as [|item [|item' items]]; cbn.
  - apply (mapping_get_some idx w1 None Hm).
  - rewrite (mapping_set_some idx (Some item.1) w1 None Hm). cbn.
    unfold mapping_get. rewrite run_bind. cbn.
    rewrite list_lookup_insert_eq by (eapply lookup_lt_Some; eauto). reflexivity.
  - reflexivity.
Qed.

(** ** What an operation leaves alone *)

Section Preserves.
Context {X : Type} (π : World → X).

Lemma preserves_ret {A} (a : A) : preserves π (mret a).
Proof. intros w. reflexivity. Qed.

Lemma preserves_raise {A} e : preserves π (@raise A e).
Proof. intros w. reflexivity. Qed.

Lemma preserves_gets {A} (f : World → A) : preserves π (gets f).
Proof. intros w. reflexivity. Qed.

Lemma preserves_assert b msg : preserves π (assert b msg).
Proof. intros w. destruct b; reflexivity. Qed.

Lemma preserves_modify f : (∀ w, π (f w) = π w) → preserves π (modify f).
Proof. intros H w. apply H. Qed.

Lemma preserves_bind {A B} (m : M A) (f : A → M B) :
  preserves π m → (∀ a, preserves π (f a)) → preserves π (m ≫= f).
Proof.
  intros Hm Hf w. rewrite run_bind. specialize (Hm w).
  destruct (m w) as [[a|e] w']; cbn in *; [|done].
  rewrite <- Hm. apply Hf.
Qed.

Lemma preserves_try_except {A} (m : M A) (h : exn → M A) :
  preserves π m → (∀ e, preserves π (h e)) → preserves π (try_except m h).
Proof.
  intros Hm Hh w. unfold try_except. specialize (Hm w).
  destruct (m w) as [[a|e] w']; cbn in *; [done|].
  rewrite <- Hm. apply Hh.
Qed.

Lemma preserves_execute {A} c (effect : M A) :
  (∀ x w, π (with_calls x w) = π w) →
  (∀ x w, π (with_faults x w) = π w) →
  preserves π effect → preserves π (Drive.execute c effect).
Proof.
  intros Hc Hf He w. unfold Drive.execute. cbn.
  destruct (faults w) as [|[e|] rest]; cbn.
  - rewrite He. apply Hc.
  - rewrite Hf. apply Hc.
  - rewrite He, Hf. apply Hc.
Qed.
End Preserves.

Ltac preserves_step :=
  first
    [ apply preserves_ret | apply preserves_raise | apply preserves_gets
    | apply preserves_assert
    | apply preserves_bind
    | apply preserves_try_except
    | apply preserves_execute; [reflexivity | reflexivity | ]
    | apply preserves_modify; reflexivity
    | progress intros
    | case_match ].

Ltac preserves_tac := repeat preserves_step.

Lemma mapping_get_preserves {X} (π : World → X) idx : preserves π (mapping_get idx).
Proof. unfold mapping_get. preserves_tac. Qed.

Lemma block_id_preserves_host self idx : preserves host (block_id self idx).
Proof.
  unfold block_id, with_lock, mapping_get, mapping_set, Drive.children_list.
  preserves_tac.
Qed.

Lemma block_id_preserves_files self idx : preserves files (block_id self idx).
Proof.
  unfold block_id, with_lock, mapping_get, mapping_set, Drive.children_list.
  preserves_tac.
Qed.

Lemma new_block_preserves_host self idx data : preserves host (new_block self idx data).
Proof.
  unfold new_block, with_lock, mapping_get, mapping_set, Drive.insert.
  preserves_tac.
Qed.

Lemma read_block_preserves_host gbd idx : preserves host (GBDWorker.read_block gbd idx).
Proof.
  unfold GBDWorker.read_block. apply preserves_bind; [apply block_id_preserves_host|].
  unfold Drive.get_media. preserves_tac.
Qed.

Lemma read_block_preserves_files gbd idx : preserves files (GBDWorker.read_block gbd idx).
Proof.
  unfold GBDWorker.read_block. apply preserves_bind; [apply block_id_preserves_files|].
  unfold Drive.get_media. preserves_tac.
Qed.

Lemma write_block_preserves_host gbd idx data : preserves host (GBDWorker.write_block gbd idx data).
Proof.
  unfold GBDWorker.write_block.
  apply preserves_bind; [apply preserves_assert|intros _].
  apply preserves_bind; [apply block_id_preserves_host|intros [id|]].
  - unfold Drive.update. preserves_tac.
  - apply new_block_preserves_host.
Qed.

Lemma block_op_preserves_host gbd idx data : preserves host (GBDWorker.block_op gbd idx data).
Proof.
  destruct data; [apply write_block_preserves_host | apply read_block_preserves_host].
Qed.

(** ** The retry loop of [do_request] *)

Lemma randint_range a b w :
  a ≤ b → ∃ r, randint a b w = (Ret r, with_entropy (tl (entropy w)) w) ∧ a ≤ r ≤ b.
Proof.
  intros Hab. eexists. split; [reflexivity|].
  pose proof (Z.mod_pos_bound (hd 0 (entropy w)) (b - a + 1)). lia.
Qed.

Lemma backoff_small rnd r : 0 ≤ r ≤ 999 → GBDWorker.backoff rnd r = 2 ^ rnd.
Proof.
  intros Hr. unfold GBDWorker.backoff. rewrite Z.div_small by lia. lia.
Qed.

Lemma round_refused gbd idx data rnd rest w e w1 :
  GBDWorker.block_op gbd idx data w = (Raise e, w1) →
  rate_limited e →
  GBDWorker.do_request_rounds (rnd :: rest) gbd idx data w =
  GBDWorker.do_request_rounds rest gbd idx data (backed_off rnd w1).
Proof.
  intros Hop (reason & -> & Hin). cbn [GBDWorker.do_request_rounds].
  unfold try_except. rewrite Hop. cbn [Z.eqb Pos.eqb].
  rewrite run_bind. cbn [GBDWorker.error_reason mret M_ret].
  rewrite bool_decide_eq_true_2 by done.
  rewrite run_bind.
  destruct (randint_range 0 999 w1) as (r & -> & Hr); [lia|].
  rewrite run_bind. unfold sleep, modify. rewrite backoff_small by done.
  reflexivity.
Qed.

Lemma rounds_refused gbd idx data rnds rest w w' :
  refused gbd idx data rnds w w' →
  GBDWorker.do_request_rounds (rnds ++ rest) gbd idx data w =
  GBDWorker.do_request_rounds rest gbd idx data w'.
Proof.
  induction 1 as [|rnd rnds w e w1 w' Hop He _ IH]; [reflexivity|].
  rewrite <- IH. cbn [app]. eapply round_refused; eauto.
Qed.

Lemma round_returns gbd idx data rnd rest w v w1 :
  GBDWorker.block_op gbd idx data w = (Ret v, w1) →
  GBDWorker.do_request_rounds (rnd :: rest) gbd idx data w = (Ret v, w1).
Proof. intros Hop. cbn. unfold try_except. rewrite Hop. reflexivity. Qed.

Lemma round_raises gbd idx data rnd rest w e w1 :
  GBDWorker.block_op gbd idx data w = (Raise e, w1) →
  passed_on e →
  GBDWorker.do_request_rounds (rnd :: rest) gbd idx data w = (Raise e, w1).
Proof.
  intros Hop He. cbn [GBDWorker.do_request_rounds]. unfold try_except. rewrite Hop.
  destruct e as [status body| | | | | | | | |]; try reflexivity.
  destruct He as [Hs|(reason & -> & Hr)].
  - rewrite (proj2 (Z.eqb_neq _ _) Hs). reflexivity.
  - destruct (status =? 403); [|reflexivity].
    rewrite run_bind. cbn [GBDWorker.error_reason mret M_ret].
    rewrite bool_decide_eq_false_2 by done. reflexivity.
Qed.

(** A 403 whose body does not have the expected shape is replaced by the
    exception of the lookup in the body. *)
Lemma round_malformed gbd idx data rnd rest w k w1 :
  GBDWorker.block_op gbd idx data w = (Raise (HttpError 403 (BodyMalformed k)), w1) →
  ∃ e', GBDWorker.do_request_rounds (rnd :: rest) gbd idx data w = (Raise e', w1) ∧
        e' ≠ HttpError 403 (BodyMalformed k).
Proof.
  intros Hop. cbn [GBDWorker.do_request_rounds]. unfold try_except. rewrite Hop.
  destruct k; eexists; (split; [reflexivity|discriminate]).
Qed.

Lemma refused_host gbd idx data rnds w w' :
  refused gbd idx data rnds w w' →
  sleeps w' = sleeps w ++ ((λ rnd, 2 ^ rnd) <$> rnds) ∧
  que w' = que w ∧ unfinished w' = unfinished w ∧ bridges w' = bridges w ∧
  delivered w' = delivered w ∧ workers w' = workers w ∧ stdin w' = stdin w.
Proof.
  induction 1 as [w|rnd rnds w e w1 w' Hop He _ IH].
  - rewrite app_nil_r. done.
  - pose proof (block_op_preserves_host gbd idx data w) as Hh.
    rewrite Hop in Hh. unfold host in Hh. cbn in Hh.
    injection Hh as Hs Hen Hst Hq Hu Hb Hd Hw.
    destruct IH as (-> & -> & -> & -> & -> & -> & ->). cbn.
    rewrite <- app_assoc. cbn. repeat split; congruence.
Qed.

Lemma do_request_preserves {X} (π : World → X) gbd idx data :
  (∀ x w, π (with_entropy x w) = π w) →
  (∀ x w, π (with_sleeps x w) = π w) →
  preserves π (GBDWorker.block_op gbd idx data) →
  preserves π (GBDWorker.do_request gbd idx data).
Proof.
  intros He Hs Hop. unfold GBDWorker.do_request.
  induction GBDWorker.xrange5 as [|rnd rnds IH]; cbn [GBDWorker.do_request_rounds].
  - apply preserves_ret.
  - apply preserves_try_except; [done|]. intros e.
    destruct e as [status body| | | | | | | | |]; try apply preserves_raise.
    case_match; [|apply preserves_raise].
    apply preserves_bind; [destruct body as [|[]]; preserves_tac|]. intros reason.
    case_match; [|apply preserves_raise].
    apply preserves_bind; [intros w; apply He|]. intros r.
    apply preserves_bind; [intros w; apply Hs|]. intros _. apply IH.
Qed.

(** A read, with all its retries, leaves the objects of the drive as they
    are, whatever the drive answers. *)
Lemma do_request_read_preserves_files gbd idx :
  preserves files (GBDWorker.do_request gbd idx None).
Proof. apply do_request_preserves; try done. apply read_block_preserves_files. Qed.

(** *** The body of the worker's loop *)

(** Whatever [do_request] and the callback do, the turn ends normally and
    the sink has been called once, with the outcome of [do_request]. *)
Lemma run_item_delivers gbd idx data cb w r w' :
  GBDWorker.do_request gbd idx data w = (r, w') →
  ∃ w'', GBDWorker.run_item gbd (idx, data, Some cb) w = (Ret tt, w'') ∧
         delivered w'' = delivered w' ++ [(sink_name cb, err_of r, ret_of r)] ∧
         unfinished w'' = Nat.pred (unfinished w').
Proof.
  intros Hreq. unfold GBDWorker.run_item. rewrite run_bind.
  unfold try_except at 1. rewrite run_bind, Hreq.
  assert (∀ err ret w0, ∃ w'',
    try_finally
      (try_except (GBDWorker.call_sink cb err ret) (λ _ : exn, mret tt))
      TimedPriorityQueue.task_done w0 = (Ret tt, w'') ∧
    delivered w'' = delivered w0 ++ [(sink_name cb, err, ret)] ∧
    unfinished w'' = Nat.pred (unfinished w0)) as Hsink.
  { intros err ret w0. unfold try_finally, try_except, GBDWorker.call_sink.
    rewrite run_bind. cbn.
    destruct cb as [name behaviour|k]; cbn.
    - destruct (behaviour err ret); cbn; eexists; (split; [reflexivity|done]).
    - eexists; (split; [reflexivity|done]). }
  destruct r as [v|e]; cbn; apply Hsink.
Qed.

(** ** The drive when no call fails *)

Lemma elem_of_children fs folder t id f :
  (id, f) ∈ Drive.children fs folder t ↔
  fs !! id = Some f ∧ parent f = Some folder ∧ title f = t.
Proof.
  unfold Drive.children. rewrite list_elem_of_In, filter_In, <- list_elem_of_In.
  rewrite elem_of_map_to_list. unfold Drive.child_of, Drive.titled. cbn.
  rewrite andb_true_iff, !bool_decide_eq_true. tauto.
Qed.

Lemma children_list_ok folder t w :
  faults w = [] →
  Drive.children_list folder t w =
  (Ret (Drive.children (files w) folder t), issued (CallChildrenList folder t) w).
Proof. intros Hf. unfold Drive.children_list. rewrite execute_ok by done. reflexivity. Qed.

Lemma get_media_ok id w f :
  faults w = [] → files w !! id = Some f →
  Drive.get_media id w = (Ret (content f), issued (CallGetMedia id) w).
Proof.
  intros Hf Hid. unfold Drive.get_media. rewrite execute_ok by done.
  rewrite run_bind. cbn. rewrite Hid. reflexivity.
Qed.

Lemma update_ok id data w f :
  faults w = [] → files w !! id = Some f →
  Drive.update id data w =
  (Ret (PFile id (set_content data f)),
   with_files (<[id := set_content data f]> (files w)) (issued (CallUpdate id) w)).
Proof.
  intros Hf Hid. unfold Drive.update. rewrite execute_ok by done.
  rewrite run_bind. cbn. rewrite Hid. reflexivity.
Qed.

Lemma insert_ok f w :
  faults w = [] →
  Drive.insert f w =
  (Ret (fresh (dom (files w)), f),
   with_files (<[fresh (dom (files w)) := f]> (files w)) (issued (CallInsert (title f)) w)).
Proof. intros Hf. unfold Drive.insert. rewrite execute_ok by done. reflexivity. Qed.

Lemma len_eqb_refl {A} (l : list A) n : len l = n → (len l =? n) = true.
Proof. intros ->. apply Z.eqb_refl. Qed.

(** ** The handle and the drive agree *)

Lemma consistent_slot gbd w idx :
  consistent gbd w → valid_idx gbd idx → ∃ v, mapping w !! Z.to_nat idx = Some v.
Proof.
  intros [Hlen _] Hv. apply lookup_lt_is_Some_2. unfold valid_idx in Hv. lia.
Qed.

Lemma consistent_unwritten gbd w idx :
  consistent gbd w → valid_idx gbd idx →
  Drive.children (files w) (data_dir gbd) (idx_to_name idx) = [] →
  mapping w !! Z.to_nat idx = Some None.
Proof.
  intros Hc Hv Hnone. destruct (consistent_slot gbd w idx Hc Hv) as [[id|] Hs]; [|done].
  destruct Hc as [_ Hc]. destruct (Hc idx id) as [f Hf]; [apply Hv|done|].
  rewrite Hnone in Hf. by apply elem_of_nil in Hf.
Qed.

(** *** Reading *)

Lemma worker_read_unmapped gbd idx w :
  valid_idx gbd idx →
  mapping w !! Z.to_nat idx = Some None →
  faults w = [] →
  Drive.children (files w) (data_dir gbd) (idx_to_name idx) = [] →
  GBDWorker.read_block gbd idx w =
  (Ret (PStr (zeros (block_size gbd))),
   issued (CallChildrenList (data_dir gbd) (idx_to_name idx)) w).
Proof.
  intros Hv Hm Hf Hnone. unfold GBDWorker.read_block.
  rewrite run_bind, block_id_lookup, Hnone by done. reflexivity.
Qed.

Lemma worker_read_cached gbd idx w id f :
  valid_idx gbd idx →
  mapping w !! Z.to_nat idx = Some (Some id) →
  faults w = [] →
  files w !! id = Some f →
  len (content f) = block_size gbd →
  GBDWorker.read_block gbd idx w = (Ret (PStr (content f)), issued (CallGetMedia id) w).
Proof.
  intros Hv Hm Hf Hid Hlen. unfold GBDWorker.read_block.
  rewrite run_bind, (block_id_cached _ _ _ id) by done.
  rewrite run_bind, (get_media_ok id w f) by done.
  rewrite run_bind, len_eqb_refl by done. reflexivity.
Qed.

(** *** Writing *)

Lemma worker_write_cached gbd idx data w id f :
  valid_idx gbd idx →
  len data = block_size gbd →
  mapping w !! Z.to_nat idx = Some (Some id) →
  faults w = [] →
  files w !! id = Some f →
  GBDWorker.write_block gbd idx data w =
  (Ret (PFile id (set_content data f)),
   with_files (<[id := set_content data f]> (files w)) (issued (CallUpdate id) w)).
Proof.
  intros Hv Hlen Hm Hf Hid. unfold GBDWorker.write_block.
  rewrite run_bind, len_eqb_refl by done. cbn [assert mret M_ret].
  rewrite run_bind, (block_id_cached _ _ _ id) by done.
  by apply update_ok.
Qed.

Lemma worker_write_found gbd idx data w id f :
  valid_idx gbd idx →
  len data = block_size gbd →
  mapping w !! Z.to_nat idx = Some None →
  faults w = [] →
  Drive.children (files w) (data_dir gbd) (idx_to_name idx) = [(id, f)] →
  GBDWorker.write_block gbd idx data w =
  (Ret (PFile id (set_content data f)),
   with_files (<[id := set_content data f]> (files w))
     (issued (CallUpdate id)
        (with_mapping (<[Z.to_nat idx := Some id]> (mapping w))
           (issued (CallChildrenList (data_dir gbd) (idx_to_name idx)) w)))).
Proof.
  intros Hv Hlen Hm Hf Hone. unfold GBDWorker.write_block.
  rewrite run_bind, len_eqb_refl by done. cbn [assert mret M_ret].
  rewrite run_bind, block_id_lookup, Hone by done. cbn [fst].
  rewrite (update_ok id data _ f); [reflexivity|done|]. cbn.
  eapply (elem_of_children _ (data_dir gbd) (idx_to_name idx)).
  rewrite Hone. apply list_elem_of_here.
Qed.

Lemma worker_write_unmapped gbd idx data w :
  valid_idx gbd idx →
  len data = block_size gbd →
  mapping w !! Z.to_nat idx = Some None →
  faults w = [] →
  Drive.children (files w) (data_dir gbd) (idx_to_name idx) = [] →
  let id := fresh (dom (files w)) in
  let f := mkFile (idx_to_name idx) BLOCK_MIMETYPE (Some (data_dir gbd)) false true data in
  GBDWorker.write_block gbd idx data w =
  (Ret (PFile id f),
   with_mapping (<[Z.to_nat idx := Some id]> (mapping w))
     (with_files (<[id := f]> (files w))
        (issued (CallInsert (idx_to_name idx))
           (issued (CallChildrenList (data_dir gbd) (idx_to_name idx)) w)))).
Proof.
  intros Hv Hlen Hm Hf Hnone id f. unfold GBDWorker.write_block.
  rewrite run_bind, len_eqb_refl by done. cbn [assert mret M_ret].
  rewrite run_bind, block_id_lookup, Hnone by done.
  unfold new_block, with_lock. rewrite valid_idx_guard by done.
  rewrite run_bind, (mapping_get_some idx _ None) by done.
  rewrite run_bind, run_bind, len_eqb_refl by done. cbn [assert mret M_ret].
  rewrite run_bind, insert_ok by done.
  rewrite run_bind. cbn [fst snd].
  erewrite mapping_set_some by (cbn; exact Hm). reflexivity.
Qed.

(** An error that the [except] clause passes on, in whatever round it
    comes, reaches the sink as it is. *)
Lemma passed_on_error_is_delivered gbd idx data cb before rnd after w w1 e w2 :
  before ++ rnd :: after = GBDWorker.xrange5 →
  refused gbd idx data before w w1 →
  GBDWorker.block_op gbd idx data w1 = (Raise e, w2) →
  passed_on e →
  GBDWorker.do_request gbd idx data w = (Raise e, w2) ∧
  ∃ w', GBDWorker.run_item gbd (idx, data, Some cb) w = (Ret tt, w') ∧
        delivered w' = delivered w2 ++ [(sink_name cb, Some e, PNone)].
Proof.
  intros Hrounds Href Hop He.
  assert (GBDWorker.do_request gbd idx data w = (Raise e, w2)) as Hreq.
  { unfold GBDWorker.do_request. rewrite <- Hrounds.
    rewrite (rounds_refused _ _ _ _ _ _ _ Href). by apply round_raises. }
  split; [exact Hreq|].
  destruct (run_item_delivers gbd idx data cb w _ _ Hreq) as (w' & Hrun & Hd & _).
  by exists w'.
Qed.

(** ** The retry loop: claims C1, C2 and C8 *)

Lemma rate_limit_error_is_rate_limited : rate_limited rate_limit_error.
Proof. eexists. split; [reflexivity|]. apply list_elem_of_here. Qed.

Ltac refused_tac :=
  repeat first
    [ apply refused_nil
    | eapply refused_cons;
        [ vm_compute; reflexivity | apply rate_limit_error_is_rate_limited | ] ].

(** C1, as the code behaves: when the attempts of all five rounds are
    refused by the rate limit, [do_request] falls out of its loop and
    returns [None], and the worker calls the item's sink with
    [(None, None)], the outcome of a success; the last rate-limit error
    reaches nobody. *)
Theorem exhausted_retries_deliver_none gbd idx data cb w w' :
  refused gbd idx data GBDWorker.xrange5 w w' →
  GBDWorker.do_request gbd idx data w = (Ret PNone, w') ∧
  ∃ w'', GBDWorker.run_item gbd (idx, data, Some cb) w = (Ret tt, w'') ∧
         delivered w'' = delivered w ++ [(sink_name cb, None, PNone)].
Proof.
  intros Href.
  assert (GBDWorker.do_request gbd idx data w = (Ret PNone, w')) as Hreq.
  { unfold GBDWorker.do_request.
    rewrite <- (app_nil_r GBDWorker.xrange5).
    rewrite (rounds_refused _ _ _ _ _ _ _ Href). reflexivity. }
  split; [exact Hreq|].
  destruct (run_item_delivers gbd idx data cb w _ _ Hreq) as (w'' & Hrun & Hd & _).
  exists w''. split; [exact Hrun|].
  rewrite Hd. cbn. f_equal. apply (refused_host _ _ _ _ _ _ Href).
Qed.

Lemma exhausted_retries_deliver_none_witness :
  ∃ w', refused g0 0 None GBDWorker.xrange5 w_refused5 w' ∧
        GBDWorker.do_request g0 0 None w_refused5 = (Ret PNone, w') ∧
        ∃ w'', GBDWorker.run_item g0 (0, None, Some quiet_cb) w_refused5 = (Ret tt, w'') ∧
               delivered w'' = delivered w_refused5 ++ [(ToUser 0, None, PNone)].
Proof.
  eexists. split; [refused_tac|].
  apply (exhausted_retries_deliver_none g0 0 None quiet_cb w_refused5).
  refused_tac.
Defined.

(** C2: when the attempts of the first four rounds are refused by the rate
    limit and the fifth attempt returns [v], [do_request] returns [v] in the
    world that the fifth attempt leaves (nothing runs after it), the worker
    has slept four times, once between two attempts, and the sink gets
    [(None, v)]: no error is delivered. *)
Theorem fifth_attempt_succeeds gbd idx data cb w w4 v w5 :
  refused gbd idx data [0; 1; 2; 3] w w4 →
  GBDWorker.block_op gbd idx data w4 = (Ret v, w5) →
  GBDWorker.do_request gbd idx data w = (Ret v, w5) ∧
  sleeps w5 = sleeps w ++ [1; 2; 4; 8] ∧
  ∃ w', GBDWorker.run_item gbd (idx, data, Some cb) w = (Ret tt, w') ∧
        delivered w' = delivered w ++ [(sink_name cb, None, v)].
Proof.
  intros Href Hop.
  assert (GBDWorker.do_request gbd idx data w = (Ret v, w5)) as Hreq.
  { unfold GBDWorker.do_request.
    change GBDWorker.xrange5 with ([0; 1; 2; 3] ++ [4]).
    rewrite (rounds_refused _ _ _ _ _ _ _ Href).
    by apply round_returns. }
  pose proof (block_op_preserves_host gbd idx data w4) as Hh.
  rewrite Hop in Hh. unfold host in Hh. cbn in Hh.
  injection Hh as Hs _ _ _ _ _ Hd _.
  destruct (refused_host _ _ _ _ _ _ Href) as (Hs4 & _ & _ & _ & Hd4 & _).
  split; [exact Hreq|]. split; [by rewrite Hs, Hs4|].
  destruct (run_item_delivers gbd idx data cb w _ _ Hreq) as (w' & Hrun & Hd' & _).
  exists w'. split; [exact Hrun|]. rewrite Hd', Hd, Hd4. reflexivity.
Qed.

Lemma fifth_attempt_succeeds_witness :
  ∃ w4 w5,
    refused g0 0 None [0; 1; 2; 3] w_refused4 w4 ∧
    GBDWorker.block_op g0 0 None w4 = (Ret (PStr [Byte.x00; Byte.x00]), w5) ∧
    GBDWorker.do_request g0 0 None w_refused4 = (Ret (PStr [Byte.x00; Byte.x00]), w5) ∧
    sleeps w5 = sleeps w_refused4 ++ [1; 2; 4; 8] ∧
    ∃ w', GBDWorker.run_item g0 (0, None, Some quiet_cb) w_refused4 = (Ret tt, w') ∧
          delivered w' = delivered w_refused4 ++ [(ToUser 0, None, PStr [Byte.x00; Byte.x00])].
Proof.
  do 2 eexists. split; [refused_tac|]. split; [vm_compute; reflexivity|].
  eapply (fifth_attempt_succeeds g0 0 None quiet_cb w_refused4).
  - refused_tac.
  - vm_compute; reflexivity.
Defined.

(** C8, as the code behaves: whatever number the random source gives,
    [random.randint(0, 999) / 1000] is an integer division and gives 0, so
    the sleep after a refusal in round [rnd] is exactly [2 ** rnd]: the
    delay has no random part. *)
Theorem backoff_has_no_jitter rnd w :
  ∃ r, randint 0 999 w = (Ret r, with_entropy (tl (entropy w)) w) ∧
       0 ≤ r ≤ 999 ∧
       r `div` 1000 = 0 ∧
       GBDWorker.backoff rnd r = 2 ^ rnd.
Proof.
  destruct (randint_range 0 999 w) as (r & Hr & Hrange); [lia|].
  exists r. split; [exact Hr|]. split; [exact Hrange|].
  split; [apply Z.div_small; lia|by apply backoff_small].
Qed.

(** ** Rejected calls: claim C7 *)

(** C7: [read_block] and [write_block] with an index outside
    [0, block_count), and [write_block] with data whose length is not
    [block_size], raise [AssertionError] and leave the world as it was: no
    remote call has been issued and nothing has been put in the queue. *)
Theorem invalid_calls_are_rejected self idx data cb pri w :
  (¬ valid_idx self idx →
     (∃ msg, read_block self idx cb pri w = (Raise (AssertionError msg), w)) ∧
     (∃ msg, write_block self idx data cb pri w = (Raise (AssertionError msg), w))) ∧
  (len data ≠ block_size self →
     ∃ msg, write_block self idx data cb pri w = (Raise (AssertionError msg), w)).
Proof.
  split.
  - intros Hidx. unfold read_block, write_block.
    rewrite !run_bind, invalid_idx_guard by done. cbn. eauto.
  - intros Hlen. unfold write_block. rewrite run_bind.
    destruct ((0 <=? idx) && (idx <? block_count self)); cbn; [|eauto].
    rewrite run_bind.
    rewrite (proj2 (Z.eqb_neq _ _) Hlen), andb_false_r. cbn. eauto.
Qed.

Lemma invalid_calls_are_rejected_witness :
  (¬ valid_idx g0 2 ∧
   (∃ msg, read_block g0 2 None 0 w_new = (Raise (AssertionError msg), w_new)) ∧
   (∃ msg, write_block g0 2 [Byte.x01; Byte.x02] None 0 w_new =
             (Raise (AssertionError msg), w_new))) ∧
  (len [Byte.x01] ≠ block_size g0 ∧
   ∃ msg, write_block g0 0 [Byte.x01] None 0 w_new = (Raise (AssertionError msg), w_new)).
Proof.
  assert (¬ valid_idx g0 2) as Hidx by (unfold valid_idx; cbn; lia).
  assert (len [Byte.x01] ≠ block_size g0) as Hlen by discriminate.
  split.
  - split; [exact Hidx|].
    exact (proj1 (invalid_calls_are_rejected g0 2 [Byte.x01; Byte.x02] None 0 w_new) Hidx).
  - split; [exact Hlen|].
    exact (proj2 (invalid_calls_are_rejected g0 0 [Byte.x01] None 0 w_new) Hlen).
Defined.

(** ** Resolving a block: claim C5 *)

(** C5: a lookup of a valid block whose slot is not cached, when the call
    to the drive does not fail: one object under the block's name gives its
    id (and caches it), none gives [None], more than one raises
    [AssertionError], the code's error for an ambiguous state, and leaves
    the table as it was. *)
Theorem block_id_classifies gbd idx w :
  valid_idx gbd idx →
  mapping w !! Z.to_nat idx = Some None →
  faults w = [] →
  let items := Drive.children (files w) (data_dir gbd) (idx_to_name idx) in
  let w1 := issued (CallChildrenList (data_dir gbd) (idx_to_name idx)) w in
  (∀ id f, items = [(id, f)] →
     block_id gbd idx w =
     (Ret (Some id), with_mapping (<[Z.to_nat idx := Some id]> (mapping w)) w1)) ∧
  (items = [] → block_id gbd idx w = (Ret None, w1)) ∧
  ((1 < length items)%nat →
     ∃ msg, block_id gbd idx w = (Raise (AssertionError msg), w1) ∧
            mapping w1 = mapping w).
Proof.
  intros Hv Hm Hf items w1.
  pose proof (block_id_lookup gbd idx w Hv Hm Hf) as Hb. cbn zeta in Hb.
  fold items w1 in Hb. repeat split.
  - intros id f Hi. rewrite Hb, Hi. reflexivity.
  - intros Hi. rewrite Hb, Hi. reflexivity.
  - intros Hi. rewrite Hb. destruct items as [|? [|? ?]]; cbn in Hi; [lia|lia|].
    eexists. split; reflexivity.
Qed.

Lemma block_id_classifies_witness :
  block_id g0 0 w_found =
    (Ret (Some 1%positive),
     with_mapping [Some 1%positive; None] (issued (CallChildrenList 7 "gbd_b0") w_found)) ∧
  block_id g0 0 w_new = (Ret None, issued (CallChildrenList 7 "gbd_b0") w_new) ∧
  ∃ msg, block_id g0 0 w_twice =
           (Raise (AssertionError msg), issued (CallChildrenList 7 "gbd_b0") w_twice) ∧
         mapping (issued (CallChildrenList 7 "gbd_b0") w_twice) = [None; None].
Proof.
  assert (valid_idx g0 0) as Hv by (unfold valid_idx; cbn; lia).
  split; [|split].
  - apply (proj1 (block_id_classifies g0 0 w_found Hv eq_refl eq_refl) 1%positive
             (block0 [Byte.x01; Byte.x02])).
    vm_compute. reflexivity.
  - apply (proj1 (proj2 (block_id_classifies g0 0 w_new Hv eq_refl eq_refl))).
    vm_compute. reflexivity.
  - apply (proj2 (proj2 (block_id_classifies g0 0 w_twice Hv eq_refl eq_refl))).
    vm_compute. lia.
Defined.


(** ** The synchronous bridge *)

Lemma block_op_preserves {X} (π : World → X) gbd idx data :
  (∀ x w, π (with_calls x w) = π w) →
  (∀ x w, π (with_faults x w) = π w) →
  (∀ x w, π (with_mapping x w) = π w) →
  (∀ x w, π (with_files x w) = π w) →
  preserves π (GBDWorker.block_op gbd idx data).
Proof.
  intros Hc Hf Hm Hfs.
  assert (∀ A c (m : M A), preserves π m → preserves π (Drive.execute c m)) as Hex
    by (intros; by apply preserves_execute).
  assert (∀ i, preserves π (mapping_get i)) as Hget by (intros; apply mapping_get_preserves).
  assert (∀ i v, preserves π (mapping_set i v)) as Hset.
  { intros. unfold mapping_set. apply preserves_bind; [apply preserves_gets|].
    intros m. case_match; [|apply preserves_raise]. intros w. apply Hm. }
  assert (∀ f, preserves π (modify (λ w, with_files (f w) w))) as Hmod
    by (intros f w; apply Hfs).
  assert (preserves π (block_id gbd idx)) as Hbid.
  { unfold block_id, with_lock, Drive.children_list.
    repeat first [apply Hget | apply Hset | apply Hex | preserves_step]. }
  destruct data as [data|]; cbn [GBDWorker.block_op].
  - unfold GBDWorker.write_block, new_block, with_lock, Drive.update, Drive.insert.
    repeat first [apply Hbid | apply Hget | apply Hset | apply Hex | apply Hmod | preserves_step].
  - unfold GBDWorker.read_block, Drive.get_media.
    repeat first [apply Hbid | apply Hget | apply Hset | apply Hex | preserves_step].
Qed.

Lemma do_request_preserves_host gbd idx data :
  preserves (λ w, (que w, unfinished w, bridges w, delivered w, workers w, stdin w))
    (GBDWorker.do_request gbd idx data).
Proof. apply do_request_preserves; try done. by apply block_op_preserves. Qed.

Lemma sem_acquire_ready fuel self k w r n :
  bridges w !! k = Some (mkBridge r (S n)) →
  sem_acquire fuel self k w =
  (Ret tt, with_bridges (<[k := mkBridge r n]> (bridges w)) w).
Proof.
  intros Hk. destruct fuel; cbn [sem_acquire]; rewrite run_bind; cbn [gets];
    rewrite Hk; reflexivity.
Qed.

Lemma sem_acquire_wait fuel self k w r :
  bridges w !! k = Some (mkBridge r 0) →
  sem_acquire (S fuel) self k w =
  (GBDWorker.run_turn self ;; sem_acquire fuel self k) w.
Proof.
  intros Hk. cbn [sem_acquire]. rewrite run_bind. cbn [gets]. rewrite Hk. reflexivity.
Qed.

Lemma run_turn_takes self w p it rest :
  que w = (p, it) :: rest →
  GBDWorker.run_turn self w = GBDWorker.run_item self it (with_que rest w).
Proof.
  intros Hq. unfold GBDWorker.run_turn. rewrite run_bind.
  unfold TimedPriorityQueue.get. rewrite Hq. reflexivity.
Qed.

Lemma run_item_bridge self idx data k w r w1 :
  GBDWorker.do_request self idx data w = (r, w1) →
  GBDWorker.run_item self (idx, data, Some (BridgeCb k)) w =
  (Ret tt,
   with_unfinished (Nat.pred (unfinished w1))
     (with_bridges
        (alter (λ b, mkBridge (ret_list b ++ [(err_of r, ret_of r)]) (S (sem b))) k
           (bridges w1))
        (with_delivered (delivered w1 ++ [(ToBridge k, err_of r, ret_of r)]) w1))).
Proof.
  intros Hreq. unfold GBDWorker.run_item. rewrite run_bind.
  unfold try_except at 1. rewrite run_bind, Hreq.
  destruct r as [v|e]; reflexivity.
Qed.

Lemma ret_pop_one k w x s :
  bridges w !! k = Some (mkBridge [x] s) →
  ret_pop k w = (Ret x, with_bridges (<[k := mkBridge [] s]> (bridges w)) w).
Proof.
  intros Hk. unfold ret_pop. rewrite run_bind. cbn [gets]. rewrite Hk. reflexivity.
Qed.

(** [sync_io] on a handle with an empty queue: the worker takes the item,
    runs [do_request] in [w0], the world with the item taken, and the
    caller gets the outcome of [do_request]: its value, or its error
    raised again.  Drive, table and sleeps are as [do_request] left them. *)
Lemma sync_io_alone self idx data pri w r w1 :
  que w = [] →
  let k := fresh (dom (bridges w)) in
  let w0 := with_que [] (with_unfinished (S (unfinished w))
              (with_bridges (<[k := mkBridge [] 0]> (bridges w)) w)) in
  GBDWorker.do_request self idx data w0 = (r, w1) →
  ∃ w', sync_io self idx data pri w = (r, w') ∧
        files w' = files w1 ∧ faults w' = faults w1 ∧ calls w' = calls w1 ∧
        mapping w' = mapping w1 ∧ sleeps w' = sleeps w1 ∧
        que w' = [] ∧ unfinished w' = unfinished w ∧
        delivered w' = delivered w ++ [(ToBridge k, err_of r, ret_of r)].
Proof.
  intros Hq k w0 Hreq.
  pose proof (do_request_preserves_host self idx data w0) as Hh.
  rewrite Hreq in Hh. cbn in Hh. injection Hh as Hq1 Hu1 Hb1 Hd1 _ _.
  unfold sync_io. rewrite run_bind. cbn [gets]. fold k.
  rewrite run_bind. cbn [modify].
  rewrite run_bind. unfold TimedPriorityQueue.put. cbn [modify].
  rewrite run_bind. cbn [gets que with_unfinished with_que with_bridges].
  rewrite Hq. cbn [TimedPriorityQueue.enqueue length].
  rewrite run_bind.
  erewrite sem_acquire_wait by (cbn; apply lookup_insert_eq).
  rewrite run_bind.
  erewrite run_turn_takes by (cbn; reflexivity).
  erewrite run_item_bridge by (exact Hreq).
  erewrite sem_acquire_ready
    by (cbn; rewrite lookup_alter_eq, Hb1, lookup_insert_eq; reflexivity).
  rewrite run_bind.
  erewrite ret_pop_one by (cbn; rewrite lookup_insert_eq; reflexivity).
  eexists. split.
  - destruct r as [v|e]; reflexivity.
  - cbn. rewrite Hd1, Hu1. done.
Qed.

(** ** Reading a block that was never written: claim C3 *)

Lemma zeros_spec n :
  (0 ≤ n → len (zeros n) = n) ∧ (∀ b, b ∈ zeros n → b = Byte.x00).
Proof.
  split.
  - intros Hn. unfold len, zeros. rewrite length_replicate. lia.
  - intros b Hb. unfold zeros in Hb. by apply elem_of_replicate in Hb as [-> _].
Qed.

Lemma do_request_read_unwritten gbd idx w :
  valid_idx gbd idx →
  consistent gbd w →
  faults w = [] →
  Drive.children (files w) (data_dir gbd) (idx_to_name idx) = [] →
  GBDWorker.do_request gbd idx None w =
  (Ret (PStr (zeros (block_size gbd))),
   issued (CallChildrenList (data_dir gbd) (idx_to_name idx)) w).
Proof.
  intros Hv Hc Hf Hnone.
  pose proof (consistent_unwritten gbd w idx Hc Hv Hnone) as Hm.
  apply round_returns. cbn [GBDWorker.block_op]. by apply worker_read_unmapped.
Qed.

Lemma read_block_passes self idx pri w :
  valid_idx self idx →
  read_block self idx None pri w = sync_io self idx None pri w.
Proof.
  intros Hv. unfold read_block. rewrite run_bind.
  assert ((0 <=? idx) && (idx <? block_count self) = true) as ->
    by (unfold valid_idx in Hv; lia).
  reflexivity.
Qed.

Lemma write_block_passes self idx data pri w :
  valid_idx self idx → len data = block_size self → data ≠ [] →
  write_block self idx data None pri w = sync_io self idx (Some data) pri w.
Proof.
  intros Hv Hlen Hne. unfold write_block. rewrite run_bind.
  assert ((0 <=? idx) && (idx <? block_count self) = true) as ->
    by (unfold valid_idx in Hv; lia).
  cbn [assert mret M_ret]. rewrite run_bind.
  assert (negb (len data =? 0) && (len data =? block_size self) = true) as ->.
  { rewrite Hlen, Z.eqb_refl, andb_true_r. rewrite <- Hlen.
    destruct data; [done|]. unfold len. cbn [length]. apply negb_true_iff, Z.eqb_neq. lia. }
  reflexivity.
Qed.

(** C3: a read of a valid block under whose name the data folder has no
    object, on a handle that agrees with the drive and with no failing
    call, returns [block_size] zero bytes; the objects of the drive are the
    same after it, and the one remote call it issued is the lookup by name.
    This holds for the worker's [do_request] and, when no other work is
    queued, for the blocking [read_block] of the device.  Moreover no read
    of any block, in any world and whatever the drive answers, changes the
    objects of the drive. *)
Theorem read_of_unwritten_block gbd idx w :
  valid_idx gbd idx →
  consistent gbd w →
  faults w = [] →
  Drive.children (files w) (data_dir gbd) (idx_to_name idx) = [] →
  let nothing := PStr (zeros (block_size gbd)) in
  let lookup := CallChildrenList (data_dir gbd) (idx_to_name idx) in
  (0 ≤ block_size gbd → len (zeros (block_size gbd)) = block_size gbd) ∧
  (∀ b, b ∈ zeros (block_size gbd) → b = Byte.x00) ∧
  (∃ w', GBDWorker.do_request gbd idx None w = (Ret nothing, w') ∧
         files w' = files w ∧ calls w' = calls w ++ [lookup]) ∧
  (∀ pri, que w = [] →
     ∃ w', read_block gbd idx None pri w = (Ret nothing, w') ∧
           files w' = files w ∧ calls w' = calls w ++ [lookup]) ∧
  (∀ idx' w0, files (GBDWorker.do_request gbd idx' None w0).2 = files w0).
Proof.
  intros Hv Hc Hf Hnone nothing lookup.
  split; [apply zeros_spec|]. split; [apply zeros_spec|]. split; [|split].
  - eexists. split; [by apply do_request_read_unwritten|]. done.
  - intros pri Hq. rewrite read_block_passes by done.
    edestruct (sync_io_alone gbd idx None pri w) as (w' & Hs & Hfs & _ & Hcs & _);
      [done|by apply do_request_read_unwritten|].
    exists w'. split; [exact Hs|]. rewrite Hfs, Hcs. done.
  - intros idx' w0. apply do_request_read_preserves_files.
Qed.

Lemma consistent_w_new : consistent g0 w_new.
Proof.
  split; [reflexivity|]. intros idx id Hidx Hm. cbn in Hm.
  destruct (Z.to_nat idx) as [|[|n]]; discriminate.
Qed.

Lemma read_of_unwritten_block_witness :
  (∃ w', GBDWorker.do_request g0 0 None w_new = (Ret (PStr [Byte.x00; Byte.x00]), w') ∧
         files w' = files w_new ∧ calls w' = [CallChildrenList 7 "gbd_b0"]) ∧
  (∃ w', read_block g0 0 None 0 w_new = (Ret (PStr [Byte.x00; Byte.x00]), w') ∧
         files w' = files w_new ∧ calls w' = [CallChildrenList 7 "gbd_b0"]).
Proof.
  destruct (read_of_unwritten_block g0 0 w_new) as (_ & _ & Hworker & Hdevice & _).
  - unfold valid_idx; cbn; lia.
  - apply consistent_w_new.
  - reflexivity.
  - vm_compute. reflexivity.
  - split; [exact Hworker|exact (Hdevice 0 eq_refl)].
Defined.

(** ** Write, then read: claim C4 *)

(** A write leaves the block mapped to an object that holds the data. *)
Lemma worker_write_stores gbd idx data w :
  valid_idx gbd idx →
  len data = block_size gbd →
  consistent gbd w →
  faults w = [] →
  (length (Drive.children (files w) (data_dir gbd) (idx_to_name idx)) ≤ 1)%nat →
  ∃ v w1 id f,
    GBDWorker.write_block gbd idx data w = (Ret v, w1) ∧
    faults w1 = [] ∧
    mapping w1 !! Z.to_nat idx = Some (Some id) ∧
    files w1 !! id = Some f ∧
    content f = data.
Proof.
  intros Hv Hlen Hc Hf Hone.
  assert (Z.to_nat idx < length (mapping w))%nat as Hin.
  { destruct (consistent_slot gbd w idx Hc Hv) as [? ?]. by eapply lookup_lt_Some. }
  destruct (consistent_slot gbd w idx Hc Hv) as [[id|] Hs].
  - destruct Hc as [_ Hc]. destruct (Hc idx id) as [f Hfile]; [apply Hv|done|].
    apply elem_of_children in Hfile as (Hid & _ & _).
    eexists _, _, id, _. split; [by eapply worker_write_cached|]. cbn.
    split; [done|]. split; [done|]. split; [apply lookup_insert_eq|done].
  - destruct (Drive.children (files w) (data_dir gbd) (idx_to_name idx))
      as [|[id f] [|? ?]] eqn:Hch; cbn in Hone; [| |lia].
    + eexists _, _, _, _. split; [by eapply worker_write_unmapped|]. cbn.
      split; [done|]. split; [by apply list_lookup_insert_eq|].
      split; [apply lookup_insert_eq|done].
    + eexists _, _, id, _. split; [by eapply worker_write_found|]. cbn.
      split; [done|]. split; [by apply list_lookup_insert_eq|].
      split; [apply lookup_insert_eq|done].
Qed.

Lemma do_request_write_stores gbd idx data w :
  valid_idx gbd idx →
  len data = block_size gbd →
  consistent gbd w →
  faults w = [] →
  (length (Drive.children (files w) (data_dir gbd) (idx_to_name idx)) ≤ 1)%nat →
  ∃ v w1 id f,
    GBDWorker.do_request gbd idx (Some data) w = (Ret v, w1) ∧
    faults w1 = [] ∧
    mapping w1 !! Z.to_nat idx = Some (Some id) ∧
    files w1 !! id = Some f ∧
    content f = data.
Proof.
  intros Hv Hlen Hc Hf Hone.
  destruct (worker_write_stores gbd idx data w Hv Hlen Hc Hf Hone)
    as (v & w1 & id & f & Hw & Hrest).
  exists v, w1, id, f. split; [by apply round_returns|exact Hrest].
Qed.

Lemma do_request_read_stored gbd idx w id f :
  valid_idx gbd idx →
  mapping w !! Z.to_nat idx = Some (Some id) →
  faults w = [] →
  files w !! id = Some f →
  len (content f) = block_size gbd →
  GBDWorker.do_request gbd idx None w =
  (Ret (PStr (content f)), issued (CallGetMedia id) w).
Proof.
  intros. apply round_returns. cbn [GBDWorker.block_op]. by apply worker_read_cached.
Qed.

(** C4: for a valid index and data of [block_size] bytes, on a handle
    that agrees with the drive, with no failing call and at most one object
    under the block's name (the block is mapped or unmapped), a write
    followed by a read of the same block returns the data.  This holds for
    the worker's [do_request] and, when no other work is queued, for the
    blocking [write_block] and [read_block] of the device, which take no
    empty data. *)
Theorem write_then_read gbd idx data w :
  valid_idx gbd idx →
  len data = block_size gbd →
  consistent gbd w →
  faults w = [] →
  (length (Drive.children (files w) (data_dir gbd) (idx_to_name idx)) ≤ 1)%nat →
  (∃ v w1 w2,
     GBDWorker.do_request gbd idx (Some data) w = (Ret v, w1) ∧
     GBDWorker.do_request gbd idx None w1 = (Ret (PStr data), w2)) ∧
  (∀ pri pri', que w = [] → data ≠ [] →
     ∃ v w1 w2,
       write_block gbd idx data None pri w = (Ret v, w1) ∧
       read_block gbd idx None pri' w1 = (Ret (PStr data), w2)).
Proof.
  intros Hv Hlen Hc Hf Hone. split.
  - destruct (do_request_write_stores gbd idx data w Hv Hlen Hc Hf Hone)
      as (v & w1 & id & f & Hw & Hf1 & Hm1 & Hid & Hdata).
    exists v, w1. eexists. split; [exact Hw|].
    rewrite <- Hdata. apply (do_request_read_stored gbd idx w1 id f); try done.
    by rewrite Hdata.
  - intros pri pri' Hq Hne.
    rewrite write_block_passes by done.
    set (w0 := with_que [] (with_unfinished (S (unfinished w))
      (with_bridges (<[fresh (dom (bridges w)) := mkBridge [] 0]> (bridges w)) w))).
    destruct (do_request_write_stores gbd idx data w0 Hv Hlen Hc Hf Hone)
      as (v & wd & id & f & Hw & Hf1 & Hm1 & Hid & Hdata).
    destruct (sync_io_alone gbd idx (Some data) pri w _ _ Hq Hw)
      as (w1 & Hs & Hfs & Hfa & _ & Hmp & _ & Hq1 & _).
    exists v, w1.
    rewrite <- Hfs in Hid. rewrite <- Hfa in Hf1. rewrite <- Hmp in Hm1.
    edestruct (sync_io_alone gbd idx None pri' w1) as (w2 & Hs2 & _); [exact Hq1| |].
    { apply (do_request_read_stored gbd idx _ id f); try done. by rewrite Hdata. }
    exists w2. split; [exact Hs|].
    rewrite read_block_passes by done. rewrite Hs2, Hdata. reflexivity.
Qed.

Lemma consistent_w_cached : consistent g0 w_cached.
Proof.
  split; [reflexivity|]. intros idx id Hidx Hm. cbn in Hm.
  destruct (Z.to_nat idx) as [|[|n]] eqn:Hn; [|discriminate..].
  assert (idx = 0) as -> by lia. injection Hm as <-.
  exists (block0 [Byte.x01; Byte.x02]). vm_compute. apply list_elem_of_here.
Qed.

Lemma write_then_read_witness :
  (∃ v w1 w2,
     GBDWorker.do_request g0 0 (Some [Byte.x05; Byte.x06]) w_new = (Ret v, w1) ∧
     GBDWorker.do_request g0 0 None w1 = (Ret (PStr [Byte.x05; Byte.x06]), w2)) ∧
  (∃ v w1 w2,
     write_block g0 0 [Byte.x05; Byte.x06] None 0 w_cached = (Ret v, w1) ∧
     read_block g0 0 None 0 w1 = (Ret (PStr [Byte.x05; Byte.x06]), w2)).
Proof.
  assert (valid_idx g0 0) as Hv by (unfold valid_idx; cbn; lia).
  assert (length (Drive.children (files w_new) (data_dir g0) (idx_to_name 0)) ≤ 1)%nat
    as Hnew by (vm_compute; lia).
  assert (length (Drive.children (files w_cached) (data_dir g0) (idx_to_name 0)) ≤ 1)%nat
    as Hcached by (vm_compute; lia).
  destruct (write_then_read g0 0 [Byte.x05; Byte.x06] w_new Hv eq_refl
              consistent_w_new eq_refl Hnew) as [Hworker _].
  destruct (write_then_read g0 0 [Byte.x05; Byte.x06] w_cached Hv eq_refl
              consistent_w_cached eq_refl Hcached) as [_ Hdevice].
  split; [exact Hworker|].
  apply (Hdevice 0 0); [reflexivity|discriminate].
Defined.

(** ** The mapping table as a cache: claim C6 *)

Lemma mapping_set_fills idx v w :
  mapping (mapping_set idx v w).2 = mapping w ∨
  mapping (mapping_set idx v w).2 = <[Z.to_nat idx := v]> (mapping w).
Proof.
  unfold mapping_set. rewrite run_bind. cbn. case_match; cbn; auto.
Qed.

Lemma fills_slot_same idx w w' : mapping w' = mapping w → fills_slot idx w w'.
Proof. by left. Qed.

Lemma fills_slot_set idx v w w1 :
  mapping w1 = mapping w →
  mapping w !! Z.to_nat idx = Some None →
  fills_slot idx w (mapping_set idx (Some v) w1).2.
Proof.
  intros H1 Hnone. unfold fills_slot.
  destruct (mapping_set_fills idx (Some v) w1) as [->| ->]; [by left|].
  right. rewrite H1. eauto.
Qed.

Lemma fills_slot_then idx w w1 w2 :
  fills_slot idx w w1 → mapping w2 = mapping w1 → fills_slot idx w w2.
Proof. unfold fills_slot. intros H ->. exact H. Qed.

Lemma block_id_fills gbd idx w : fills_slot idx w (block_id gbd idx w).2.
Proof.
  unfold block_id, with_lock. case_match; [by left|].
  rewrite run_bind. unfold mapping_get at 1. rewrite run_bind. cbn [gets].
  destruct (mapping w !! Z.to_nat idx) as [[id|]|] eqn:Hm; cbn [mret M_ret raise];
    [| |by left].
  - rewrite run_bind. cbn [mret M_ret].
    apply fills_slot_same, (mapping_get_preserves mapping).
  - rewrite run_bind, run_bind.
    pose proof (preserves_execute mapping
      (CallChildrenList (data_dir gbd) (idx_to_name idx))
      (gets (λ w, Drive.children (files w) (data_dir gbd) (idx_to_name idx)))
      (λ _ _, eq_refl) (λ _ _, eq_refl) (preserves_gets _ _) w) as Hex.
    unfold Drive.children_list.
    destruct (Drive.execute _ _ w) as [[items|e] w1]; cbn in Hex; [|by left].
    destruct items as [|item [|item' items]].
    + change (assert (len [] =? 0) "len(results['items']) == 0" w1) with (Ret tt, w1).
      apply fills_slot_same. by rewrite (mapping_get_preserves mapping idx w1).
    + pose proof (fills_slot_set idx item.1 w w1 Hex Hm) as Hset.
      destruct (mapping_set idx (Some item.1) w1) as [[[]|e] w2]; cbn in Hset |- *.
      * eapply fills_slot_then; [exact Hset|].
        apply (mapping_get_preserves mapping idx w2).
      * done.
    + by left.
Qed.

Lemma new_block_fills gbd idx data w : fills_slot idx w (new_block gbd idx data w).2.
Proof.
  unfold new_block, with_lock. case_match; [by left|].
  rewrite run_bind. unfold mapping_get at 1. rewrite run_bind. cbn [gets].
  destruct (mapping w !! Z.to_nat idx) as [[id|]|] eqn:Hm; cbn [mret M_ret raise];
    [by left| |by left].
  rewrite run_bind.
  assert (∃ d, (match data with
                | Some d => assert (len d =? block_size gbd) "len(data) == self.block_size";; mret d
                | None => mret (zeros (block_size gbd))
                end) w = (d, w)) as [d ->].
  { destruct data as [d|]; [|by eexists]. rewrite run_bind.
    destruct (len d =? block_size gbd); by eexists. }
  destruct d as [d|e]; [|by left].
  rewrite run_bind.
  set (f := mkFile (idx_to_name idx) BLOCK_MIMETYPE (Some (data_dir gbd)) false true d).
  assert (preserves mapping (Drive.insert f)) as Hex
    by (unfold Drive.insert; preserves_tac).
  specialize (Hex w).
  destruct (Drive.insert f w) as [[result|e] w1]; cbn in Hex; [|by left].
  rewrite run_bind.
  pose proof (fills_slot_set idx result.1 w w1 Hex Hm) as Hset.
  by destruct (mapping_set idx (Some result.1) w1) as [[[]|e] w2].
Qed.

Lemma fills_slot_keeps idx w w' n id :
  fills_slot idx w w' →
  mapping w !! n = Some (Some id) → mapping w' !! n = Some (Some id).
Proof.
  intros [->|(Hnone & id' & ->)] Hn; [done|].
  destruct (decide (n = Z.to_nat idx)) as [->|Hne]; [congruence|].
  by rewrite list_lookup_insert_ne.
Qed.

Lemma keeps_slots_preserves {A} (m : M A) : preserves mapping m → keeps_slots m.
Proof. intros Hm w n id Hn. by rewrite Hm. Qed.

Lemma keeps_slots_bind {A B} (m : M A) (f : A → M B) :
  keeps_slots m → (∀ a, keeps_slots (f a)) → keeps_slots (m ≫= f).
Proof.
  intros Hm Hf w n id Hn. rewrite run_bind. specialize (Hm w n id Hn).
  destruct (m w) as [[a|e] w']; cbn in *; [|done]. by apply Hf.
Qed.

Lemma keeps_slots_try_except {A} (m : M A) (h : exn → M A) :
  keeps_slots m → (∀ e, keeps_slots (h e)) → keeps_slots (try_except m h).
Proof.
  intros Hm Hh w n id Hn. unfold try_except. specialize (Hm w n id Hn).
  destruct (m w) as [[a|e] w']; cbn in *; [done|]. by apply Hh.
Qed.

Lemma block_id_keeps gbd idx : keeps_slots (block_id gbd idx).
Proof. intros w n id. apply fills_slot_keeps with idx, block_id_fills. Qed.

Lemma new_block_keeps gbd idx data : keeps_slots (new_block gbd idx data).
Proof. intros w n id. apply fills_slot_keeps with idx, new_block_fills. Qed.

Lemma block_op_keeps gbd idx data : keeps_slots (GBDWorker.block_op gbd idx data).
Proof.
  destruct data as [data|]; cbn [GBDWorker.block_op].
  - unfold GBDWorker.write_block.
    apply keeps_slots_bind; [apply keeps_slots_preserves, preserves_assert|intros _].
    apply keeps_slots_bind; [apply block_id_keeps|intros [blkid|]].
    + apply keeps_slots_preserves. unfold Drive.update. preserves_tac.
    + apply new_block_keeps.
  - unfold GBDWorker.read_block.
    apply keeps_slots_bind; [apply block_id_keeps|intros [blkid|]].
    + apply keeps_slots_preserves. unfold Drive.get_media. preserves_tac.
    + apply keeps_slots_preserves, preserves_ret.
Qed.

Lemma do_request_keeps gbd idx data : keeps_slots (GBDWorker.do_request gbd idx data).
Proof.
  unfold GBDWorker.do_request.
  induction GBDWorker.xrange5 as [|rnd rnds IH]; cbn [GBDWorker.do_request_rounds].
  - apply keeps_slots_preserves, preserves_ret.
  - apply keeps_slots_try_except; [apply block_op_keeps|]. intros e.
    destruct e as [status body| | | | | | | | |];
      try apply keeps_slots_preserves, preserves_raise.
    case_match; [|apply keeps_slots_preserves, preserves_raise].
    apply keeps_slots_bind;
      [apply keeps_slots_preserves; destruct body as [|[]]; preserves_tac|].
    intros reason. case_match; [|apply keeps_slots_preserves, preserves_raise].
    apply keeps_slots_bind; [by apply keeps_slots_preserves|]. intros r.
    apply keeps_slots_bind; [by apply keeps_slots_preserves|]. intros _. apply IH.
Qed.

Lemma run_item_keeps gbd it : keeps_slots (GBDWorker.run_item gbd it).
Proof.
  destruct it as [[idx data] cb]. unfold GBDWorker.run_item.
  apply keeps_slots_bind.
  - apply keeps_slots_try_except.
    + apply keeps_slots_bind; [apply do_request_keeps|].
      intros v. apply keeps_slots_preserves, preserves_ret.
    + intros e. apply keeps_slots_preserves, preserves_ret.
  - intros [err ret]. apply keeps_slots_preserves.
    intros w. unfold try_finally, try_except, GBDWorker.call_sink.
    destruct cb as [[name behaviour|k]|]; cbn; [|done..].
    by destruct (behaviour err ret).
Qed.

(** Any number of turns of the worker's loop, on any queue. *)
Lemma run_keeps gbd n : keeps_slots (GBDWorker.run n gbd).
Proof.
  induction n as [|n IH]; cbn [GBDWorker.run].
  - apply keeps_slots_preserves, preserves_ret.
  - apply keeps_slots_bind; [|intros _; apply IH].
    unfold GBDWorker.run_turn. apply keeps_slots_bind; [|apply run_item_keeps].
    apply keeps_slots_preserves. intros w. unfold TimedPriorityQueue.get.
    by destruct (que w) as [|[p it] rest].
Qed.

Section Cache.
Context (Metadata_version : Z).
Context (json_loads : bytes → option (gmap string Z)).
Context (json_dumps : gmap string Z → bytes).

Lemma start_workers_preserves_table n : preserves mapping (start_workers n).
Proof.
  induction n as [|n IH]; cbn [start_workers]; unfold build_service; preserves_tac.
  apply IH.
Qed.

(** [__init__] makes a table of [block_count] slots that all hold [None]. *)
Lemma init_fresh_table cfg w gbd w' :
  __init__ Metadata_version json_loads json_dumps cfg w = (Ret gbd, w') →
  mapping w' = replicate (Z.to_nat (block_count gbd)) None.
Proof.
  unfold __init__. rewrite run_bind.
  destruct (build_service w) as [[[]|e] w0]; [|done]. rewrite run_bind.
  destruct (get_data_dir cfg w0) as [[dir|e] w1]; [|done]. rewrite run_bind.
  destruct (load_data_dir _ _ _ cfg dir w1) as [[attr|e] w2]; [|done].
  rewrite run_bind. unfold getitem at 1.
  destruct (attr !! "block_size") as [bs|]; [|done]. cbn [mret M_ret].
  rewrite run_bind. unfold getitem at 1.
  destruct (attr !! "block_count") as [bc|]; [|done]. cbn [mret M_ret].
  rewrite run_bind. cbn [modify]. rewrite run_bind. cbn [modify]. rewrite run_bind.
  match goal with |- context [start_workers ?n ?x] =>
    pose proof (start_workers_preserves_table n x) as Hs;
    destruct (start_workers n x) as [[[]|e] w3]; [|done]
  end.
  cbn [mret M_ret]. intros [= <- <-]. exact Hs.
Qed.

(** C6, amended: a slot starts as [None], which stands both for a block
    not looked up yet and for a block without an object.  A touch of such
    a slot looks the block up on the drive: when one object is found, its
    id is put in the slot, stays there through any number of turns of the
    worker, and later touches return it without a remote call; when no
    object is found, nothing is cached, and the next touch looks the block
    up again. *)
Theorem found_blocks_are_cached cfg gbd idx id w :
  valid_idx gbd idx →
  let lookup := CallChildrenList (data_dir gbd) (idx_to_name idx) in
  (∀ w0, __init__ Metadata_version json_loads json_dumps cfg w0 = (Ret gbd, w) →
     mapping w = replicate (Z.to_nat (block_count gbd)) None) ∧
  (mapping w !! Z.to_nat idx = Some None →
   faults w = [] →
   (∃ f, Drive.children (files w) (data_dir gbd) (idx_to_name idx) = [(id, f)]) →
   ∃ w1, block_id gbd idx w = (Ret (Some id), w1) ∧
         mapping w1 !! Z.to_nat idx = Some (Some id) ∧
         calls w1 = calls w ++ [lookup]) ∧
  (mapping w !! Z.to_nat idx = Some (Some id) →
   block_id gbd idx w = (Ret (Some id), w) ∧
   ∀ n, mapping (GBDWorker.run n gbd w).2 !! Z.to_nat idx = Some (Some id)) ∧
  (mapping w !! Z.to_nat idx = Some None →
   faults w = [] →
   Drive.children (files w) (data_dir gbd) (idx_to_name idx) = [] →
   ∃ w1 w2, block_id gbd idx w = (Ret None, w1) ∧
            mapping w1 = mapping w ∧
            block_id gbd idx w1 = (Ret None, w2) ∧
            calls w2 = calls w ++ [lookup; lookup]).
Proof.
  intros Hv lookup. split; [|split; [|split]].
  - intros w0 Hinit. by eapply init_fresh_table.
  - intros Hm Hf [f Hone]. eexists. split.
    + rewrite block_id_lookup, Hone by done. reflexivity.
    + cbn. split; [|done]. apply list_lookup_insert_eq. by eapply lookup_lt_Some.
  - intros Hm. split; [by apply block_id_cached|].
    intros n. by apply run_keeps.
  - intros Hm Hf Hnone. do 2 eexists. split; [|split; [|split]].
    + rewrite block_id_lookup, Hnone by done. reflexivity.
    + reflexivity.
    + rewrite block_id_lookup by done. cbn [files issued with_calls].
      rewrite Hnone. reflexivity.
    + cbn. by rewrite <- app_assoc.
Qed.

End Cache.

(** C6 as it is stated fails: block 0 of a new device has no object, a
    first touch of its slot finds it unmapped, and the second touch asks
    the drive again. *)
Lemma unmapped_block_is_looked_up_again :
  ∃ w1 w2,
    block_id g0 0 w_new = (Ret None, w1) ∧
    calls w1 = [CallChildrenList 7 "gbd_b0"] ∧
    block_id g0 0 w1 = (Ret None, w2) ∧
    calls w2 = [CallChildrenList 7 "gbd_b0"; CallChildrenList 7 "gbd_b0"].
Proof. do 2 eexists. repeat split; vm_compute; reflexivity. Qed.

Lemma found_blocks_are_cached_witness :
  (__init__ 1 meta_decode meta_encode cfg0 (w_closed Byte.x01) = (Ret g1, w_opened) ∧
   mapping w_opened = replicate (Z.to_nat (block_count g1)) None) ∧
  (∃ w1, block_id g0 0 w_found = (Ret (Some 1%positive), w1) ∧
         mapping w1 !! Z.to_nat 0 = Some (Some 1%positive) ∧
         calls w1 = calls w_found ++ [CallChildrenList 7 "gbd_b0"]) ∧
  (block_id g0 0 w_cached = (Ret (Some 1%positive), w_cached) ∧
   ∀ n, mapping (GBDWorker.run n g0 w_cached).2 !! Z.to_nat 0 = Some (Some 1%positive)) ∧
  (∃ w1 w2, block_id g0 0 w_new = (Ret None, w1) ∧
            mapping w1 = mapping w_new ∧
            block_id g0 0 w1 = (Ret None, w2) ∧
            calls w2 = calls w_new ++ [CallChildrenList 7 "gbd_b0"; CallChildrenList 7 "gbd_b0"]).
Proof.
  assert (valid_idx g0 0) as Hv by (unfold valid_idx; cbn; lia).
  assert (valid_idx g1 0) as Hv1 by (unfold valid_idx; cbn; lia).
  assert (__init__ 1 meta_decode meta_encode cfg0 (w_closed Byte.x01) = (Ret g1, w_opened))
    as Hopen by (vm_compute; reflexivity).
  destruct (found_blocks_are_cached 1 meta_decode meta_encode cfg0 g1 0 1%positive w_opened Hv1)
    as (Hstart & _).
  destruct (found_blocks_are_cached 1 meta_decode meta_encode cfg0 g0 0 1%positive w_found Hv)
    as (_ & Hfound & _).
  destruct (found_blocks_are_cached 1 meta_decode meta_encode cfg0 g0 0 1%positive w_cached Hv)
    as (_ & _ & Hcached & _).
  destruct (found_blocks_are_cached 1 meta_decode meta_encode cfg0 g0 0 1%positive w_new Hv)
    as (_ & _ & _ & Hnone).
  split; [|split; [|split]].
  - split; [exact Hopen|]. exact (Hstart _ Hopen).
  - apply Hfound; [reflexivity|reflexivity|].
    exists (block0 [Byte.x01; Byte.x02]). vm_compute. reflexivity.
  - apply Hcached. reflexivity.
  - apply Hnone; [reflexivity|reflexivity|vm_compute; reflexivity].
Defined.

(** ** Opening the device: claims C9 and C10 *)

Section OpenProperties.
Context (Metadata_version : Z).
Context (json_loads : bytes → option (gmap string Z)).
Context (json_dumps : gmap string Z → bytes).

Lemma build_service_preserves_handle : preserves handle build_service.
Proof. unfold build_service. preserves_tac. Qed.

Lemma get_data_dir_preserves_handle cfg : preserves handle (get_data_dir cfg).
Proof.
  unfold get_data_dir, create_data_dir, Drive.files_list, Drive.insert. preserves_tac.
Qed.

Lemma int_raw_input_preserves_handle prompt : preserves handle (int_raw_input prompt).
Proof. intros w. unfold int_raw_input. by destruct (stdin w) as [|[n|] rest]. Qed.

Lemma init_data_dir_preserves_handle cfg dir : preserves handle (init_data_dir Metadata_version json_dumps cfg dir).
Proof.
  unfold init_data_dir, config_or_input, floordiv, Drive.insert.
  repeat first [apply int_raw_input_preserves_handle | preserves_step].
Qed.

Lemma load_data_dir_preserves_handle cfg dir : preserves handle (load_data_dir Metadata_version json_loads json_dumps cfg dir).
Proof.
  unfold load_data_dir, Drive.children_list, Drive.get_media, getitem.
  repeat first [apply init_data_dir_preserves_handle | preserves_step].
Qed.

(** When [__init__] does not get past [load_data_dir], it raises and has
    started no worker. *)
Lemma init_stops_at_load cfg w w0 dir w1 e w2 :
  build_service w = (Ret tt, w0) →
  get_data_dir cfg w0 = (Ret dir, w1) →
  load_data_dir Metadata_version json_loads json_dumps cfg dir w1 = (Raise e, w2) →
  __init__ Metadata_version json_loads json_dumps cfg w = (Raise e, w2) ∧ handle w2 = handle w.
Proof.
  intros Hb Hg Hl. split.
  - unfold __init__. rewrite run_bind, Hb, run_bind, Hg, run_bind, Hl. reflexivity.
  - pose proof (build_service_preserves_handle w) as H0.
    pose proof (get_data_dir_preserves_handle cfg w0) as H1.
    pose proof (load_data_dir_preserves_handle cfg dir w1) as H2.
    rewrite Hb in H0. rewrite Hg in H1. rewrite Hl in H2. cbn in *. congruence.
Qed.

(** With a metadata object of another version in the folder,
    [load_data_dir] raises whatever the drive does. *)
Lemma load_data_dir_mismatch cfg dir w item attrs v :
  Drive.children (files w) dir "config" = [item] →
  json_loads (content item.2) = Some attrs →
  attrs !! "version" = Some v →
  v ≠ Metadata_version →
  ∃ e w', load_data_dir Metadata_version json_loads json_dumps cfg dir w = (Raise e, w').
Proof.
  intros Hitems Hjson Hver Hne.
  assert (files w !! item.1 = Some item.2) as Hfile.
  { destruct item as [id f]. eapply (elem_of_children _ dir "config").
    rewrite Hitems. apply list_elem_of_here. }
  assert (negb (v =? Metadata_version) = true) as Hneb
    by (apply negb_true_iff, Z.eqb_neq, Hne).
  unfold load_data_dir. rewrite run_bind. unfold Drive.children_list.
  destruct (execute_runs (CallChildrenList dir "config")
              (gets (λ w, Drive.children (files w) dir "config")) w)
    as [(e & w' & -> & _ & _)|(w1 & -> & Hfiles1 & _)]; [by eauto|].
  cbn [gets]. rewrite Hfiles1, Hitems.
  rewrite run_bind. unfold Drive.get_media.
  destruct (execute_runs (CallGetMedia item.1)
              (f ← gets (λ w, files w !! item.1);
               match f with
               | Some f => mret (content f)
               | None => raise (HttpError 404 (BodyReason "notFound"))
               end) w1)
    as [(e & w' & -> & _ & _)|(w2 & -> & Hfiles2 & _)]; [by eauto|].
  rewrite run_bind. cbn [gets]. rewrite Hfiles2, Hfiles1, Hfile. cbn [mret M_ret].
  rewrite run_bind. destruct (negb (len (content item.2) =? 0)); cbn [assert raise mret M_ret];
    [|by eauto].
  rewrite Hjson, run_bind. unfold getitem. rewrite Hver. cbn [mret M_ret].
  rewrite Hneb. by eauto.
Qed.

(** When no call fails the error is the version mismatch. *)
Lemma load_data_dir_mismatch_error cfg dir w item attrs v :
  faults w = [] →
  Drive.children (files w) dir "config" = [item] →
  content item.2 ≠ [] →
  json_loads (content item.2) = Some attrs →
  attrs !! "version" = Some v →
  v ≠ Metadata_version →
  load_data_dir Metadata_version json_loads json_dumps cfg dir w =
  (Raise (AssertionError "Version mismatch: {0} vs {1}"),
   issued (CallGetMedia item.1) (issued (CallChildrenList dir "config") w)).
Proof.
  intros Hf Hitems Hnonempty Hjson Hver Hne.
  assert (files w !! item.1 = Some item.2) as Hfile.
  { destruct item as [id f]. eapply (elem_of_children _ dir "config").
    rewrite Hitems. apply list_elem_of_here. }
  unfold load_data_dir.
  rewrite run_bind, children_list_ok, Hitems by done.
  rewrite run_bind, (get_media_ok _ _ item.2) by done.
  rewrite run_bind.
  assert (negb (len (content item.2) =? 0) = true) as ->.
  { apply negb_true_iff, Z.eqb_neq. unfold len.
    destruct (content item.2); [done|cbn [length]; lia]. }
  cbn [assert mret M_ret]. rewrite Hjson, run_bind. unfold getitem. rewrite Hver.
  cbn [mret M_ret].
  assert (negb (v =? Metadata_version) = true) as ->
    by (apply negb_true_iff, Z.eqb_neq, Hne).
  reflexivity.
Qed.

(** C9: when the metadata object of the data folder holds a version other
    than [Metadata['version']], [__init__] raises: no handle is returned,
    so no read or write can be called, and no worker has been started; the
    table and the queue are untouched.  When no call to the drive fails,
    the error is the [AssertionError] of the version check. *)
Theorem version_mismatch_stops_open cfg w w0 dir w1 item attrs v :
  build_service w = (Ret tt, w0) →
  get_data_dir cfg w0 = (Ret dir, w1) →
  Drive.children (files w1) dir "config" = [item] →
  json_loads (content item.2) = Some attrs →
  attrs !! "version" = Some v →
  v ≠ Metadata_version →
  (∃ e w', __init__ Metadata_version json_loads json_dumps cfg w = (Raise e, w') ∧
           workers w' = workers w ∧ que w' = que w ∧ mapping w' = mapping w) ∧
  (faults w1 = [] → content item.2 ≠ [] →
   ∃ w', __init__ Metadata_version json_loads json_dumps cfg w = (Raise (AssertionError "Version mismatch: {0} vs {1}"), w') ∧
         workers w' = workers w).
Proof.
  intros Hb Hg Hitems Hjson Hver Hne. split.
  - destruct (load_data_dir_mismatch cfg dir w1 item attrs v) as (e & w' & Hl); try done.
    destruct (init_stops_at_load cfg w w0 dir w1 e w' Hb Hg Hl) as [Hi Hh].
    exists e, w'. split; [exact Hi|]. unfold handle in Hh. by simplify_eq.
  - intros Hf Hnonempty.
    pose proof (load_data_dir_mismatch_error cfg dir w1 item attrs v
                  Hf Hitems Hnonempty Hjson Hver Hne) as Hl.
    destruct (init_stops_at_load cfg w w0 dir w1 _ _ Hb Hg Hl) as [Hi Hh].
    eexists. split; [exact Hi|]. unfold handle in Hh. by simplify_eq.
Qed.

(** C10: in the first initialization, when the total size (configured or
    typed in) is smaller than the block size, [init_data_dir] raises
    [ValueError] right after it has got the two sizes: the drive has the
    same objects and no call has been issued, so no metadata is stored. *)
Theorem init_rejects_small_total_size cfg dir w bs w1 ts w2 :
  config_or_input (default_block_size cfg) "Desired block size: " w = (Ret bs, w1) →
  config_or_input (default_total_size cfg) "Total size: " w1 = (Ret ts, w2) →
  ts < bs →
  init_data_dir Metadata_version json_dumps cfg dir w =
    (Raise (ValueError "block_size should not be bigger than total_size."), w2) ∧
  files w2 = files w ∧ calls w2 = calls w.
Proof.
  intros Hbs Hts Hlt. split.
  - unfold init_data_dir. rewrite run_bind, Hbs, run_bind, Hts.
    rewrite (proj2 (Z.ltb_lt _ _) Hlt). reflexivity.
  - assert (∀ o p, preserves (λ w, (files w, calls w)) (config_or_input o p)) as Hp.
    { intros [n|] p w'; [done|]. cbn. unfold int_raw_input.
      by destruct (stdin w') as [|[n|] rest]. }
    pose proof (Hp (default_block_size cfg) "Desired block size: " w) as H1.
    pose proof (Hp (default_total_size cfg) "Total size: " w1) as H2.
    rewrite Hbs in H1. rewrite Hts in H2. cbn in *. split; congruence.
Qed.

(** The first initialization is what [load_data_dir] does when the folder
    has no metadata object; the error passes through it and through
    [__init__], and nothing is stored. *)
Lemma first_open_rejects_small_total_size cfg w w0 dir w1 bs ts :
  build_service w = (Ret tt, w0) →
  get_data_dir cfg w0 = (Ret dir, w1) →
  faults w1 = [] →
  Drive.children (files w1) dir "config" = [] →
  default_block_size cfg = Some bs →
  default_total_size cfg = Some ts →
  ts < bs →
  ∃ w', __init__ Metadata_version json_loads json_dumps cfg w =
          (Raise (ValueError "block_size should not be bigger than total_size."), w') ∧
        files w' = files w1 ∧ workers w' = workers w.
Proof.
  intros Hb Hg Hf Hnone Hbs Hts Hlt.
  assert (load_data_dir Metadata_version json_loads json_dumps cfg dir w1 =
    (Raise (ValueError "block_size should not be bigger than total_size."),
     issued (CallChildrenList dir "config") w1)) as Hl.
  { unfold load_data_dir. rewrite run_bind, children_list_ok, Hnone by done.
    unfold init_data_dir. rewrite Hbs, Hts, run_bind. cbn [config_or_input mret M_ret].
    rewrite run_bind. cbn [mret M_ret]. rewrite (proj2 (Z.ltb_lt _ _) Hlt). reflexivity. }
  destruct (init_stops_at_load cfg w w0 dir w1 _ _ Hb Hg Hl) as [Hi Hh].
  eexists. split; [exact Hi|]. unfold handle in Hh. by simplify_eq.
Qed.

End OpenProperties.

Lemma version_mismatch_stops_open_witness :
  (∃ e w', __init__ 1 meta_decode meta_encode cfg0 (w_closed Byte.x02) = (Raise e, w') ∧
           workers w' = 0%nat ∧ que w' = [] ∧ mapping w' = []) ∧
  (∃ w', __init__ 1 meta_decode meta_encode cfg0 (w_closed Byte.x02) =
           (Raise (AssertionError "Version mismatch: {0} vs {1}"), w') ∧
         workers w' = 0%nat).
Proof.
  destruct (version_mismatch_stops_open 1 meta_decode meta_encode cfg0 (w_closed Byte.x02)
              (issued CallAuth (w_closed Byte.x02)) 7%positive
              (issued (CallFilesList "gbd") (issued CallAuth (w_closed Byte.x02)))
              (8%positive, config_file Byte.x02)
              (<["version" := 2]> (<["block_size" := 2]> (<["block_count" := 2]> ∅))) 2)
    as [Hany Hexact].
  - reflexivity.
  - vm_compute. reflexivity.
  - vm_compute. reflexivity.
  - reflexivity.
  - reflexivity.
  - discriminate.
  - split; [exact Hany|]. apply Hexact; [reflexivity|discriminate].
Defined.

Lemma init_rejects_small_total_size_witness :
  (init_data_dir 1 meta_encode cfg_small 7%positive w_new =
     (Raise (ValueError "block_size should not be bigger than total_size."), w_new) ∧
   files w_new = files w_new ∧ calls w_new = calls w_new) ∧
  (init_data_dir 1 meta_encode cfg0 7%positive w_typing =
     (Raise (ValueError "block_size should not be bigger than total_size."), w_new) ∧
   files w_new = files w_typing ∧ calls w_new = calls w_typing).
Proof.
  split.
  - apply (init_rejects_small_total_size 1 meta_encode cfg_small 7%positive
             w_new 4096 w_new 1024 w_new); [reflexivity|reflexivity|lia].
  - apply (init_rejects_small_total_size 1 meta_encode cfg0 7%positive
             w_typing 4096 (with_stdin [Some 1024] w_new) 1024 w_new);
      [reflexivity|reflexivity|lia].
Defined.

(** ** The handle and the drive stay in agreement *)

Lemma consistent_same gbd w w' :
  files w' = files w → mapping w' = mapping w → consistent gbd w → consistent gbd w'.
Proof. unfold consistent. by intros -> ->. Qed.

Lemma keeps_consistent_preserves gbd {A} (m : M A) :
  preserves (λ w, (files w, mapping w)) m → keeps_consistent gbd m.
Proof.
  intros Hm w Hc. specialize (Hm w). cbn in Hm. injection Hm as Hf Hmp.
  by eapply consistent_same.
Qed.

Lemma keeps_consistent_bind gbd {A B} (m : M A) (f : A → M B) :
  keeps_consistent gbd m → (∀ a, keeps_consistent gbd (f a)) →
  keeps_consistent gbd (m ≫= f).
Proof.
  intros Hm Hf w Hc. rewrite run_bind. specialize (Hm w Hc).
  destruct (m w) as [[a|e] w']; cbn in *; [|done]. by apply Hf.
Qed.

Lemma keeps_consistent_try_except gbd {A} (m : M A) (h : exn → M A) :
  keeps_consistent gbd m → (∀ e, keeps_consistent gbd (h e)) →
  keeps_consistent gbd (try_except m h).
Proof.
  intros Hm Hh w Hc. unfold try_except. specialize (Hm w Hc).
  destruct (m w) as [[a|e] w']; cbn in *; [done|]. by apply Hh.
Qed.

Lemma consistent_fill gbd w w' idx id f :
  consistent gbd w → 0 ≤ idx →
  files w' = files w →
  mapping w' = <[Z.to_nat idx := Some id]> (mapping w) →
  (id, f) ∈ Drive.children (files w) (data_dir gbd) (idx_to_name idx) →
  consistent gbd w'.
Proof.
  intros [Hlen Hc] Hidx Hf Hm Hin. split.
  - by rewrite Hm, length_insert.
  - intros idx' id' Hidx' Hs. rewrite Hm in Hs. rewrite Hf.
    destruct (decide (Z.to_nat idx' = Z.to_nat idx)) as [Heq|Hne].
    + assert (idx' = idx) as -> by lia.
      pose proof (lookup_lt_Some _ _ _ Hs) as Hlt. rewrite length_insert in Hlt.
      rewrite list_lookup_insert_eq in Hs by done. injection Hs as <-. by exists f.
    + rewrite list_lookup_insert_ne in Hs by done. by apply Hc.
Qed.

Lemma consistent_insert gbd w w' f :
  consistent gbd w →
  files w' = <[fresh (dom (files w)) := f]> (files w) →
  mapping w' = mapping w →
  consistent gbd w'.
Proof.
  intros [Hlen Hc] Hf Hm. split; [by rewrite Hm|].
  intros idx id Hidx Hs. rewrite Hm in Hs.
  destruct (Hc idx id Hidx Hs) as [f' Hin]. exists f'.
  apply elem_of_children in Hin as (Hid & Hp & Ht).
  apply elem_of_children. split; [|done]. rewrite Hf, lookup_insert_ne; [done|].
  intros <-. pose proof (is_fresh (dom (files w))) as Hfresh.
  apply Hfresh, elem_of_dom. by eexists.
Qed.

Lemma consistent_update gbd w w' id data f :
  consistent gbd w →
  files w !! id = Some f →
  files w' = <[id := set_content data f]> (files w) →
  mapping w' = mapping w →
  consistent gbd w'.
Proof.
  intros [Hlen Hc] Hid Hf Hm. split; [by rewrite Hm|].
  intros idx id' Hidx Hs. rewrite Hm in Hs.
  destruct (Hc idx id' Hidx Hs) as [f' Hin].
  apply elem_of_children in Hin as (Hid' & Hp & Ht).
  destruct (decide (id' = id)) as [->|Hne].
  - exists (set_content data f). apply elem_of_children.
    rewrite Hf, lookup_insert_eq. assert (f' = f) as -> by congruence. done.
  - exists f'. apply elem_of_children. by rewrite Hf, lookup_insert_ne.
Qed.

Lemma mapping_get_state idx w : (mapping_get idx w).2 = w.
Proof. unfold mapping_get. rewrite run_bind. cbn. by destruct (mapping w !! Z.to_nat idx). Qed.

Lemma mapping_set_cases idx v w :
  (∃ e, mapping_set idx v w = (Raise e, w)) ∨
  mapping_set idx v w = (Ret tt, with_mapping (<[Z.to_nat idx := v]> (mapping w)) w).
Proof.
  unfold mapping_set. rewrite run_bind. cbn. case_match; [by right|left; by eexists].
Qed.

Lemma block_id_keeps_consistent gbd idx : keeps_consistent gbd (block_id gbd idx).
Proof.
  intros w Hc. unfold block_id, with_lock.
  destruct ((block_count gbd <=? idx) || (idx <? 0)) eqn:Hg; [done|].
  assert (0 ≤ idx) as Hidx by lia.
  rewrite run_bind. unfold mapping_get at 1. rewrite run_bind. cbn [gets].
  destruct (mapping w !! Z.to_nat idx) as [[id|]|] eqn:Hm; cbn [mret M_ret raise];
    [| |done].
  - rewrite run_bind. cbn [mret M_ret]. by rewrite mapping_get_state.
  - rewrite run_bind, run_bind. unfold Drive.children_list.
    destruct (execute_runs (CallChildrenList (data_dir gbd) (idx_to_name idx))
                (gets (λ w, Drive.children (files w) (data_dir gbd) (idx_to_name idx))) w)
      as [(e & w' & -> & Hf & Hmp)|(w1 & -> & Hf & Hmp)];
      [by eapply consistent_same|].
    cbn [gets]. rewrite Hf.
    destruct (Drive.children (files w) (data_dir gbd) (idx_to_name idx))
      as [|item [|item' items]] eqn:Hitems.
    + change (assert (len [] =? 0) "len(results['items']) == 0" w1) with (Ret tt, w1).
      cbn iota. rewrite mapping_get_state. by eapply consistent_same.
    + destruct (mapping_set_cases idx (Some item.1) w1) as [[e ->]| ->].
      * by eapply consistent_same.
      * rewrite mapping_get_state.
        apply (consistent_fill gbd w _ idx item.1 item.2); try done.
        -- cbn. by rewrite Hmp.
        -- rewrite Hitems. destruct item. apply list_elem_of_here.
    + by eapply consistent_same.
Qed.

Lemma new_block_keeps_consistent gbd idx data : keeps_consistent gbd (new_block gbd idx data).
Proof.
  intros w Hc. unfold new_block, with_lock.
  destruct ((block_count gbd <=? idx) || (idx <? 0)) eqn:Hg; [done|].
  assert (0 ≤ idx) as Hidx by lia.
  rewrite run_bind. unfold mapping_get at 1. rewrite run_bind. cbn [gets].
  destruct (mapping w !! Z.to_nat idx) as [[id|]|] eqn:Hm; cbn [mret M_ret raise];
    [done| |done].
  rewrite run_bind.
  assert (∃ d, (match data with
                | Some d => assert (len d =? block_size gbd) "len(data) == self.block_size";; mret d
                | None => mret (zeros (block_size gbd))
                end) w = (d, w)) as [d ->].
  { destruct data as [d|]; [|by eexists]. rewrite run_bind.
    destruct (len d =? block_size gbd); by eexists. }
  destruct d as [d|e]; [|done].
  rewrite run_bind.
  set (f := mkFile (idx_to_name idx) BLOCK_MIMETYPE (Some (data_dir gbd)) false true d).
  unfold Drive.insert.
  destruct (execute_runs (CallInsert (title f))
              (id ← gets (λ w, fresh (dom (files w)));
               modify (λ w, with_files (<[id := f]> (files w)) w);;
               mret (id, f)) w)
    as [(e & w' & -> & Hf & Hmp)|(w1 & -> & Hf & Hmp)];
    [by eapply consistent_same|].
  rewrite run_bind. cbn [gets]. rewrite run_bind. cbn [modify mret M_ret].
  rewrite run_bind. cbn [fst snd]. rewrite Hf.
  set (w2 := with_files (<[fresh (dom (files w)) := f]> (files w)) w1).
  assert (consistent gbd w2) as Hc2.
  { apply (consistent_insert gbd w w2 f); [done|reflexivity|exact Hmp]. }
  destruct (mapping_set_cases idx (Some (fresh (dom (files w)))) w2) as [[e ->]| ->];
    [done|].
  apply (consistent_fill gbd w2 _ idx (fresh (dom (files w))) f); try done.
  apply elem_of_children. cbn. by rewrite lookup_insert_eq.
Qed.

Lemma update_keeps_consistent gbd id data : keeps_consistent gbd (Drive.update id data).
Proof.
  intros w Hc. unfold Drive.update.
  destruct (execute_runs (CallUpdate id)
              (f ← gets (λ w, files w !! id);
               match f with
               | Some f =>
                   modify (λ w, with_files (<[id := set_content data f]> (files w)) w);;
                   mret (PFile id (set_content data f))
               | None => raise (HttpError 404 (BodyReason "notFound"))
               end) w)
    as [(e & w' & -> & Hf & Hmp)|(w1 & -> & Hf & Hmp)];
    [by eapply consistent_same|].
  rewrite run_bind. cbn [gets]. rewrite Hf.
  destruct (files w !! id) as [f|] eqn:Hid; [|by eapply consistent_same].
  rewrite run_bind. cbn [modify mret M_ret snd].
  apply (consistent_update gbd w _ id data f); try done. cbn. by rewrite Hf.
Qed.

Lemma block_op_keeps_consistent gbd idx data :
  keeps_consistent gbd (GBDWorker.block_op gbd idx data).
Proof.
  destruct data as [data|]; cbn [GBDWorker.block_op].
  - unfold GBDWorker.write_block.
    apply keeps_consistent_bind;
      [apply keeps_consistent_preserves, preserves_assert|intros _].
    apply keeps_consistent_bind; [apply block_id_keeps_consistent|intros [blkid|]].
    + apply update_keeps_consistent.
    + apply new_block_keeps_consistent.
  - unfold GBDWorker.read_block.
    apply keeps_consistent_bind; [apply block_id_keeps_consistent|intros [blkid|]].
    + apply keeps_consistent_preserves. unfold Drive.get_media. preserves_tac.
    + apply keeps_consistent_preserves, preserves_ret.
Qed.

Lemma do_request_keeps_consistent gbd idx data :
  keeps_consistent gbd (GBDWorker.do_request gbd idx data).
Proof.
  unfold GBDWorker.do_request.
  induction GBDWorker.xrange5 as [|rnd rnds IH]; cbn [GBDWorker.do_request_rounds].
  - apply keeps_consistent_preserves, preserves_ret.
  - apply keeps_consistent_try_except; [apply block_op_keeps_consistent|]. intros e.
    destruct e as [status body| | | | | | | | |];
      try apply keeps_consistent_preserves, preserves_raise.
    case_match; [|apply keeps_consistent_preserves, preserves_raise].
    apply keeps_consistent_bind;
      [apply keeps_consistent_preserves; destruct body as [|[]]; preserves_tac|].
    intros reason. case_match; [|apply keeps_consistent_preserves, preserves_raise].
    apply keeps_consistent_bind; [by apply keeps_consistent_preserves|]. intros r.
    apply keeps_consistent_bind; [by apply keeps_consistent_preserves|]. intros _.
    apply IH.
Qed.

Lemma run_item_keeps_consistent gbd it : keeps_consistent gbd (GBDWorker.run_item gbd it).
Proof.
  destruct it as [[idx data] cb]. unfold GBDWorker.run_item.
  apply keeps_consistent_bind.
  - apply keeps_consistent_try_except.
    + apply keeps_consistent_bind; [apply do_request_keeps_consistent|].
      intros v. apply keeps_consistent_preserves, preserves_ret.
    + intros e. apply keeps_consistent_preserves, preserves_ret.
  - intros [err ret]. apply keeps_consistent_preserves.
    intros w. unfold try_finally, try_except, GBDWorker.call_sink.
    destruct cb as [[name behaviour|k]|]; cbn; [|done..].
    by destruct (behaviour err ret).
Qed.

(** Any number of turns of the worker's loop keeps the agreement. *)
Lemma run_keeps_consistent gbd n : keeps_consistent gbd (GBDWorker.run n gbd).
Proof.
  induction n as [|n IH]; cbn [GBDWorker.run].
  - apply keeps_consistent_preserves, preserves_ret.
  - apply keeps_consistent_bind; [|intros _; apply IH].
    unfold GBDWorker.run_turn.
    apply keeps_consistent_bind; [|apply run_item_keeps_consistent].
    apply keeps_consistent_preserves. intros w. unfold TimedPriorityQueue.get.
    by destruct (que w) as [|[p it] rest].
Qed.

(** The handle that [__init__] returns agrees with the drive. *)
Lemma init_consistent Metadata_version json_loads json_dumps cfg w gbd w' :
  __init__ Metadata_version json_loads json_dumps cfg w = (Ret gbd, w') →
  consistent gbd w'.
Proof.
  intros Hinit. apply init_fresh_table in Hinit. split.
  - by rewrite Hinit, length_replicate.
  - intros idx id _ Hs. rewrite Hinit in Hs.
    apply lookup_replicate in Hs as [? _]. done.
Qed.

(** * Further properties of the code *)

(** ** Worlds without failures *)

Lemma calm_ret {A} (a : A) : calm (mret a).
Proof. intros w Hq. split; [done|]. intros e [=]. Qed.

Lemma calm_raise {A} e : passed_on e → calm (@raise A e).
Proof. intros He w Hq. split; [done|]. by intros e' [= <-]. Qed.

Lemma calm_gets {A} (f : World → A) : calm (gets f).
Proof. intros w Hq. split; [done|]. intros e [=]. Qed.

Lemma calm_assert b msg : calm (assert b msg).
Proof. destruct b; [apply calm_ret|by apply calm_raise]. Qed.

Lemma calm_modify f : (∀ w, faults (f w) = faults w) → calm (modify f).
Proof. intros Hf w Hq. split; [unfold quiet; cbn; by rewrite Hf|]. intros e [=]. Qed.

Lemma calm_bind {A B} (m : M A) (f : A → M B) :
  calm m → (∀ a, calm (f a)) → calm (m ≫= f).
Proof.
  intros Hm Hf w Hq. rewrite run_bind. destruct (Hm w Hq) as [Hq' He].
  destruct (m w) as [[a|e] w']; cbn in *; [by apply Hf|].
  split; [done|]. intros e' [= <-]. by apply He.
Qed.

Lemma calm_execute {A} c (effect : M A) : calm effect → calm (Drive.execute c effect).
Proof.
  intros He w Hq. rewrite execute_ok by done. apply He. exact Hq.
Qed.

Ltac calm_step :=
  first
    [ apply calm_ret | apply calm_gets | apply calm_assert
    | apply calm_raise; first [exact I | left; discriminate]
    | apply calm_bind
    | apply calm_execute
    | apply calm_modify; reflexivity
    | progress intros
    | case_match ].

Ltac calm_tac := repeat calm_step.

Lemma block_op_calm gbd idx data : calm (GBDWorker.block_op gbd idx data).
Proof.
  destruct data as [data|]; cbn [GBDWorker.block_op].
  - unfold GBDWorker.write_block, block_id, new_block, with_lock, mapping_get, mapping_set,
      Drive.children_list, Drive.update, Drive.insert.
    calm_tac.
  - unfold GBDWorker.read_block, block_id, with_lock, mapping_get, mapping_set,
      Drive.children_list, Drive.get_media.
    calm_tac.
Qed.

(** When no remote call fails, [do_request] is its first attempt. *)
Lemma do_request_quiet gbd idx data w :
  quiet w →
  GBDWorker.do_request gbd idx data w = GBDWorker.block_op gbd idx data w.
Proof.
  intros Hq. destruct (block_op_calm gbd idx data w Hq) as [_ He].
  destruct (GBDWorker.block_op gbd idx data w) as [[v|e] w'] eqn:Hop.
  - by apply round_returns.
  - apply round_raises; [done|]. by apply He.
Qed.

Lemma do_request_calm gbd idx data : calm (GBDWorker.do_request gbd idx data).
Proof. intros w Hq. rewrite do_request_quiet by done. by apply block_op_calm. Qed.

(** ** The worker's loop *)

Lemma run_item_keeps_que gbd it w : que (GBDWorker.run_item gbd it w).2 = que w.
Proof.
  destruct it as [[idx data] cb]. unfold GBDWorker.run_item. rewrite run_bind.
  unfold try_except at 1. rewrite run_bind.
  pose proof (do_request_preserves_host gbd idx data w) as Hh.
  destruct (GBDWorker.do_request gbd idx data w) as [r w1].
  cbn in Hh. injection Hh as Hq _ _ _ _ _.
  assert (∀ err ret, que (try_finally
      (try_except
         (match cb with
          | Some cb => GBDWorker.call_sink cb err ret
          | None => mret tt
          end)
         (λ _ : exn, mret tt))
      TimedPriorityQueue.task_done w1).2 = que w1) as Hs.
  { intros err ret. unfold try_finally, try_except, GBDWorker.call_sink.
    destruct cb as [[name behaviour|k]|]; cbn; [|done..].
    by destruct (behaviour err ret). }
  destruct r as [v|e]; cbn; rewrite Hs; exact Hq.
Qed.

Lemma run_item_outcome gbd idx data cb w :
  ∃ w', GBDWorker.run_item gbd (idx, data, cb) w = (Ret tt, w') ∧
        unfinished w' = Nat.pred (unfinished w) ∧
        que w' = que w ∧
        delivered w' =
          delivered w ++
          match cb with
          | Some cb =>
              [(sink_name cb,
                err_of (GBDWorker.do_request gbd idx data w).1,
                ret_of (GBDWorker.do_request gbd idx data w).1)]
          | None => []
          end.
Proof.
  pose proof (do_request_preserves_host gbd idx data w) as Hh.
  destruct (GBDWorker.do_request gbd idx data w) as [r w1] eqn:Hreq.
  cbn in Hh. injection Hh as Hq Hu _ Hd _ _.
  destruct cb as [cb|].
  - destruct (run_item_delivers gbd idx data cb w r w1 Hreq) as (w' & Hrun & Hd' & Hu').
    exists w'. split; [exact Hrun|]. rewrite Hu', Hd', Hu, Hd. split; [done|].
    split; [|done].
    pose proof (run_item_keeps_que gbd (idx, data, Some cb) w) as Hq'.
    rewrite Hrun in Hq'. exact Hq'.
  - unfold GBDWorker.run_item. rewrite run_bind. unfold try_except at 1.
    rewrite run_bind, Hreq.
    destruct r as [v|e]; cbn; eexists; (split; [reflexivity|]); cbn;
      rewrite Hu, Hq, Hd, app_nil_r; done.
Qed.

(** X1: whatever the item, the drive and the callback do, a turn of the
    worker's loop that finds an item in the queue takes it and ends
    normally: the callback, if there is one, has been called exactly once
    with the outcome of [do_request], an exception of the callback is
    swallowed, and [task_done] has been called. *)
Theorem worker_turn_always_completes gbd p idx data cb rest w :
  que w = (p, (idx, data, cb)) :: rest →
  let w0 := with_que rest w in
  ∃ w', GBDWorker.run_turn gbd w = (Ret tt, w') ∧
        que w' = rest ∧
        unfinished w' = Nat.pred (unfinished w) ∧
        delivered w' =
          delivered w ++
          match cb with
          | Some cb =>
              [(sink_name cb,
                err_of (GBDWorker.do_request gbd idx data w0).1,
                ret_of (GBDWorker.do_request gbd idx data w0).1)]
          | None => []
          end.
Proof.
  intros Hq w0. rewrite (run_turn_takes gbd w p (idx, data, cb) rest Hq).
  destruct (run_item_outcome gbd idx data cb w0) as (w' & Hrun & Hu & Hq' & Hd).
  exists w'. split; [exact Hrun|]. split; [exact Hq'|]. split; [exact Hu|exact Hd].
Qed.

Lemma worker_turn_always_completes_witness :
  ∃ w', GBDWorker.run_turn g0 w_busy = (Ret tt, w') ∧
        que w' = [(0, (1, None, Some quiet_cb))] ∧
        unfinished w' = 1%nat ∧
        delivered w' =
          [(ToUser 0, None,
            PFile 1%positive (block0 [Byte.x05; Byte.x06]))].
Proof.
  destruct (worker_turn_always_completes g0 0 0 (Some [Byte.x05; Byte.x06]) (Some quiet_cb)
              [(0, (1, None, Some quiet_cb))] w_busy eq_refl)
    as (w' & Hrun & Hq & Hu & Hd).
  exists w'. split; [exact Hrun|]. split; [exact Hq|]. split; [exact Hu|].
  rewrite Hd. vm_compute. reflexivity.
Defined.

(** ** The retry loop *)

Lemma do_request_rounds_sleeps gbd idx data rnds w :
  ∃ n, (n ≤ length rnds)%nat ∧
       sleeps (GBDWorker.do_request_rounds rnds gbd idx data w).2 =
         sleeps w ++ take n ((λ rnd, 2 ^ rnd) <$> rnds) ∧
       (n = length rnds →
        (GBDWorker.do_request_rounds rnds gbd idx data w).1 = Ret PNone).
Proof.
  revert w. induction rnds as [|rnd rnds IH]; intros w.
  - exists 0%nat. cbn. by rewrite app_nil_r.
  - pose proof (block_op_preserves_host gbd idx data w) as Hh.
    destruct (GBDWorker.block_op gbd idx data w) as [[v|e] w1] eqn:Hop;
      unfold host in Hh; cbn in Hh; injection Hh as Hs _ _ _ _ _ _ _.
    { exists 0%nat. rewrite (round_returns _ _ _ _ _ _ _ _ Hop). cbn.
      rewrite app_nil_r. split; [lia|]. split; [done|lia]. }
    assert (rate_limited e ∨
            ∃ e', GBDWorker.do_request_rounds (rnd :: rnds) gbd idx data w = (Raise e', w1))
      as [Hrl|[e' Hraise]].
    { destruct e as [status body| | | | | | | | |];
        try (right; eexists; cbn [GBDWorker.do_request_rounds]; unfold try_except;
             rewrite Hop; reflexivity).
      destruct (decide (status = 403)) as [->|Hne].
      - destruct body as [reason|k].
        + destruct (decide (reason ∈ ["rateLimitExceeded"; "userRateLimitExceeded"]))
            as [Hin|Hnin].
          * left. by exists reason.
          * right. exists (HttpError 403 (BodyReason reason)).
            apply round_raises; [done|]. right. by exists reason.
        + right. destruct (round_malformed gbd idx data rnd rnds w k w1 Hop) as (e' & He' & _).
          by exists e'.
      - right. eexists. apply round_raises; [done|]. by left. }
    + rewrite (round_refused _ _ _ _ _ _ _ _ Hop Hrl).
      destruct (IH (backed_off rnd w1)) as (n & Hn & Hsl & Hlast).
      exists (S n). split; [cbn; lia|]. split.
      * rewrite Hsl. cbn. rewrite Hs, <- app_assoc. done.
      * intros Hfull. apply Hlast. cbn in Hfull. lia.
    + exists 0%nat. rewrite Hraise. cbn. rewrite app_nil_r.
      split; [lia|]. split; [done|lia].
Qed.

(** X2: in every world [do_request] sleeps at most five times, for 1, 2,
    4, 8 and 16 units in this order and never more than 31 in all; it sleeps
    five times only when it ends by returning [None]. *)
Theorem do_request_backoff_is_bounded gbd idx data w :
  ∃ n, (n ≤ 5)%nat ∧
       sleeps (GBDWorker.do_request gbd idx data w).2 = sleeps w ++ take n [1; 2; 4; 8; 16] ∧
       foldr Z.add 0 (take n [1; 2; 4; 8; 16]) ≤ 31 ∧
       (n = 5%nat → (GBDWorker.do_request gbd idx data w).1 = Ret PNone).
Proof.
  destruct (do_request_rounds_sleeps gbd idx data GBDWorker.xrange5 w)
    as (n & Hn & Hs & Hlast).
  exists n. split; [exact Hn|]. split; [exact Hs|]. split; [|exact Hlast].
  cbn in Hn. do 6 (destruct n as [|n]; [cbn; lia|]). lia.
Qed.

(** ** Errors that are not retried *)

(** X3: a read of a block whose object does not hold [block_size] bytes
    raises the [AssertionError] of the length check after one
    [get_media]: the worker does not retry it and does not sleep, and the
    blocking [read_block] raises it in the caller. *)
Theorem read_of_wrong_size_fails gbd idx w id f :
  valid_idx gbd idx →
  mapping w !! Z.to_nat idx = Some (Some id) →
  quiet w →
  files w !! id = Some f →
  len (content f) ≠ block_size gbd →
  let mismatch := AssertionError "len(results) == self.gbd.block_size" in
  GBDWorker.do_request gbd idx None w = (Raise mismatch, issued (CallGetMedia id) w) ∧
  (∀ pri, que w = [] →
     ∃ w', read_block gbd idx None pri w = (Raise mismatch, w') ∧
           calls w' = calls w ++ [CallGetMedia id] ∧ sleeps w' = sleeps w).
Proof.
  intros Hv Hm Hq Hid Hlen mismatch.
  assert (∀ w0, mapping w0 !! Z.to_nat idx = Some (Some id) → quiet w0 →
                files w0 !! id = Some f →
                GBDWorker.do_request gbd idx None w0 =
                (Raise mismatch, issued (CallGetMedia id) w0)) as Hreq.
  { intros w0 Hm0 Hq0 Hid0. rewrite do_request_quiet by done.
    cbn [GBDWorker.block_op]. unfold GBDWorker.read_block.
    rewrite run_bind, (block_id_cached _ _ _ id) by done.
    rewrite run_bind, (get_media_ok id w0 f) by done.
    rewrite run_bind, (proj2 (Z.eqb_neq _ _) Hlen). reflexivity. }
  split; [by apply Hreq|].
  intros pri Hque. rewrite read_block_passes by done.
  edestruct (sync_io_alone gbd idx None pri w) as (w' & Hs & _ & _ & Hc & _ & Hsl & _);
    [done|by apply Hreq|].
  exists w'. split; [exact Hs|]. by rewrite Hc, Hsl.
Qed.

Lemma read_of_wrong_size_fails_witness :
  GBDWorker.do_request g0 0 None w_short =
    (Raise (AssertionError "len(results) == self.gbd.block_size"),
     issued (CallGetMedia 1) w_short) ∧
  ∃ w', read_block g0 0 None 0 w_short =
          (Raise (AssertionError "len(results) == self.gbd.block_size"), w') ∧
        calls w' = calls w_short ++ [CallGetMedia 1] ∧ sleeps w' = sleeps w_short.
Proof.
  assert (valid_idx g0 0) as Hv by (unfold valid_idx; cbn; lia).
  assert (len (content (block0 [Byte.x01; Byte.x02; Byte.x03])) ≠ block_size g0)
    as Hlen by discriminate.
  destruct (read_of_wrong_size_fails g0 0 w_short 1%positive
              (block0 [Byte.x01; Byte.x02; Byte.x03]) Hv eq_refl eq_refl eq_refl Hlen)
    as [Hworker Hdevice].
  split; [exact Hworker|]. exact (Hdevice 0 eq_refl).
Defined.

(** X4: when the first remote call of a blocking read or write is
    answered with an error that is not a rate-limit refusal, the caller
    gets this very error raised, after that one call and without a
    sleep: it is not retried. *)
Theorem remote_error_reaches_the_caller gbd idx data pri w e rest :
  valid_idx gbd idx →
  mapping w !! Z.to_nat idx ≠ None →
  faults w = Some e :: rest →
  passed_on e →
  que w = [] →
  (∀ d, data = Some d → len d = block_size gbd ∧ d ≠ []) →
  ∃ c w', match data with
          | None => read_block gbd idx None pri w
          | Some d => write_block gbd idx d None pri w
          end = (Raise e, w') ∧
          calls w' = calls w ++ [c] ∧ sleeps w' = sleeps w ∧
          files w' = files w ∧ faults w' = rest.
Proof.
  intros Hv Hslot Hf He Hque Hdata.
  destruct (mapping w !! Z.to_nat idx) as [cur|] eqn:Hm; [clear Hslot|done].
  assert (∀ w0, mapping w0 = mapping w → faults w0 = faults w → files w0 = files w →
            ∃ c, GBDWorker.block_op gbd idx data w0 =
                 (Raise e, with_faults rest (issued c w0))) as Hop.
  { intros w0 Hm0 Hf0 Hfs0. rewrite Hf in Hf0. rewrite <- Hm0 in Hm.
    destruct data as [d|]; cbn [GBDWorker.block_op].
    - destruct (Hdata d eq_refl) as [Hlen _].
      unfold GBDWorker.write_block.
      rewrite run_bind, len_eqb_refl by done. cbn [assert mret M_ret].
      rewrite run_bind. destruct cur as [id|].
      + rewrite (block_id_cached _ _ _ id) by done.
        eexists. unfold Drive.update. by erewrite execute_fault.
      + unfold block_id, with_lock. rewrite valid_idx_guard by done.
        rewrite run_bind, (mapping_get_some _ _ _ Hm).
        rewrite run_bind, run_bind. unfold Drive.children_list.
        eexists. by erewrite execute_fault.
    - unfold GBDWorker.read_block. rewrite run_bind. destruct cur as [id|].
      + rewrite (block_id_cached _ _ _ id) by done.
        rewrite run_bind. eexists. unfold Drive.get_media. by erewrite execute_fault.
      + unfold block_id, with_lock. rewrite valid_idx_guard by done.
        rewrite run_bind, (mapping_get_some _ _ _ Hm).
        rewrite run_bind, run_bind. unfold Drive.children_list.
        eexists. by erewrite execute_fault. }
  set (w0 := with_que [] (with_unfinished (S (unfinished w))
    (with_bridges (<[fresh (dom (bridges w)) := mkBridge [] 0]> (bridges w)) w))).
  destruct (Hop w0 eq_refl eq_refl eq_refl) as [c Hop0].
  assert (GBDWorker.do_request gbd idx data w0 = (Raise e, with_faults rest (issued c w0)))
    as Hreq by (by apply round_raises).
  destruct (sync_io_alone gbd idx data pri w _ _ Hque Hreq)
    as (w' & Hs & Hfs & Hfa & Hc & _ & Hsl & _).
  exists c, w'. split.
  - destruct data as [d|].
    + destruct (Hdata d eq_refl) as [Hlen Hne]. by rewrite write_block_passes.
    + by rewrite read_block_passes.
  - by rewrite Hc, Hsl, Hfs, Hfa.
Qed.

Lemma remote_error_reaches_the_caller_witness :
  (∃ c w', read_block g0 0 None 0 w_failing = (Raise server_error, w') ∧
           calls w' = calls w_failing ++ [c] ∧ sleeps w' = sleeps w_failing ∧
           files w' = files w_failing ∧ faults w' = []) ∧
  (∃ c w', write_block g0 0 [Byte.x05; Byte.x06] None 0 w_failing = (Raise server_error, w') ∧
           calls w' = calls w_failing ++ [c] ∧ sleeps w' = sleeps w_failing ∧
           files w' = files w_failing ∧ faults w' = []).
Proof.
  assert (valid_idx g0 0) as Hv by (unfold valid_idx; cbn; lia).
  assert (passed_on server_error) as He by (left; discriminate).
  assert (mapping w_failing !! Z.to_nat 0 ≠ None) as Hslot by discriminate.
  split.
  - exact (remote_error_reaches_the_caller g0 0 None 0 w_failing server_error []
             Hv Hslot eq_refl He eq_refl ltac:(discriminate)).
  - refine (remote_error_reaches_the_caller g0 0 (Some [Byte.x05; Byte.x06]) 0 w_failing
              server_error [] Hv Hslot eq_refl He eq_refl _).
    intros d [= <-]. split; [reflexivity|discriminate].
Defined.

(** X5: the worker's [do_request] on an index outside [0, block_count)
    raises without a remote call and without a retry: a read raises the
    [IndexError] of [block_id], and so does a write of [block_size]
    bytes. *)
Theorem worker_rejects_invalid_index gbd idx data w :
  ¬ valid_idx gbd idx →
  (∀ d, data = Some d → len d = block_size gbd) →
  GBDWorker.do_request gbd idx data w = (Raise (IndexError "Can't map idx"), w).
Proof.
  intros Hv Hdata. apply round_raises; [|exact I].
  destruct data as [d|]; cbn [GBDWorker.block_op].
  - unfold GBDWorker.write_block.
    rewrite run_bind, len_eqb_refl by auto. cbn [assert mret M_ret].
    by rewrite run_bind, block_id_invalid.
  - unfold GBDWorker.read_block. by rewrite run_bind, block_id_invalid.
Qed.

Lemma worker_rejects_invalid_index_witness :
  GBDWorker.do_request g0 2 None w_refused5 = (Raise (IndexError "Can't map idx"), w_refused5) ∧
  GBDWorker.do_request g0 (-1) (Some [Byte.x01; Byte.x02]) w_new =
    (Raise (IndexError "Can't map idx"), w_new).
Proof.
  split.
  - apply (worker_rejects_invalid_index g0 2 None w_refused5).
    + unfold valid_idx; cbn; lia.
    + discriminate.
  - apply (worker_rejects_invalid_index g0 (-1) (Some [Byte.x01; Byte.x02]) w_new).
    + unfold valid_idx; cbn; lia.
    + by intros d [= <-].
Defined.

(** X6: the device's [write_block] takes no empty data, whatever the
    block size, also on a device whose [block_size] is 0, where the length
    is the right one and the worker's own check would let it pass. *)
Theorem empty_data_is_rejected self idx cb pri w :
  (∃ msg, write_block self idx [] cb pri w = (Raise (AssertionError msg), w)) ∧
  (block_size self = 0 → valid_idx self idx → mapping w !! Z.to_nat idx = Some None →
   quiet w → Drive.children (files w) (data_dir self) (idx_to_name idx) = [] →
   ∃ v w', GBDWorker.write_block self idx [] w = (Ret v, w')).
Proof.
  split.
  - unfold write_block. rewrite run_bind.
    destruct ((0 <=? idx) && (idx <? block_count self)); cbn; eauto.
  - intros Hbs Hv Hm Hq Hnone. do 2 eexists.
    by apply worker_write_unmapped.
Qed.

Lemma empty_data_is_rejected_witness :
  (∃ msg, write_block g_empty 0 [] None 0 w_new = (Raise (AssertionError msg), w_new)) ∧
  (∃ v w', GBDWorker.write_block g_empty 0 [] w_new = (Ret v, w')).
Proof.
  destruct (empty_data_is_rejected g_empty 0 None 0 w_new) as [Hdevice Hworker].
  split; [exact Hdevice|].
  apply Hworker; [reflexivity| |reflexivity|reflexivity|vm_compute; reflexivity].
  unfold valid_idx; cbn; lia.
Defined.

(** ** [new_block] *)

(** X7: [new_block] refuses, before any remote call and leaving the world
    as it was, an index out of range ([ValueError]), a slot that is already
    mapped ([ValueError]: it only creates, it never overwrites) and data
    whose length is not [block_size] ([AssertionError]). *)
Theorem new_block_refuses self idx data w :
  (¬ valid_idx self idx →
   new_block self idx data w = (Raise (ValueError "Index out of bound"), w)) ∧
  (valid_idx self idx → (∃ id, mapping w !! Z.to_nat idx = Some (Some id)) →
   new_block self idx data w = (Raise (ValueError "None empty mapping"), w)) ∧
  (valid_idx self idx → mapping w !! Z.to_nat idx = Some None →
   (∃ d, data = Some d ∧ len d ≠ block_size self) →
   new_block self idx data w =
     (Raise (AssertionError "len(data) == self.block_size"), w)).
Proof.
  split; [|split].
  - intros Hv. unfold new_block, with_lock.
    assert ((block_count self <=? idx) || (idx <? 0) = true) as ->
      by (unfold valid_idx in Hv; lia).
    reflexivity.
  - intros Hv [id Hm]. unfold new_block, with_lock. rewrite valid_idx_guard by done.
    by rewrite run_bind, (mapping_get_some _ _ _ Hm).
  - intros Hv Hm (d & -> & Hlen). unfold new_block, with_lock.
    rewrite valid_idx_guard by done.
    rewrite run_bind, (mapping_get_some _ _ _ Hm).
    rewrite run_bind, run_bind, (proj2 (Z.eqb_neq _ _) Hlen). reflexivity.
Qed.

Lemma new_block_refuses_witness :
  new_block g0 5 None w_new = (Raise (ValueError "Index out of bound"), w_new) ∧
  new_block g0 0 None w_cached = (Raise (ValueError "None empty mapping"), w_cached) ∧
  new_block g0 0 (Some [Byte.x01]) w_new =
    (Raise (AssertionError "len(data) == self.block_size"), w_new).
Proof.
  assert (valid_idx g0 0) as Hv by (unfold valid_idx; cbn; lia).
  assert (¬ valid_idx g0 5) as Hv5 by (unfold valid_idx; cbn; lia).
  split; [|split].
  - exact (proj1 (new_block_refuses g0 5 None w_new) Hv5).
  - apply (proj1 (proj2 (new_block_refuses g0 0 None w_cached)) Hv).
    by exists 1%positive.
  - apply (proj2 (proj2 (new_block_refuses g0 0 (Some [Byte.x01]) w_new)) Hv eq_refl).
    exists [Byte.x01]. split; [reflexivity|discriminate].
Defined.

(** X8: [new_block] without data, on a slot that holds [None] and a drive
    that answers, creates one object of [block_size] zero bytes under the
    block's name in the data folder, with an id that no object had, and
    maps the slot to it; the next [block_id] returns this id without a
    remote call, and a read returns the zero bytes. *)
Theorem new_block_allocates_zeros self idx w :
  valid_idx self idx →
  0 ≤ block_size self →
  mapping w !! Z.to_nat idx = Some None →
  quiet w →
  let id := fresh (dom (files w)) in
  let f := mkFile (idx_to_name idx) BLOCK_MIMETYPE (Some (data_dir self)) false true
             (zeros (block_size self)) in
  ∃ w1, new_block self idx None w = (Ret (PFile id f), w1) ∧
        files w !! id = None ∧
        files w1 = <[id := f]> (files w) ∧
        mapping w1 = <[Z.to_nat idx := Some id]> (mapping w) ∧
        calls w1 = calls w ++ [CallInsert (idx_to_name idx)] ∧
        block_id self idx w1 = (Ret (Some id), w1) ∧
        (GBDWorker.do_request self idx None w1).1 = Ret (PStr (zeros (block_size self))).
Proof.
  intros Hv Hbs Hm Hq id f.
  assert (files w !! id = None) as Hfresh.
  { apply not_elem_of_dom. apply is_fresh. }
  eexists. split.
  { unfold new_block, with_lock. rewrite valid_idx_guard by done.
    rewrite run_bind, (mapping_get_some _ _ _ Hm).
    rewrite run_bind. cbn [mret M_ret].
    rewrite run_bind, insert_ok by done.
    rewrite run_bind. cbn [fst snd].
    erewrite mapping_set_some by (cbn; exact Hm). reflexivity. }
  cbn [files mapping calls with_mapping with_files issued with_calls].
  assert (Z.to_nat idx < length (mapping w))%nat as Hlt by (by eapply lookup_lt_Some).
  repeat split; try done.
  - apply block_id_cached; [done|]. cbn. by apply list_lookup_insert_eq.
  - erewrite (do_request_read_stored self idx _ id f); [done|done| |done| |].
    + cbn. by apply list_lookup_insert_eq.
    + cbn. apply lookup_insert_eq.
    + cbn. by apply zeros_spec.
Qed.

Lemma new_block_allocates_zeros_witness :
  ∃ w1, new_block g0 0 None w_new =
          (Ret (PFile 1%positive (block0 [Byte.x00; Byte.x00])), w1) ∧
        block_id g0 0 w1 = (Ret (Some 1%positive), w1) ∧
        (GBDWorker.do_request g0 0 None w1).1 = Ret (PStr [Byte.x00; Byte.x00]).
Proof.
  assert (valid_idx g0 0) as Hv by (unfold valid_idx; cbn; lia).
  assert (0 ≤ block_size g0) as Hbs by (cbn; lia).
  destruct (new_block_allocates_zeros g0 0 w_new Hv Hbs eq_refl eq_refl)
    as (w1 & Hnew & _ & _ & _ & _ & Hid & Hread).
  exists w1. split; [exact Hnew|]. split; [exact Hid|exact Hread].
Defined.

(** ** Block names *)

Lemma idx_to_name_inj i j : idx_to_name i = idx_to_name j → i = j.
Proof.
  intros H. unfold idx_to_name in H. injection H as H.
  change (pretty i = pretty j) in H. by apply (inj pretty) in H.
Qed.

Lemma idx_to_name_not_config i : idx_to_name i ≠ "config".
Proof. intros H. unfold idx_to_name in H. discriminate H. Qed.

(** X9: two blocks never have the same name, and no block has the name of
    the metadata object. *)
Theorem block_names_are_distinct :
  (∀ i j, idx_to_name i = idx_to_name j → i = j) ∧
  (∀ i, idx_to_name i ≠ "config").
Proof. split; [apply idx_to_name_inj|apply idx_to_name_not_config]. Qed.

(** ** What a write does to the drive *)

Lemma nodup_at_most_one {A} (l : list A) :
  NoDup l → (length l ≤ 1)%nat ↔ (∀ x y, x ∈ l → y ∈ l → x = y).
Proof.
  intros Hnd. split.
  - destruct l as [|a [|b l]]; cbn; intros Hlen x y Hx Hy; [|
      apply list_elem_of_singleton in Hx, Hy; congruence|lia].
    by apply elem_of_nil in Hx.
  - intros Heq. destruct l as [|a [|b l]]; cbn; [lia|lia|].
    apply NoDup_cons in Hnd as [Hnotin _]. exfalso. apply Hnotin.
    rewrite (Heq a b); [apply list_elem_of_here|apply list_elem_of_here|].
    apply list_elem_of_further, list_elem_of_here.
Qed.

Lemma children_nodup fs folder t : NoDup (Drive.children fs folder t).
Proof.
  unfold Drive.children.
  apply NoDup_ListNoDup, List.NoDup_filter, NoDup_ListNoDup, NoDup_map_to_list.
Qed.

(** At most one child with a title: any two objects of the folder with
    this title have the same id. *)
Lemma children_at_most_one fs folder t :
  (length (Drive.children fs folder t) ≤ 1)%nat ↔
  (∀ i g j h,
     fs !! i = Some g → parent g = Some folder → title g = t →
     fs !! j = Some h → parent h = Some folder → title h = t → i = j).
Proof.
  rewrite (nodup_at_most_one _ (children_nodup fs folder t)). split.
  - intros Heq i g j h Hi Hpi Hti Hj Hpj Htj.
    assert ((i, g) = (j, h)) as [= -> ->]; [|done].
    apply Heq; by apply elem_of_children.
  - intros Hkey [i g] [j h] Hx Hy.
    apply elem_of_children in Hx as (Hi & Hpi & Hti).
    apply elem_of_children in Hy as (Hj & Hpj & Htj).
    assert (i = j) as -> by eauto. congruence.
Qed.

Lemma children_singleton fs folder t id f :
  (id, f) ∈ Drive.children fs folder t →
  (length (Drive.children fs folder t) ≤ 1)%nat →
  Drive.children fs folder t = [(id, f)].
Proof.
  intros Hin Hlen. destruct (Drive.children fs folder t) as [|x [|y l]]; cbn in Hlen.
  - by apply elem_of_nil in Hin.
  - by apply list_elem_of_singleton in Hin as ->.
  - lia.
Qed.

Global Instance same_but_refl t : Reflexive (same_but t).
Proof. by intros fs id f _. Qed.

Global Instance same_but_trans t : Transitive (same_but t).
Proof. intros a b c Hab Hbc id f Ht. by rewrite (Hab id f Ht), (Hbc id f Ht). Qed.

Lemma write_step_same_but gbd idx data fs fs' :
  write_step gbd idx data fs fs' → same_but (idx_to_name idx) fs fs'.
Proof.
  intros [->|id f Hid Ht Hp ->|f Hnone Ht Hp Hc ->]; [done| |]; intros i g Hg.
  - destruct (decide (i = id)) as [->|Hne]; [|by rewrite lookup_insert_ne].
    rewrite lookup_insert_eq, Hid. split; intros [= <-]; by destruct Hg.
  - destruct (decide (i = fresh (dom fs))) as [->|Hne]; [|by rewrite lookup_insert_ne].
    rewrite lookup_insert_eq. split.
    + intros Hin. exfalso. apply (is_fresh (dom fs)), elem_of_dom. by eexists.
    + intros [= <-]. by destruct Hg.
Qed.

Lemma write_step_unambiguous gbd idx data fs fs' :
  write_step gbd idx data fs fs' →
  unambiguous_files (data_dir gbd) fs → unambiguous_files (data_dir gbd) fs'.
Proof.
  intros [->|id f Hid Ht Hp ->|f Hnone Ht Hp Hc ->] Hun t; [done| |];
    specialize (Hun t); rewrite children_at_most_one in Hun |- *.
  - assert (∀ i g, <[id := set_content data f]> fs !! i = Some g →
              ∃ g', fs !! i = Some g' ∧ parent g' = parent g ∧ title g' = title g) as Hback.
    { intros i g. destruct (decide (i = id)) as [->|Hne].
      - rewrite lookup_insert_eq. intros [= <-]. by exists f.
      - rewrite lookup_insert_ne by done. intros Hi. by exists g. }
    intros i g j h Hi Hpi Hti Hj Hpj Htj.
    destruct (Hback i g Hi) as (g' & Hi' & Hpi' & Hti').
    destruct (Hback j h Hj) as (h' & Hj' & Hpj' & Htj').
    apply (Hun i g' j h'); congruence.
  - assert (∀ i g, fs !! i = Some g → parent g = Some (data_dir gbd) →
              title g = idx_to_name idx → False) as Hno.
    { intros i g Hi Hpi Hti.
      assert ((i, g) ∈ Drive.children fs (data_dir gbd) (idx_to_name idx)) as Hin
        by (by apply elem_of_children).
      rewrite Hnone in Hin. by apply elem_of_nil in Hin. }
    intros i g j h Hi Hpi Hti Hj Hpj Htj.
    destruct (decide (i = fresh (dom fs))) as [->|Hni];
      destruct (decide (j = fresh (dom fs))) as [->|Hnj]; [done| | |].
    + rewrite lookup_insert_eq in Hi. injection Hi as <-.
      rewrite lookup_insert_ne in Hj by done.
      exfalso. apply (Hno j h); congruence.
    + rewrite lookup_insert_eq in Hj. injection Hj as <-.
      rewrite lookup_insert_ne in Hi by done.
      exfalso. apply (Hno i g); congruence.
    + rewrite lookup_insert_ne in Hi, Hj by done. by apply (Hun i g j h).
Qed.

(** What [block_id] returns is what the slot holds afterwards. *)
Lemma block_id_returns_slot gbd idx w v w1 :
  block_id gbd idx w = (Ret v, w1) →
  valid_idx gbd idx ∧ mapping w1 !! Z.to_nat idx = Some v.
Proof.
  unfold block_id, with_lock.
  destruct ((block_count gbd <=? idx) || (idx <? 0)) eqn:Hg; [done|].
  rewrite run_bind. destruct (mapping_get idx w) as [[cur|e] w0]; [|done].
  rewrite run_bind.
  match goal with |- context [(?m w0)] => destruct (m w0) as [[[]|e] w2] end; [|done].
  unfold mapping_get. rewrite run_bind. cbn [gets].
  destruct (mapping w2 !! Z.to_nat idx) as [v'|] eqn:Hm; [|done].
  intros [= <- <-]. split; [unfold valid_idx; lia|done].
Qed.

(** [None] is returned only after a lookup that found no object. *)
Lemma block_id_returns_none gbd idx w w1 :
  block_id gbd idx w = (Ret None, w1) →
  Drive.children (files w) (data_dir gbd) (idx_to_name idx) = [].
Proof.
  unfold block_id, with_lock.
  destruct ((block_count gbd <=? idx) || (idx <? 0)) eqn:Hg; [done|].
  rewrite run_bind. unfold mapping_get at 1. rewrite run_bind. cbn [gets].
  destruct (mapping w !! Z.to_nat idx) as [[id|]|] eqn:Hm; cbn [mret M_ret raise];
    [| |done].
  - rewrite run_bind. cbn [mret M_ret]. rewrite (mapping_get_some _ _ _ Hm). done.
  - rewrite run_bind, run_bind. unfold Drive.children_list.
    destruct (execute_runs (CallChildrenList (data_dir gbd) (idx_to_name idx))
                (gets (λ w, Drive.children (files w) (data_dir gbd) (idx_to_name idx))) w)
      as [(e & w' & -> & _)|(w2 & -> & Hf & Hmp)]; [done|].
    cbn [gets]. rewrite Hf.
    destruct (Drive.children (files w) (data_dir gbd) (idx_to_name idx))
      as [|item [|item' items]]; [done| |done].
    rewrite <- Hmp in Hm.
    rewrite (mapping_set_some idx (Some item.1) w2 None Hm). cbn iota.
    unfold mapping_get. rewrite run_bind. cbn [gets mapping with_mapping].
    rewrite list_lookup_insert_eq by (by eapply lookup_lt_Some). done.
Qed.

Lemma update_files id data w :
  files (Drive.update id data w).2 = files w ∨
  ∃ f, files w !! id = Some f ∧
       files (Drive.update id data w).2 = <[id := set_content data f]> (files w).
Proof.
  unfold Drive.update.
  destruct (execute_runs (CallUpdate id)
              (f ← gets (λ w, files w !! id);
               match f with
               | Some f =>
                   modify (λ w, with_files (<[id := set_content data f]> (files w)) w);;
                   mret (PFile id (set_content data f))
               | None => raise (HttpError 404 (BodyReason "notFound"))
               end) w)
    as [(e & w' & -> & Hf & _)|(w1 & -> & Hf & _)]; [by left|].
  rewrite run_bind. cbn [gets]. rewrite Hf.
  destruct (files w !! id) as [f|] eqn:Hid; [|by left].
  right. exists f. split; [done|]. rewrite run_bind. cbn. by rewrite Hf.
Qed.

Lemma new_block_files gbd idx d w :
  files (new_block gbd idx (Some d) w).2 = files w ∨
  files (new_block gbd idx (Some d) w).2 =
    <[fresh (dom (files w)) :=
        mkFile (idx_to_name idx) BLOCK_MIMETYPE (Some (data_dir gbd)) false true d]>
      (files w).
Proof.
  enough (∀ r, r = new_block gbd idx (Some d) w →
            files r.2 = files w ∨
            files r.2 =
              <[fresh (dom (files w)) :=
                  mkFile (idx_to_name idx) BLOCK_MIMETYPE (Some (data_dir gbd)) false true d]>
                (files w)) by eauto.
  intros r Hr. unfold new_block, with_lock in Hr.
  destruct ((block_count gbd <=? idx) || (idx <? 0)); [subst r; by left|].
  rewrite run_bind in Hr. unfold mapping_get at 1 in Hr. rewrite run_bind in Hr.
  cbn [gets] in Hr.
  destruct (mapping w !! Z.to_nat idx) as [[id|]|]; cbn [mret M_ret raise] in Hr;
    [subst r; by left| |subst r; by left].
  rewrite run_bind, run_bind in Hr.
  destruct (len d =? block_size gbd); cbn [assert mret M_ret raise] in Hr;
    [|subst r; by left].
  rewrite run_bind in Hr. unfold Drive.insert in Hr.
  match type of Hr with context [Drive.execute ?c ?m w] =>
    destruct (execute_runs c m w) as [(e & w' & He & Hf & _)|(w1 & He & Hf & _)];
    rewrite He in Hr
  end; [subst r; by left|].
  rewrite run_bind in Hr. cbn [gets] in Hr. rewrite run_bind in Hr.
  cbn [modify mret M_ret] in Hr. rewrite run_bind in Hr. cbn [fst snd] in Hr.
  rewrite Hf in Hr.
  match type of Hr with context [mapping_set ?i ?v ?x] =>
    destruct (mapping_set_cases i v x) as [[e Hs]|Hs]; rewrite Hs in Hr
  end; subst r; by right.
Qed.

Lemma write_block_step gbd idx data w :
  consistent gbd w →
  write_step gbd idx data (files w) (files (GBDWorker.write_block gbd idx data w).2).
Proof.
  intros Hc. unfold GBDWorker.write_block. rewrite run_bind.
  destruct (len data =? block_size gbd); cbn [assert mret M_ret raise];
    [|by apply write_step_none].
  rewrite run_bind.
  pose proof (block_id_preserves_files gbd idx w) as Hfs.
  pose proof (block_id_keeps_consistent gbd idx w Hc) as Hc1.
  destruct (block_id gbd idx w) as [[[id|]|e] w1] eqn:Hb; cbn in Hfs, Hc1.
  - destruct (block_id_returns_slot _ _ _ _ _ Hb) as [Hv Hm].
    destruct Hc1 as [_ Hc1]. destruct (Hc1 idx id) as [f Hin]; [apply Hv|done|].
    rewrite Hfs in Hin. apply elem_of_children in Hin as (Hid & Hp & Ht).
    destruct (update_files id data w1) as [Hu|(f' & Hid' & Hu)]; rewrite Hu, Hfs.
    + by apply write_step_none.
    + rewrite Hfs in Hid'. assert (f' = f) as -> by congruence.
      by eapply write_step_update.
  - apply block_id_returns_none in Hb.
    destruct (new_block_files gbd idx data w1) as [Hn|Hn]; rewrite Hn, Hfs.
    + by apply write_step_none.
    + apply (write_step_create gbd idx data _ _
               (mkFile (idx_to_name idx) BLOCK_MIMETYPE (Some (data_dir gbd)) false true data));
        done.
  - apply write_step_none. exact Hfs.
Qed.

(** A round of [do_request] ends in the world that its attempt leaves, or
    goes on to the next round after the back-off. *)
Lemma round_cases gbd idx data rnd rnds w :
  (∃ r, GBDWorker.do_request_rounds (rnd :: rnds) gbd idx data w =
        (r, (GBDWorker.block_op gbd idx data w).2)) ∨
  GBDWorker.do_request_rounds (rnd :: rnds) gbd idx data w =
  GBDWorker.do_request_rounds rnds gbd idx data
    (backed_off rnd (GBDWorker.block_op gbd idx data w).2).
Proof.
  destruct (GBDWorker.block_op gbd idx data w) as [[v|e] w1] eqn:Hop; cbn [snd].
  { left. eexists. by apply round_returns. }
  destruct e as [status body| | | | | | | | |];
    try (left; eexists; cbn [GBDWorker.do_request_rounds]; unfold try_except;
         rewrite Hop; reflexivity).
  destruct (decide (status = 403)) as [->|Hne].
  - destruct body as [reason|k].
    + destruct (decide (reason ∈ ["rateLimitExceeded"; "userRateLimitExceeded"]))
        as [Hin|Hnin].
      * right. eapply round_refused; [exact Hop|]. by exists reason.
      * left. eexists. apply round_raises; [done|]. right. by exists reason.
    + left. destruct (round_malformed gbd idx data rnd rnds w k w1 Hop) as (e' & He' & _).
      by exists (Raise e').
  - left. eexists. apply round_raises; [done|]. by left.
Qed.

Lemma consistent_backed_off gbd rnd w : consistent gbd w → consistent gbd (backed_off rnd w).
Proof. by apply consistent_same. Qed.

(** What holds of the drive's objects after each attempt, and composes,
    holds after [do_request]. *)
Lemma do_request_files_rel (R : relation (gmap file_id File)) gbd idx data :
  Reflexive R → Transitive R →
  (∀ w, consistent gbd w →
        R (files w) (files (GBDWorker.block_op gbd idx data w).2)) →
  ∀ w, consistent gbd w →
       R (files w) (files (GBDWorker.do_request gbd idx data w).2).
Proof.
  intros Hrefl Htrans Hop. unfold GBDWorker.do_request.
  induction GBDWorker.xrange5 as [|rnd rnds IH]; intros w Hc; [reflexivity|].
  pose proof (block_op_keeps_consistent gbd idx data w Hc) as Hc1.
  destruct (round_cases gbd idx data rnd rnds w) as [[r ->]| ->].
  - by apply Hop.
  - transitivity (files (GBDWorker.block_op gbd idx data w).2); [by apply Hop|].
    apply (IH (backed_off rnd (GBDWorker.block_op gbd idx data w).2)).
    by apply consistent_backed_off.
Qed.

Lemma block_op_step_rel (R : relation (gmap file_id File)) gbd idx data :
  Reflexive R →
  (∀ d fs fs', write_step gbd idx d fs fs' → R fs fs') →
  ∀ w, consistent gbd w →
       R (files w) (files (GBDWorker.block_op gbd idx data w).2).
Proof.
  intros Hrefl Hstep w Hc. destruct data as [d|]; cbn [GBDWorker.block_op].
  - by eapply Hstep, write_block_step.
  - by rewrite read_block_preserves_files.
Qed.

(** X10: whatever the drive answers, a work item for a block leaves every
    object that does not bear the block's name as it is and creates no
    such object: the objects of the other blocks and the metadata object
    are out of its reach. *)
Theorem work_item_touches_only_its_block gbd idx data w :
  consistent gbd w →
  let w' := (GBDWorker.do_request gbd idx data w).2 in
  same_but (idx_to_name idx) (files w) (files w') ∧
  (∀ id f, title f = "config" → (files w !! id = Some f ↔ files w' !! id = Some f)) ∧
  (∀ j id f, j ≠ idx → title f = idx_to_name j →
             (files w !! id = Some f ↔ files w' !! id = Some f)).
Proof.
  intros Hc w'.
  assert (same_but (idx_to_name idx) (files w) (files w')) as Hsame.
  { apply (do_request_files_rel (same_but (idx_to_name idx))); try done; try apply _.
    apply block_op_step_rel; [apply _|]. intros d fs fs'. apply write_step_same_but. }
  split; [exact Hsame|]. split.
  - intros id f Ht. apply Hsame. rewrite Ht. intros Heq.
    by apply (idx_to_name_not_config idx).
  - intros j id f Hj Ht. apply Hsame. rewrite Ht. intros Heq.
    by apply idx_to_name_inj in Heq.
Qed.

Lemma consistent_w_full : consistent g0 w_full.
Proof.
  split; [reflexivity|]. intros idx id Hidx Hm. cbn in Hm.
  destruct (Z.to_nat idx) as [|[|n]] eqn:Hn; [|discriminate..].
  assert (idx = 0) as -> by lia. injection Hm as <-.
  exists (block0 [Byte.x01; Byte.x02]). vm_compute. apply list_elem_of_here.
Qed.

Lemma work_item_touches_only_its_block_witness :
  let w' := (GBDWorker.do_request g0 0 (Some [Byte.x05; Byte.x06]) w_full).2 in
  files w' !! 8%positive = Some (config_file Byte.x01) ∧
  files w' !! 2%positive = Some (block1 [Byte.x03; Byte.x04]).
Proof.
  destruct (work_item_touches_only_its_block g0 0 (Some [Byte.x05; Byte.x06]) w_full
              consistent_w_full) as (_ & Hmeta & Hother).
  split.
  - by apply (Hmeta 8%positive (config_file Byte.x01) eq_refl).
  - by apply (Hother 1 2%positive (block1 [Byte.x03; Byte.x04])).
Defined.

(** ** No block gets a second object *)

Lemma sound_same gbd w w' :
  files w' = files w → mapping w' = mapping w → sound gbd w → sound gbd w'.
Proof.
  intros Hf Hm [Hc Hu]. split; [by eapply consistent_same|].
  unfold unambiguous. by rewrite Hf.
Qed.

Lemma sound_preserved gbd {A} (m : M A) w :
  preserves (λ w, (files w, mapping w)) m → sound gbd w → sound gbd (m w).2.
Proof.
  intros Hm Hs. specialize (Hm w). cbn in Hm. injection Hm as Hf Hmp.
  by eapply sound_same.
Qed.

Lemma do_request_sound gbd idx data w :
  sound gbd w → sound gbd (GBDWorker.do_request gbd idx data w).2.
Proof.
  intros [Hc Hu]. split; [by apply do_request_keeps_consistent|].
  set (R := λ fs fs' : gmap file_id File,
              unambiguous_files (data_dir gbd) fs → unambiguous_files (data_dir gbd) fs').
  assert (Reflexive R) as Hrefl by (intros fs Hfs; exact Hfs).
  assert (Transitive R) as Htrans by (intros a b c Hab Hbc Ha; apply Hbc, Hab, Ha).
  assert (∀ w0, consistent gbd w0 →
                R (files w0) (files (GBDWorker.block_op gbd idx data w0).2)) as Hop.
  { apply block_op_step_rel; [done|]. intros d fs fs' Hstep.
    exact (write_step_unambiguous gbd idx d fs fs' Hstep). }
  by apply (do_request_files_rel R gbd idx data Hrefl Htrans Hop w Hc).
Qed.

Lemma run_item_sound gbd it w : sound gbd w → sound gbd (GBDWorker.run_item gbd it w).2.
Proof.
  intros Hs. destruct it as [[idx data] cb]. unfold GBDWorker.run_item.
  rewrite run_bind. unfold try_except at 1. rewrite run_bind.
  pose proof (do_request_sound gbd idx data w Hs) as Hs1.
  assert (∀ err ret w1, sound gbd w1 →
      sound gbd (try_finally
        (try_except
           (match cb with
            | Some cb => GBDWorker.call_sink cb err ret
            | None => mret tt
            end)
           (λ _ : exn, mret tt))
        TimedPriorityQueue.task_done w1).2) as Htail.
  { intros err ret w1. apply sound_preserved.
    intros w2. unfold try_finally, try_except, GBDWorker.call_sink.
    destruct cb as [[name behaviour|k]|]; cbn; [|done..].
    by destruct (behaviour err ret). }
  destruct (GBDWorker.do_request gbd idx data w) as [[v|e] w1]; cbn in *; by apply Htail.
Qed.

(** X11: the device never makes a duplicate.  When the handle agrees with
    the drive and no title occurs twice in the data folder, this is still
    so after any number of turns of the worker, on any queue and whatever
    the drive answers: a second object under a block's name can only come
    from outside. *)
Theorem worker_never_duplicates_a_block gbd n w :
  consistent gbd w →
  unambiguous gbd w →
  consistent gbd (GBDWorker.run n gbd w).2 ∧ unambiguous gbd (GBDWorker.run n gbd w).2.
Proof.
  intros Hc Hu. assert (sound gbd w) as Hs by done. clear Hc Hu.
  revert w Hs. induction n as [|n IH]; intros w Hs; [done|].
  cbn [GBDWorker.run]. rewrite run_bind.
  assert (sound gbd (GBDWorker.run_turn gbd w).2) as Hs1.
  { unfold GBDWorker.run_turn. rewrite run_bind. unfold TimedPriorityQueue.get.
    destruct (que w) as [|[p it] rest]; [done|].
    apply run_item_sound. by eapply sound_same. }
  destruct (GBDWorker.run_turn gbd w) as [[[]|e] w1]; cbn in *; [by apply IH|done].
Qed.

Lemma unambiguous_w_full : unambiguous g0 w_full.
Proof.
  intros t. apply children_at_most_one. intros i g j h Hi Hpi Hti Hj Hpj Htj.
  assert (title g = title h) as Ht by congruence. clear Hti Htj Hpi Hpj.
  apply elem_of_map_to_list, list_elem_of_In in Hi, Hj.
  vm_compute in Hi, Hj.
  destruct Hi as [Hi|[Hi|[Hi|[]]]]; destruct Hj as [Hj|[Hj|[Hj|[]]]];
    injection Hi as <- <-; injection Hj as <- <-; first [reflexivity|discriminate Ht].
Qed.

Lemma worker_never_duplicates_a_block_witness :
  consistent g0 (GBDWorker.run 2 g0 w_busy).2 ∧ unambiguous g0 (GBDWorker.run 2 g0 w_busy).2.
Proof.
  apply (worker_never_duplicates_a_block g0 2 w_busy).
  - exact consistent_w_full.
  - exact unambiguous_w_full.
Defined.

(** ** A write and the other blocks *)

Lemma fills_slot_trans idx w w1 w2 :
  fills_slot idx w w1 → fills_slot idx w1 w2 → fills_slot idx w w2.
Proof.
  intros [H1|(Hn1 & id1 & H1)] [H2|(Hn2 & id2 & H2)].
  - left. congruence.
  - right. rewrite H1 in Hn2, H2. eauto.
  - right. rewrite H1 in H2. eauto.
  - exfalso. rewrite H1 in Hn2.
    rewrite list_lookup_insert_eq in Hn2 by (by eapply lookup_lt_Some). done.
Qed.

Lemma fills_preserves {A} idx (m : M A) : preserves mapping m → fills idx m.
Proof. intros Hm w. left. apply Hm. Qed.

Lemma fills_bind {A B} idx (m : M A) (f : A → M B) :
  fills idx m → (∀ a, fills idx (f a)) → fills idx (m ≫= f).
Proof.
  intros Hm Hf w. rewrite run_bind. specialize (Hm w).
  destruct (m w) as [[a|e] w']; cbn in *; [|done].
  eapply fills_slot_trans; [exact Hm|apply Hf].
Qed.

Lemma fills_try_except {A} idx (m : M A) (h : exn → M A) :
  fills idx m → (∀ e, fills idx (h e)) → fills idx (try_except m h).
Proof.
  intros Hm Hh w. unfold try_except. specialize (Hm w).
  destruct (m w) as [[a|e] w']; cbn in *; [done|].
  eapply fills_slot_trans; [exact Hm|apply Hh].
Qed.

Lemma block_op_fills gbd idx data : fills idx (GBDWorker.block_op gbd idx data).
Proof.
  destruct data as [data|]; cbn [GBDWorker.block_op].
  - unfold GBDWorker.write_block.
    apply fills_bind; [apply fills_preserves, preserves_assert|intros _].
    apply fills_bind; [intros w; apply block_id_fills|intros [blkid|]].
    + apply fills_preserves. unfold Drive.update. preserves_tac.
    + intros w. apply new_block_fills.
  - unfold GBDWorker.read_block.
    apply fills_bind; [intros w; apply block_id_fills|intros [blkid|]].
    + apply fills_preserves. unfold Drive.get_media. preserves_tac.
    + apply fills_preserves, preserves_ret.
Qed.

Lemma do_request_fills gbd idx data : fills idx (GBDWorker.do_request gbd idx data).
Proof.
  unfold GBDWorker.do_request.
  induction GBDWorker.xrange5 as [|rnd rnds IH]; cbn [GBDWorker.do_request_rounds].
  - apply fills_preserves, preserves_ret.
  - apply fills_try_except; [apply block_op_fills|]. intros e.
    destruct e as [status body| | | | | | | | |];
      try apply fills_preserves, preserves_raise.
    case_match; [|apply fills_preserves, preserves_raise].
    apply fills_bind; [apply fills_preserves; destruct body as [|[]]; preserves_tac|].
    intros reason. case_match; [|apply fills_preserves, preserves_raise].
    apply fills_bind; [by apply fills_preserves|]. intros r.
    apply fills_bind; [by apply fills_preserves|]. intros _. apply IH.
Qed.

(** A work item for a block leaves the slots of the other blocks alone. *)
Lemma do_request_other_slot gbd i j data w :
  0 ≤ i → 0 ≤ j → i ≠ j →
  mapping (GBDWorker.do_request gbd i data w).2 !! Z.to_nat j = mapping w !! Z.to_nat j.
Proof.
  intros Hi Hj Hij. destruct (do_request_fills gbd i data w) as [->|(_ & id & ->)]; [done|].
  apply list_lookup_insert_ne. lia.
Qed.

Lemma children_same_but fs fs' folder t t' :
  same_but t' fs fs' → t ≠ t' →
  Drive.children fs folder t ≡ₚ Drive.children fs' folder t.
Proof.
  intros Hsame Hne. apply NoDup_Permutation; [apply children_nodup..|].
  intros [i g]. rewrite !elem_of_children. split; intros (Hi & Hp & Ht);
    (split; [|done]); apply (Hsame i g); congruence.
Qed.

(** What a read of a block returns depends on the slot of the block and on
    the objects that bear its name. *)
Lemma read_block_agrees gbd j t w w' :
  consistent gbd w → quiet w → quiet w' →
  mapping w' !! Z.to_nat j = mapping w !! Z.to_nat j →
  same_but t (files w) (files w') →
  idx_to_name j ≠ t →
  (GBDWorker.read_block gbd j w').1 = (GBDWorker.read_block gbd j w).1.
Proof.
  intros Hc Hq Hq' Hm Hsame Hne.
  destruct (decide (valid_idx gbd j)) as [Hv|Hv].
  2:{ unfold GBDWorker.read_block. by rewrite !run_bind, !block_id_invalid. }
  destruct (consistent_slot gbd w j Hc Hv) as [[id|] Hs]; rewrite Hs in Hm.
  - destruct Hc as [_ Hc]. destruct (Hc j id) as [f Hin]; [apply Hv|done|].
    apply elem_of_children in Hin as (Hid & Hp & Ht).
    assert (files w' !! id = Some f) as Hid' by (apply (Hsame id f); congruence).
    unfold GBDWorker.read_block.
    rewrite !run_bind, !(block_id_cached _ _ _ id) by done.
    rewrite !run_bind, (get_media_ok id w f), (get_media_ok id w' f) by done.
    rewrite !run_bind. by destruct (len (content f) =? block_size gbd).
  - pose proof (children_same_but (files w) (files w') (data_dir gbd) (idx_to_name j) t
                  Hsame Hne) as Hperm.
    unfold GBDWorker.read_block.
    rewrite !run_bind, !block_id_lookup by done.
    destruct (Drive.children (files w) (data_dir gbd) (idx_to_name j))
      as [|[id f] [|y l]] eqn:Hl.
    + apply Permutation_nil_l in Hperm. by rewrite <- Hperm.
    + apply Permutation_singleton_l in Hperm. rewrite <- Hperm. cbn [fst].
      assert (files w !! id = Some f) as Hid.
      { eapply (elem_of_children _ (data_dir gbd) (idx_to_name j)).
        rewrite Hl. apply list_elem_of_here. }
      assert (files w' !! id = Some f) as Hid'.
      { eapply (elem_of_children _ (data_dir gbd) (idx_to_name j)).
        rewrite <- Hperm. apply list_elem_of_here. }
      rewrite !run_bind.
      erewrite !get_media_ok by (cbn; done).
      rewrite !run_bind. by destruct (len (content f) =? block_size gbd).
    + pose proof (Permutation_length Hperm) as Hlen.
      destruct (Drive.children (files w') (data_dir gbd) (idx_to_name j))
        as [|x' [|y' l']]; [done..|]. reflexivity.
Qed.

(** X12: a write of one block does not change what a read of another
    block returns, whether it returns data or raises. *)
Theorem write_leaves_other_blocks_alone gbd i j data w :
  valid_idx gbd i → valid_idx gbd j → i ≠ j →
  consistent gbd w →
  quiet w →
  (GBDWorker.do_request gbd j None (GBDWorker.do_request gbd i (Some data) w).2).1 =
  (GBDWorker.do_request gbd j None w).1.
Proof.
  intros Hi Hj Hij Hc Hq.
  destruct (do_request_calm gbd i (Some data) w Hq) as [Hq1 _].
  pose proof (do_request_other_slot gbd i j (Some data) w (proj1 Hi) (proj1 Hj) Hij) as Hslot.
  assert (same_but (idx_to_name i) (files w)
            (files (GBDWorker.do_request gbd i (Some data) w).2)) as Hsame.
  { apply (do_request_files_rel (same_but (idx_to_name i))); try done; try apply _.
    apply block_op_step_rel; [apply _|]. intros d fs fs'. apply write_step_same_but. }
  set (w1 := (GBDWorker.do_request gbd i (Some data) w).2) in *.
  rewrite (do_request_quiet gbd j None w1), (do_request_quiet gbd j None w) by done.
  cbn [GBDWorker.block_op].
  apply (read_block_agrees gbd j (idx_to_name i)); try done.
  intros Heq. by apply idx_to_name_inj in Heq.
Qed.

Lemma write_leaves_other_blocks_alone_witness :
  (GBDWorker.do_request g0 1 None
     (GBDWorker.do_request g0 0 (Some [Byte.x05; Byte.x06]) w_full).2).1 =
  (GBDWorker.do_request g0 1 None w_full).1 ∧
  (GBDWorker.do_request g0 1 None w_full).1 = Ret (PStr [Byte.x03; Byte.x04]).
Proof.
  split.
  - apply (write_leaves_other_blocks_alone g0 0 1 [Byte.x05; Byte.x06] w_full).
    + unfold valid_idx; cbn; lia.
    + unfold valid_idx; cbn; lia.
    + discriminate.
    + exact consistent_w_full.
    + reflexivity.
  - vm_compute. reflexivity.
Defined.

(** ** Writing a block twice *)

(** X13: after two writes of a block the block holds the data of the
    second one: the second write changes the object that the first one
    left, the drive has the same ids as before it, the block's name is
    borne by this one object, and a read returns the second data. *)
Theorem second_write_overwrites gbd idx d1 d2 w :
  valid_idx gbd idx →
  len d1 = block_size gbd → len d2 = block_size gbd →
  consistent gbd w → unambiguous gbd w →
  quiet w →
  ∃ v1 w1 v2 w2 id f,
    GBDWorker.do_request gbd idx (Some d1) w = (Ret v1, w1) ∧
    GBDWorker.do_request gbd idx (Some d2) w1 = (Ret v2, w2) ∧
    dom (files w2) = dom (files w1) ∧
    Drive.children (files w2) (data_dir gbd) (idx_to_name idx) = [(id, f)] ∧
    content f = d2 ∧
    (GBDWorker.do_request gbd idx None w2).1 = Ret (PStr d2).
Proof.
  intros Hv Hl1 Hl2 Hc Hu Hq.
  destruct (do_request_write_stores gbd idx d1 w Hv Hl1 Hc Hq (Hu _))
    as (v1 & w1 & id & f1 & Hw1 & Hq1 & Hm1 & Hid1 & _).
  assert (sound gbd w1) as [Hc1 Hu1].
  { pose proof (do_request_sound gbd idx (Some d1) w (conj Hc Hu)) as Hs.
    by rewrite Hw1 in Hs. }
  pose proof (round_returns gbd idx (Some d2) 0 [1; 2; 3; 4] w1 _ _
                (worker_write_cached gbd idx d2 w1 id f1 Hv Hl2 Hm1 Hq1 Hid1)) as Hw2.
  change (GBDWorker.do_request gbd idx (Some d2) w1 =
          (Ret (PFile id (set_content d2 f1)),
           with_files (<[id := set_content d2 f1]> (files w1)) (issued (CallUpdate id) w1)))
    in Hw2.
  set (w2 := with_files (<[id := set_content d2 f1]> (files w1)) (issued (CallUpdate id) w1))
    in *.
  assert (sound gbd w2) as [Hc2 Hu2].
  { pose proof (do_request_sound gbd idx (Some d2) w1 (conj Hc1 Hu1)) as Hs.
    by rewrite Hw2 in Hs. }
  assert (files w2 !! id = Some (set_content d2 f1)) as Hid2 by apply lookup_insert_eq.
  exists v1, w1, (PFile id (set_content d2 f1)), w2, id, (set_content d2 f1).
  split; [exact Hw1|]. split; [exact Hw2|]. split; [|split; [|split]].
  - cbn. apply dom_insert_lookup_L. by eexists.
  - destruct Hc2 as [_ Hc2]. destruct (Hc2 idx id) as [f Hin]; [apply Hv|exact Hm1|].
    pose proof Hin as Hin'. apply elem_of_children in Hin' as (Hf & _).
    assert (f = set_content d2 f1) as -> by congruence.
    apply children_singleton; [exact Hin|apply Hu2].
  - reflexivity.
  - erewrite (do_request_read_stored gbd idx w2 id (set_content d2 f1)); done.
Qed.

Lemma second_write_overwrites_witness :
  ∃ v1 w1 v2 w2 id f,
    GBDWorker.do_request g0 0 (Some [Byte.x05; Byte.x06]) w_new = (Ret v1, w1) ∧
    GBDWorker.do_request g0 0 (Some [Byte.x07; Byte.x08]) w1 = (Ret v2, w2) ∧
    dom (files w2) = dom (files w1) ∧
    Drive.children (files w2) (data_dir g0) (idx_to_name 0) = [(id, f)] ∧
    content f = [Byte.x07; Byte.x08] ∧
    (GBDWorker.do_request g0 0 None w2).1 = Ret (PStr [Byte.x07; Byte.x08]).
Proof.
  apply (second_write_overwrites g0 0 [Byte.x05; Byte.x06] [Byte.x07; Byte.x08] w_new).
  - unfold valid_idx; cbn; lia.
  - reflexivity.
  - reflexivity.
  - exact consistent_w_new.
  - intros t. vm_compute. lia.
  - reflexivity.
Defined.

(** ** Finding and creating the data folder *)

Lemma nodup_singleton {A} (l : list A) a :
  NoDup l → (∀ x, x ∈ l ↔ x = a) → l = [a].
Proof.
  intros Hnd Hel. destruct l as [|x [|y l]].
  - exfalso. eapply elem_of_nil, Hel. reflexivity.
  - f_equal. apply Hel, list_elem_of_here.
  - exfalso. apply NoDup_cons in Hnd as [Hnotin _]. apply Hnotin.
    assert (x = a) as -> by apply Hel, list_elem_of_here.
    assert (y = a) as -> by apply Hel, list_elem_of_further, list_elem_of_here.
    apply list_elem_of_here.
Qed.

Lemma elem_of_candidates cfg fs id f :
  (id, f) ∈ candidates cfg fs ↔
  fs !! id = Some f ∧ title f = gbd_data_folder cfg ∧ trashed f = false.
Proof.
  unfold candidates, Drive.titled_files.
  rewrite list_elem_of_In, !filter_In, <- list_elem_of_In, elem_of_map_to_list.
  unfold Drive.titled. cbn. rewrite bool_decide_eq_true, negb_true_iff. tauto.
Qed.

Lemma candidates_nodup cfg fs : NoDup (candidates cfg fs).
Proof.
  unfold candidates, Drive.titled_files.
  apply NoDup_ListNoDup, List.NoDup_filter, List.NoDup_filter, NoDup_ListNoDup,
    NoDup_map_to_list.
Qed.

Lemma get_data_dir_quiet cfg w :
  quiet w →
  get_data_dir cfg w =
  match candidates cfg (files w) with
  | [] =>
      if negb (default false (create cfg))
      then (Raise (RuntimeError "Can't locate folder"), issued (CallFilesList (gbd_data_folder cfg)) w)
      else create_data_dir cfg (issued (CallFilesList (gbd_data_folder cfg)) w)
  | [item] =>
      (if negb (bool_decide (mimeType item.2 = FOLDER_MIMETYPE))
       then Raise (AssertionError "not a folder")
       else if negb (editable item.2)
       then Raise (RuntimeError "folder is readonly")
       else Ret item.1,
       issued (CallFilesList (gbd_data_folder cfg)) w)
  | _ => (Raise (AssertionError "don't know which to use"),
          issued (CallFilesList (gbd_data_folder cfg)) w)
  end.
Proof.
  intros Hq. unfold get_data_dir. rewrite run_bind. unfold Drive.files_list.
  rewrite execute_ok by done. cbn [gets]. fold (candidates cfg (files w)).
  change (files (issued (CallFilesList (gbd_data_folder cfg)) w)) with (files w).
  fold (candidates cfg (files w)).
  destruct (candidates cfg (files w)) as [|item [|item' items]]; [|..|done].
  - by destruct (negb (default false (create cfg))).
  - destruct (negb (bool_decide (mimeType item.2 = FOLDER_MIMETYPE))); [done|].
    by destruct (negb (editable item.2)).
Qed.

(** X14: [get_data_dir] on a drive that answers.  Of the objects with the
    folder's title, those in the bin do not count.  One candidate that is
    a folder and may be written gives its id; one that is no folder, or
    more than one candidate, raise [AssertionError]; a folder that may not
    be written raises [RuntimeError]; and so does the lack of a candidate
    unless [create] is set.  In none of these cases an object is made or
    changed. *)
Theorem get_data_dir_classifies cfg w :
  quiet w →
  let found := candidates cfg (files w) in
  let w1 := issued (CallFilesList (gbd_data_folder cfg)) w in
  (∀ id f, found = [(id, f)] → mimeType f = FOLDER_MIMETYPE → editable f = true →
     get_data_dir cfg w = (Ret id, w1)) ∧
  (∀ id f, found = [(id, f)] → mimeType f ≠ FOLDER_MIMETYPE →
     get_data_dir cfg w = (Raise (AssertionError "not a folder"), w1)) ∧
  (∀ id f, found = [(id, f)] → mimeType f = FOLDER_MIMETYPE → editable f = false →
     get_data_dir cfg w = (Raise (RuntimeError "folder is readonly"), w1)) ∧
  ((1 < length found)%nat →
     get_data_dir cfg w = (Raise (AssertionError "don't know which to use"), w1)) ∧
  (found = [] → create cfg ≠ Some true →
     get_data_dir cfg w = (Raise (RuntimeError "Can't locate folder"), w1)).
Proof.
  intros Hq found w1. pose proof (get_data_dir_quiet cfg w Hq) as Hg.
  fold found w1 in Hg. repeat split.
  - intros id f Hf Hm He. rewrite Hg, Hf. cbn [snd fst].
    by rewrite bool_decide_eq_true_2, He.
  - intros id f Hf Hm. rewrite Hg, Hf. cbn [snd fst].
    by rewrite bool_decide_eq_false_2.
  - intros id f Hf Hm He. rewrite Hg, Hf. cbn [snd fst].
    by rewrite bool_decide_eq_true_2, He.
  - intros Hlen. rewrite Hg. destruct found as [|? [|? ?]]; cbn in Hlen; [lia|lia|done].
  - intros Hf Hcr. rewrite Hg, Hf.
    destruct (create cfg) as [[]|]; [done|done..].
Qed.

Lemma get_data_dir_classifies_witness :
  get_data_dir cfg0 (w_closed Byte.x01) =
    (Ret 7%positive, issued (CallFilesList "gbd") (w_closed Byte.x01)) ∧
  get_data_dir cfg0 w_not_folder =
    (Raise (AssertionError "not a folder"), issued (CallFilesList "gbd") w_not_folder) ∧
  get_data_dir cfg0 w_readonly =
    (Raise (RuntimeError "folder is readonly"), issued (CallFilesList "gbd") w_readonly) ∧
  get_data_dir cfg0 w_two_folders =
    (Raise (AssertionError "don't know which to use"),
     issued (CallFilesList "gbd") w_two_folders) ∧
  get_data_dir cfg0 w_blank =
    (Raise (RuntimeError "Can't locate folder"), issued (CallFilesList "gbd") w_blank).
Proof.
  destruct (get_data_dir_classifies cfg0 (w_closed Byte.x01) eq_refl) as (H1 & _).
  destruct (get_data_dir_classifies cfg0 w_not_folder eq_refl) as (_ & H2 & _).
  destruct (get_data_dir_classifies cfg0 w_readonly eq_refl) as (_ & _ & H3 & _).
  destruct (get_data_dir_classifies cfg0 w_two_folders eq_refl) as (_ & _ & _ & H4 & _).
  destruct (get_data_dir_classifies cfg0 w_blank eq_refl) as (_ & _ & _ & _ & H5).
  split; [|split; [|split; [|split]]].
  - apply (H1 7%positive folder7); [vm_compute; reflexivity|reflexivity|reflexivity].
  - apply (H2 7%positive (mkFile "gbd" BLOCK_MIMETYPE None false true []));
      [vm_compute; reflexivity|discriminate].
  - apply (H3 7%positive (mkFile "gbd" FOLDER_MIMETYPE None false false []));
      [vm_compute; reflexivity|reflexivity|reflexivity].
  - apply H4. vm_compute. lia.
  - apply H5; [vm_compute; reflexivity|discriminate].
Defined.

(** X15: when the drive has no candidate and [create] is set,
    [get_data_dir] makes an empty folder in the root under a new id and
    returns the id; from then on [get_data_dir] finds this folder, with or
    without [create], and makes nothing. *)
Theorem get_data_dir_creates_once cfg cfg' w :
  quiet w →
  candidates cfg (files w) = [] →
  create cfg = Some true →
  gbd_data_folder cfg' = gbd_data_folder cfg →
  let id := fresh (dom (files w)) in
  let folder := mkFile (gbd_data_folder cfg) FOLDER_MIMETYPE None false true [] in
  ∃ w1 w2,
    get_data_dir cfg w = (Ret id, w1) ∧
    files w !! id = None ∧
    files w1 = <[id := folder]> (files w) ∧
    get_data_dir cfg' w1 = (Ret id, w2) ∧
    files w2 = files w1.
Proof.
  intros Hq Hnone Hcr Hname id folder.
  assert (files w !! id = None) as Hfresh by apply not_elem_of_dom, is_fresh.
  set (w0 := issued (CallFilesList (gbd_data_folder cfg)) w).
  set (w1 := with_files (<[id := folder]> (files w))
               (issued (CallInsert (gbd_data_folder cfg)) w0)).
  assert (get_data_dir cfg w = (Ret id, w1)) as Hg.
  { rewrite get_data_dir_quiet, Hnone, Hcr by done. cbn [negb default].
    unfold create_data_dir. rewrite run_bind, insert_ok by done. reflexivity. }
  assert (candidates cfg' (files w1) = [(id, folder)]) as Hone.
  { apply nodup_singleton; [apply candidates_nodup|].
    intros [i g]. rewrite elem_of_candidates. cbn [files with_files w1]. split.
    - intros (Hi & Ht & Htr). destruct (decide (i = id)) as [->|Hne].
      + rewrite lookup_insert_eq in Hi. by injection Hi as <-.
      + rewrite lookup_insert_ne in Hi by done. exfalso.
        assert ((i, g) ∈ candidates cfg (files w)) as Hin
          by (apply elem_of_candidates; rewrite <- Hname; done).
        rewrite Hnone in Hin. by apply elem_of_nil in Hin.
    - intros [= -> ->]. by rewrite lookup_insert_eq, Hname. }
  exists w1. eexists. split; [exact Hg|]. split; [exact Hfresh|].
  split; [reflexivity|].
  rewrite get_data_dir_quiet, Hone by done. cbn [fst snd folder mimeType editable].
  rewrite bool_decide_eq_true_2 by done. split; reflexivity.
Qed.

Lemma get_data_dir_creates_once_witness :
  ∃ w1 w2,
    get_data_dir cfg_create w_blank = (Ret 1%positive, w1) ∧
    files w1 = {[ 1%positive := folder7 ]} ∧
    get_data_dir cfg0 w1 = (Ret 1%positive, w2) ∧
    files w2 = files w1.
Proof.
  destruct (get_data_dir_creates_once cfg_create cfg0 w_blank eq_refl)
    as (w1 & w2 & Hg & _ & Hf & Hg' & Hf'); [vm_compute; reflexivity|reflexivity..|].
  exists w1, w2. split; [exact Hg|]. split; [|split; [exact Hg'|exact Hf']].
  rewrite Hf. reflexivity.
Defined.

(** ** The first initialization and the later openings *)

Section OpenMore.
Context (Metadata_version : Z).
Context (json_loads : bytes → option (gmap string Z)).
Context (json_dumps : gmap string Z → bytes).

Lemma init_data_dir_quiet cfg dir w bs ts :
  quiet w →
  default_block_size cfg = Some bs →
  default_total_size cfg = Some ts →
  bs ≤ ts → bs ≠ 0 →
  let attr := geometry Metadata_version bs (ts `div` bs) in
  let f := mkFile "config" "application/json" (Some dir) false true (json_dumps attr) in
  init_data_dir Metadata_version json_dumps cfg dir w =
  (Ret attr, with_files (<[fresh (dom (files w)) := f]> (files w)) (issued (CallInsert "config") w)).
Proof.
  intros Hq Hbs Hts Hle Hnz attr f. unfold init_data_dir.
  rewrite Hbs, Hts. cbn [config_or_input]. rewrite run_bind. cbn [mret M_ret].
  rewrite run_bind. cbn [mret M_ret].
  rewrite (proj2 (Z.ltb_ge _ _) Hle).
  rewrite run_bind. unfold floordiv at 1. rewrite (proj2 (Z.eqb_neq _ _) Hnz).
  cbn [mret M_ret]. rewrite run_bind. unfold floordiv. rewrite (proj2 (Z.eqb_neq _ _) Hnz).
  cbn [mret M_ret]. rewrite Z.div_mul by done.
  rewrite run_bind, insert_ok by done. reflexivity.
Qed.

(** X16: the first initialization with configured sizes, a block size
    that is not 0 and a total size that is not smaller, on a drive that
    answers: [block_count] is the floor of [total_size / block_size], so
    that for a positive block size there is at least one block, the blocks
    fit in the total size and less than one block is left over; one object
    is made, titled [config], in the data folder, holding the record. *)
Theorem init_data_dir_geometry cfg dir w bs ts :
  quiet w →
  default_block_size cfg = Some bs →
  default_total_size cfg = Some ts →
  bs ≤ ts → bs ≠ 0 →
  let count := ts `div` bs in
  let attr := geometry Metadata_version bs count in
  ∃ w',
    init_data_dir Metadata_version json_dumps cfg dir w = (Ret attr, w') ∧
    attr !! "block_size" = Some bs ∧ attr !! "block_count" = Some count ∧
    attr !! "version" = Some Metadata_version ∧
    (0 < bs → 1 ≤ count ∧ bs * count ≤ ts < bs * (count + 1)) ∧
    files w !! fresh (dom (files w)) = None ∧
    files w' = <[fresh (dom (files w)) :=
                   mkFile "config" "application/json" (Some dir) false true (json_dumps attr)]>
                 (files w) ∧
    calls w' = calls w ++ [CallInsert "config"].
Proof.
  intros Hq Hbs Hts Hle Hnz count attr. eexists. split.
  { by apply init_data_dir_quiet. }
  split; [done|]. split; [done|]. split; [done|]. split; [|split; [|done]].
  - intros Hpos. unfold count.
    pose proof (Z.mul_div_le ts bs Hpos). pose proof (Z.mul_succ_div_gt ts bs Hpos).
    assert (1 ≤ ts `div` bs) by (apply Z.div_le_lower_bound; lia). lia.
  - apply not_elem_of_dom, is_fresh.
Qed.

(** X17: a block size of 0 with a total size that is not negative gets
    past the size check and makes the first division fail:
    [ZeroDivisionError], and nothing is stored. *)
Theorem init_data_dir_zero_block_size cfg dir w bs w1 ts w2 :
  config_or_input (default_block_size cfg) "Desired block size: " w = (Ret bs, w1) →
  config_or_input (default_total_size cfg) "Total size: " w1 = (Ret ts, w2) →
  bs = 0 → 0 ≤ ts →
  init_data_dir Metadata_version json_dumps cfg dir w = (Raise ZeroDivisionError, w2) ∧
  files w2 = files w ∧ calls w2 = calls w.
Proof.
  intros Hbs Hts -> Hpos. split.
  - unfold init_data_dir. rewrite run_bind, Hbs, run_bind, Hts.
    rewrite (proj2 (Z.ltb_ge _ _) Hpos). reflexivity.
  - assert (∀ o p, preserves (λ w, (files w, calls w)) (config_or_input o p)) as Hp.
    { intros [n|] p w'; [done|]. cbn. unfold int_raw_input.
      by destruct (stdin w') as [|[n|] rest]. }
    pose proof (Hp (default_block_size cfg) "Desired block size: " w) as H1.
    pose proof (Hp (default_total_size cfg) "Total size: " w1) as H2.
    rewrite Hbs in H1. rewrite Hts in H2. cbn in *. split; congruence.
Qed.

(** X18: the metadata round trip.  On a drive that answers and a folder
    without metadata object, [load_data_dir] initializes the folder and
    returns the record; if [json.loads] reads back what [json.dumps] wrote
    and that is not empty, a later [load_data_dir], whatever its
    configuration, returns the same record and makes nothing. *)
Theorem metadata_round_trip cfg cfg' dir w bs ts :
  quiet w →
  Drive.children (files w) dir "config" = [] →
  default_block_size cfg = Some bs →
  default_total_size cfg = Some ts →
  bs ≤ ts → bs ≠ 0 →
  let attr := geometry Metadata_version bs (ts `div` bs) in
  json_loads (json_dumps attr) = Some attr →
  json_dumps attr ≠ [] →
  ∃ w1 w2,
    load_data_dir Metadata_version json_loads json_dumps cfg dir w = (Ret attr, w1) ∧
    load_data_dir Metadata_version json_loads json_dumps cfg' dir w1 = (Ret attr, w2) ∧
    files w2 = files w1.
Proof.
  intros Hq Hnone Hbs Hts Hle Hnz attr Hcodec Hnonempty.
  set (f := mkFile "config" "application/json" (Some dir) false true (json_dumps attr)).
  set (id := fresh (dom (files w))).
  set (w0 := issued (CallChildrenList dir "config") w).
  set (w1 := with_files (<[id := f]> (files w)) (issued (CallInsert "config") w0)).
  assert (load_data_dir Metadata_version json_loads json_dumps cfg dir w = (Ret attr, w1))
    as Hfirst.
  { unfold load_data_dir. rewrite run_bind, children_list_ok, Hnone by done.
    by apply init_data_dir_quiet. }
  assert (Drive.children (files w1) dir "config" = [(id, f)]) as Hone.
  { apply nodup_singleton; [apply children_nodup|].
    intros [i g]. rewrite elem_of_children. cbn [files with_files w1]. split.
    - intros (Hi & Hp & Ht). destruct (decide (i = id)) as [->|Hne].
      + rewrite lookup_insert_eq in Hi. by injection Hi as <-.
      + rewrite lookup_insert_ne in Hi by done. exfalso.
        assert ((i, g) ∈ Drive.children (files w) dir "config") as Hin
          by (by apply elem_of_children).
        rewrite Hnone in Hin. by apply elem_of_nil in Hin.
    - intros [= -> ->]. by rewrite lookup_insert_eq. }
  exists w1. eexists. split; [exact Hfirst|].
  unfold load_data_dir. rewrite run_bind, children_list_ok, Hone by done.
  cbn [fst]. rewrite run_bind, (get_media_ok id _ f); [|done|apply lookup_insert_eq].
  rewrite run_bind. cbn [content f].
  assert (negb (len (json_dumps attr) =? 0) = true) as ->.
  { apply negb_true_iff, Z.eqb_neq. unfold len.
    destruct (json_dumps attr); [done|cbn [length]; lia]. }
  cbn [assert mret M_ret]. rewrite Hcodec, run_bind.
  unfold getitem. unfold attr at 1, geometry. rewrite lookup_insert_eq. cbn [mret M_ret].
  rewrite Z.eqb_refl. split; reflexivity.
Qed.

Lemma getitem_preserves {X} (π : World → X) d key : preserves π (getitem d key).
Proof. unfold getitem. preserves_tac. Qed.

Lemma start_workers_counts n w :
  let w' := (start_workers n w).2 in
  (workers w' ≤ workers w + n)%nat ∧
  que w' = que w ∧ unfinished w' = unfinished w ∧
  ((start_workers n w).1 = Ret tt → workers w' = (workers w + n)%nat).
Proof.
  revert w. induction n as [|n IH]; intros w; cbn [start_workers].
  - cbn. repeat split; lia.
  - rewrite run_bind.
    pose proof (preserves_execute (λ w, (workers w, que w, unfinished w)) CallAuth (mret tt)
                  (λ _ _, eq_refl) (λ _ _, eq_refl) (preserves_ret _ _) w) as Hb.
    unfold build_service.
    destruct (Drive.execute CallAuth (mret ()) w) as [[[]|e] w1]; cbn in Hb;
      injection Hb as Hw Hq Hu.
    + rewrite run_bind. cbn [modify].
      specialize (IH (with_workers (S (workers w1)) w1)). cbn zeta in IH.
      destruct IH as (Hle & Hq' & Hu' & Hok). cbn in Hle, Hq', Hu', Hok.
      split; [lia|]. split; [congruence|]. split; [congruence|].
      intros He. rewrite (Hok He). lia.
    + cbn. split; [lia|]. done.
Qed.

Lemma init_data_dir_returns_version cfg dir w attr w' :
  init_data_dir Metadata_version json_dumps cfg dir w = (Ret attr, w') →
  attr !! "version" = Some Metadata_version.
Proof.
  unfold init_data_dir. rewrite run_bind.
  destruct (config_or_input _ _ w) as [[bs|e] w1]; [|done]. rewrite run_bind.
  destruct (config_or_input _ _ w1) as [[ts|e] w2]; [|done].
  destruct (ts <? bs); [done|]. rewrite run_bind. unfold floordiv.
  destruct (bs =? 0); [done|]. cbn [mret M_ret]. rewrite run_bind. cbn [mret M_ret].
  rewrite run_bind.
  match goal with |- context [Drive.insert ?f w2] =>
    destruct (Drive.insert f w2) as [[r|e] w3]; [|done]
  end.
  cbn [mret M_ret]. intros [= <- <-]. apply lookup_insert_eq.
Qed.

Lemma load_data_dir_returns_version cfg dir w attr w' :
  load_data_dir Metadata_version json_loads json_dumps cfg dir w = (Ret attr, w') →
  attr !! "version" = Some Metadata_version.
Proof.
  unfold load_data_dir. rewrite run_bind.
  destruct (Drive.children_list dir "config" w) as [[items|e] w1]; [|done].
  destruct items as [|item [|item' items]]; [apply init_data_dir_returns_version| |done].
  rewrite run_bind. destruct (Drive.get_media item.1 w1) as [[results|e] w2]; [|done].
  rewrite run_bind. destruct (negb (len results =? 0)); [|done]. cbn [assert mret M_ret].
  destruct (json_loads results) as [a|]; [|done]. rewrite run_bind. unfold getitem.
  destruct (a !! "version") as [v|] eqn:Hv; [|done]. cbn [mret M_ret].
  destruct (v =? Metadata_version) eqn:Heq; [|done]. cbn [negb].
  intros [= <- <-]. apply Z.eqb_eq in Heq. by rewrite Hv, Heq.
Qed.

(** X19: the handle that [__init__] returns.  Its metadata has the
    expected version, its block size and block count are those of the
    metadata and its total size is their product; the table has one slot
    per block, the queue is empty with no outstanding task, and
    [workers] workers, 8 when the configuration does not say, have been
    started. *)
Theorem opened_handle cfg w gbd w' :
  __init__ Metadata_version json_loads json_dumps cfg w = (Ret gbd, w') →
  config gbd = cfg ∧
  bd_attr gbd !! "version" = Some Metadata_version ∧
  bd_attr gbd !! "block_size" = Some (block_size gbd) ∧
  bd_attr gbd !! "block_count" = Some (block_count gbd) ∧
  total_size gbd = block_size gbd * block_count gbd ∧
  length (mapping w') = Z.to_nat (block_count gbd) ∧
  que w' = [] ∧ unfinished w' = 0%nat ∧
  workers w' = (workers w + Z.to_nat (default 8%Z (cfg_workers cfg)))%nat.
Proof.
  intros Hinit. pose proof (init_fresh_table _ _ _ _ _ _ _ Hinit) as Htable.
  revert Hinit. unfold __init__. rewrite run_bind.
  pose proof (build_service_preserves_handle w) as H0.
  destruct (build_service w) as [[[]|e] w0]; [|done]. rewrite run_bind.
  pose proof (get_data_dir_preserves_handle cfg w0) as H1.
  destruct (get_data_dir cfg w0) as [[dir|e] w1]; [|done]. rewrite run_bind.
  pose proof (load_data_dir_preserves_handle Metadata_version json_loads json_dumps
                cfg dir w1) as H2.
  destruct (load_data_dir _ _ _ cfg dir w1) as [[attr|e] w2] eqn:Hload; [|done].
  apply load_data_dir_returns_version in Hload.
  rewrite run_bind. unfold getitem at 1.
  destruct (attr !! "block_size") as [bs|] eqn:Hbs; [|done]. cbn [mret M_ret].
  rewrite run_bind. unfold getitem at 1.
  destruct (attr !! "block_count") as [bc|] eqn:Hbc; [|done]. cbn [mret M_ret].
  rewrite run_bind. cbn [modify]. rewrite run_bind. cbn [modify]. rewrite run_bind.
  match goal with |- context [start_workers ?n ?x] =>
    pose proof (start_workers_counts n x) as Hs;
    destruct (start_workers n x) as [[[]|e] w3]; [|done]
  end.
  cbn [mret M_ret]. intros [= <- <-].
  cbn in Hs, H0, H1, H2. destruct Hs as (_ & Hq & Hu & Hw). specialize (Hw eq_refl).
  unfold handle in H0, H1, H2. cbn in H0, H1, H2.
  injection H0 as _ _ _ H0. injection H1 as _ _ _ H1. injection H2 as _ _ _ H2.
  cbn. rewrite Htable, length_replicate.
  repeat split; try done. rewrite Hw. congruence.
Qed.

End OpenMore.

Lemma init_data_dir_geometry_witness :
  ∃ w',
    init_data_dir 1 meta_encode cfg_create 7%positive w_empty_folder =
      (Ret (geometry 1 2 (5 `div` 2)), w') ∧
    (1 ≤ 5 `div` 2 ∧ 2 * 5 `div` 2 ≤ 5 < 2 * (5 `div` 2 + 1)) ∧
    files w' !! fresh (dom (files w_empty_folder)) =
      Some (mkFile "config" "application/json" (Some 7%positive) false true
              (meta_encode (geometry 1 2 (5 `div` 2)))) ∧
    calls w' = [CallInsert "config"].
Proof.
  destruct (init_data_dir_geometry 1 meta_encode cfg_create 7%positive w_empty_folder 2 5
              eq_refl eq_refl eq_refl ltac:(lia) ltac:(lia))
    as (w' & Hinit & _ & _ & _ & Hbounds & _ & Hfiles & Hcalls).
  exists w'. split; [exact Hinit|]. split; [apply Hbounds; lia|].
  split; [|exact Hcalls]. rewrite Hfiles. apply lookup_insert_eq.
Defined.

Lemma init_data_dir_zero_block_size_witness :
  init_data_dir 1 meta_encode cfg_zero 7%positive w_empty_folder =
    (Raise ZeroDivisionError, w_empty_folder) ∧
  files w_empty_folder = files w_empty_folder ∧ calls w_empty_folder = calls w_empty_folder.
Proof.
  apply (init_data_dir_zero_block_size 1 meta_encode cfg_zero 7%positive
           w_empty_folder 0 w_empty_folder 5 w_empty_folder);
    [reflexivity|reflexivity|reflexivity|lia].
Defined.

Lemma metadata_round_trip_witness :
  ∃ w1 w2,
    load_data_dir 1 meta_decode meta_encode cfg_create 7%positive w_empty_folder =
      (Ret (geometry 1 2 2), w1) ∧
    load_data_dir 1 meta_decode meta_encode cfg0 7%positive w1 = (Ret (geometry 1 2 2), w2) ∧
    files w2 = files w1.
Proof.
  apply (metadata_round_trip 1 meta_decode meta_encode cfg_create cfg0 7%positive
           w_empty_folder 2 5).
  - reflexivity.
  - vm_compute. reflexivity.
  - reflexivity.
  - reflexivity.
  - lia.
  - lia.
  - vm_compute. reflexivity.
  - discriminate.
Defined.

Lemma opened_handle_witness :
  __init__ 1 meta_decode meta_encode cfg0 (w_closed Byte.x01) = (Ret g1, w_opened) ∧
  bd_attr g1 !! "version" = Some 1 ∧
  total_size g1 = block_size g1 * block_count g1 ∧
  length (mapping w_opened) = Z.to_nat (block_count g1) ∧
  que w_opened = [] ∧ unfinished w_opened = 0%nat ∧
  workers w_opened = (workers (w_closed Byte.x01) + Z.to_nat (default 8%Z (cfg_workers cfg0)))%nat.
Proof.
  assert (__init__ 1 meta_decode meta_encode cfg0 (w_closed Byte.x01) = (Ret g1, w_opened))
    as Hopen by (vm_compute; reflexivity).
  destruct (opened_handle 1 meta_decode meta_encode cfg0 (w_closed Byte.x01) g1 w_opened Hopen)
    as (_ & Hv & _ & _ & Ht & Hl & Hq & Hu & Hw).
  split; [exact Hopen|]. split; [exact Hv|]. split; [exact Ht|]. split; [exact Hl|].
  split; [exact Hq|]. split; [exact Hu|exact Hw].
Defined.

(** ** The retry loop, any round *)

(** X20: [do_request] stops at the first attempt that is not refused by
    the rate limit.  If the attempts of the rounds before round [rnd] are
    refused and the attempt of round [rnd] returns, or raises an error that
    the [except] clause passes on, this is the outcome of [do_request]; the
    worker has slept once per refused round, for 2 ** round, and no longer. *)
Theorem retry_stops_at_first_answer gbd idx data before rnd after w w1 r w2 :
  before ++ rnd :: after = GBDWorker.xrange5 →
  refused gbd idx data before w w1 →
  GBDWorker.block_op gbd idx data w1 = (r, w2) →
  match r with Ret _ => True | Raise e => passed_on e end →
  GBDWorker.do_request gbd idx data w = (r, w2) ∧
  sleeps w2 = sleeps w ++ ((λ rnd, 2 ^ rnd) <$> before).
Proof.
  intros Hrounds Href Hop Hr. split.
  - unfold GBDWorker.do_request. rewrite <- Hrounds.
    rewrite (rounds_refused _ _ _ _ _ _ _ Href).
    destruct r as [v|e]; [by apply round_returns|by apply round_raises].
  - destruct (refused_host _ _ _ _ _ _ Href) as (<- & _).
    pose proof (block_op_preserves_host gbd idx data w1) as Hh.
    rewrite Hop in Hh. unfold host in Hh. cbn in Hh. by injection Hh as Hs _ _ _ _ _ _ _.
Qed.

Lemma retry_stops_at_first_answer_witness :
  (GBDWorker.do_request g0 0 None w_refused_then_failing).1 = Raise server_error ∧
  sleeps (GBDWorker.do_request g0 0 None w_refused_then_failing).2 = [1].
Proof.
  assert (refused g0 0 None [0] w_refused_then_failing
            (backed_off 0 (GBDWorker.block_op g0 0 None w_refused_then_failing).2)) as Href.
  { eapply refused_cons; [vm_compute; reflexivity| |apply refused_nil].
    exists "rateLimitExceeded". split; [reflexivity|]. apply list_elem_of_here. }
  destruct (retry_stops_at_first_answer g0 0 None [0] 1 [2; 3; 4] w_refused_then_failing
              (backed_off 0 (GBDWorker.block_op g0 0 None w_refused_then_failing).2)
              (Raise server_error)
              (GBDWorker.block_op g0 0 None
                 (backed_off 0 (GBDWorker.block_op g0 0 None w_refused_then_failing).2)).2
              eq_refl Href ltac:(vm_compute; reflexivity) ltac:(left; discriminate))
    as [Hreq Hs].
  rewrite Hreq. split; [reflexivity|]. cbn [snd]. rewrite Hs. reflexivity.
Defined.

(** ** Calls with a callback *)

Lemma non_empty_guard (data : bytes) n :
  data ≠ [] → len data = n → negb (len data =? 0) && (len data =? n) = true.
Proof.
  intros Hne <-. rewrite Z.eqb_refl, andb_true_r. apply negb_true_iff, Z.eqb_neq.
  unfold len. destruct data; [done|cbn [length]; lia].
Qed.

Lemma valid_idx_assert self idx :
  valid_idx self idx → (0 <=? idx) && (idx <? block_count self) = true.
Proof. unfold valid_idx. lia. Qed.

(** X21: a valid call with a callback does nothing remote itself: it
    returns [None] at once with the item in the queue and one more
    outstanding task.  The next turn of a worker then runs the request and
    calls the callback once, with the outcome of [do_request], and the queue
    and the count of outstanding tasks are as before the call. *)
Theorem queued_call_is_answered_by_the_worker gbd idx data cb pri w :
  valid_idx gbd idx →
  match data with Some d => d ≠ [] ∧ len d = block_size gbd | None => True end →
  que w = [] →
  let call :=
    match data with
    | Some d => write_block gbd idx d (Some cb) pri
    | None => read_block gbd idx (Some cb) pri
    end in
  let w0 := with_que [] (with_unfinished (S (unfinished w)) w) in
  ∃ w1 w2,
    call w = (Ret PNone, w1) ∧
    calls w1 = calls w ∧ files w1 = files w ∧ delivered w1 = delivered w ∧
    que w1 = [(pri, (idx, data, Some cb))] ∧ unfinished w1 = S (unfinished w) ∧
    GBDWorker.run_turn gbd w1 = (Ret tt, w2) ∧
    delivered w2 =
      delivered w ++ [(sink_name cb,
                       err_of (GBDWorker.do_request gbd idx data w0).1,
                       ret_of (GBDWorker.do_request gbd idx data w0).1)] ∧
    que w2 = [] ∧ unfinished w2 = unfinished w.
Proof.
  intros Hidx Hdata Hq call w0.
  set (w1 := with_unfinished (S (unfinished w))
               (with_que [(pri, (idx, data, Some cb))] w)).
  assert (call w = (Ret PNone, w1)) as Hcall.
  { unfold call, w1. destruct data as [d|].
    - destruct Hdata as [Hne Hlen]. unfold write_block.
      rewrite (valid_idx_assert _ _ Hidx), (non_empty_guard _ _ Hne Hlen).
      unfold TimedPriorityQueue.put.
      repeat (rewrite run_bind; cbn [assert mret M_ret modify]). by rewrite Hq.
    - unfold read_block. rewrite (valid_idx_assert _ _ Hidx).
      unfold TimedPriorityQueue.put.
      repeat (rewrite run_bind; cbn [assert mret M_ret modify]). by rewrite Hq. }
  destruct (run_item_outcome gbd idx data (Some cb) w0) as (w2 & Hrun & Hu & Hq2 & Hd).
  exists w1, w2. split; [exact Hcall|]. do 5 (split; [reflexivity|]).
  split; [|split; [exact Hd|split; [exact Hq2|exact Hu]]].
  rewrite (run_turn_takes gbd w1 pri (idx, data, Some cb) []); [exact Hrun|reflexivity].
Qed.

Lemma queued_call_is_answered_by_the_worker_witness :
  ∃ w1 w2,
    read_block g0 1 (Some quiet_cb) 0 w_full = (Ret PNone, w1) ∧
    calls w1 = [] ∧
    GBDWorker.run_turn g0 w1 = (Ret tt, w2) ∧
    delivered w2 = [(ToUser 0, None, PStr [Byte.x03; Byte.x04])] ∧
    que w2 = [] ∧ unfinished w2 = 0%nat.
Proof.
  destruct (queued_call_is_answered_by_the_worker g0 1 None quiet_cb 0 w_full
              ltac:(unfold valid_idx; cbn; lia) I eq_refl)
    as (w1 & w2 & Hcall & Hc & _ & _ & _ & _ & Hrun & Hd & Hq & Hu).
  exists w1, w2. split; [exact Hcall|]. split; [exact Hc|]. split; [exact Hrun|].
  split; [|split; [exact Hq|exact Hu]].
  rewrite Hd. vm_compute. reflexivity.
Defined.

(** ** Waiting for the queue *)




(** ** A metadata object that cannot be used *)

Section LoadErrors.

Context (Metadata_version : Z).
Context (json_loads : bytes → option (gmap string Z)).
Context (json_dumps : gmap string Z → bytes).

(** X23: [load_data_dir] on a drive that answers and a folder that has
    metadata objects.  More than one raises [AssertionError] after the
    listing.  A single one is fetched: if it is empty the [assert] fails, if
    [json.loads] cannot read it [ValueError] is raised, and if what it reads
    has no key [version] [KeyError] is raised.  In each case nothing on the
    drive is made or changed, and nothing is asked of the user. *)
Theorem load_data_dir_rejects cfg dir w :
  quiet w →
  let load := load_data_dir Metadata_version json_loads json_dumps cfg dir in
  let found := Drive.children (files w) dir "config" in
  let w1 := issued (CallChildrenList dir "config") w in
  ((1 < length found)%nat →
     load w = (Raise (AssertionError "config file should be unique"), w1)) ∧
  (∀ id f, found = [(id, f)] →
     let w2 := issued (CallGetMedia id) w1 in
     (content f = [] → load w = (Raise (AssertionError "results"), w2)) ∧
     (content f ≠ [] → json_loads (content f) = None →
        load w = (Raise (ValueError "No JSON object could be decoded"), w2)) ∧
     (∀ a, content f ≠ [] → json_loads (content f) = Some a → a !! "version" = None →
        load w = (Raise (KeyError "version"), w2))).
Proof.
  intros Hq load found w1. split.
  - intros Hlen. unfold load, load_data_dir.
    rewrite run_bind, children_list_ok by done. fold found.
    destruct found as [|? [|? ?]]; cbn in Hlen; [lia|lia|reflexivity].
  - intros id f Hfound w2.
    assert (files w !! id = Some f) as Hid.
    { assert ((id, f) ∈ found) as Hin by (rewrite Hfound; apply list_elem_of_here).
      by apply elem_of_children in Hin as (Hid & _). }
    assert (∀ data : bytes, data ≠ [] → negb (len data =? 0) = true) as Hnz.
    { intros data Hne. apply negb_true_iff, Z.eqb_neq. unfold len.
      destruct data; [done|cbn [length]; lia]. }
    unfold load, load_data_dir.
    rewrite run_bind, children_list_ok by done. fold found. rewrite Hfound.
    cbn [fst]. rewrite run_bind, (get_media_ok id _ f); [|done|done].
    fold w1 w2. split; [|split].
    + intros ->. reflexivity.
    + intros Hne Hnone. rewrite run_bind, (Hnz _ Hne). cbn [assert mret M_ret].
      rewrite Hnone. reflexivity.
    + intros a Hne Hsome Hv. rewrite run_bind, (Hnz _ Hne). cbn [assert mret M_ret].
      rewrite Hsome, run_bind. unfold getitem. rewrite Hv. reflexivity.
Qed.

End LoadErrors.

Lemma load_data_dir_rejects_witness :
  load_data_dir 1 meta_decode meta_encode cfg0 7%positive w_two_configs =
    (Raise (AssertionError "config file should be unique"),
     issued (CallChildrenList 7%positive "config") w_two_configs) ∧
  load_data_dir 1 meta_decode meta_encode cfg0 7%positive w_bad_config =
    (Raise (ValueError "No JSON object could be decoded"),
     issued (CallGetMedia 8%positive)
       (issued (CallChildrenList 7%positive "config") w_bad_config)).
Proof.
  split.
  - destruct (load_data_dir_rejects 1 meta_decode meta_encode cfg0 7%positive
                w_two_configs eq_refl) as [Hmany _].
    apply Hmany. vm_compute. lia.
  - destruct (load_data_dir_rejects 1 meta_decode meta_encode cfg0 7%positive
                w_bad_config eq_refl) as [_ Hone].
    destruct (Hone 8%positive (bad_config_file) ltac:(vm_compute; reflexivity))
      as (_ & Hbad & _).
    apply Hbad; [discriminate|reflexivity].
Defined.
